(** * OutHere route drawing: trail snapping, stitching and assembly

    A shallow embedding of the drawing engine of the OutHere map viewer
    (the "Drawing Tools" script: [snapToTrail], [trailsMatch],
    [extractTrailSlice], [getTrailSegmentBetween], [mergeTrailFragments],
    [tryConnectTrails], [findLastMainRouteVertexIndex],
    [buildMainRouteDisplayCoords], [handleMapClickForRoute],
    [updateRouteDrawing], [computeMainRouteDistance],
    [computeDayhikeDistance], [finishRouteDrawing] with
    [TripManager.addFeature]), the properties its design document states
    about it, and properties of the drawing session as a whole.

    Conventions of the embedding
    - a JavaScript number is an IEEE 754 binary64 value ([spec_float] with
      precision 53 and maximal exponent 1024); comparisons, [Math.abs],
      [Math.sqrt], [Math.min], [Math.max] follow the language;
    - an exception is the [Throw] outcome of the [result] monad; [try]/[catch]
      is [try_catch];
    - an array is a list; reading an array out of range gives [undefined],
      and reading [c[0]] of an [undefined] coordinate throws;
    - the map ([map.project], [map.queryRenderedFeatures]) and the turf
      library are collaborators: they are the fields of a [World], and every
      call to them may throw;
    - a [for] loop over a range of indices runs as many turns as the range
      has indices;
    - the trip manager is the state of a small state-and-exception monad;
    - console output, the DOM and the local storage are not modelled.

    The file has three parts: the embedding, with the predicates of the
    statements and a flat test world; the properties; the theorems at
    concrete inputs. *)

From Stdlib Require Import ZArith Bool String Lia.
From Stdlib Require Import Floats.SpecFloat.
From stdpp Require Import base option list.

Local Open Scope Z_scope.

(** ** Exceptions *)

Inductive result (A : Type) : Type :=
| Ok (a : A)
| Throw.
Arguments Ok {A} a.
Arguments Throw {A}.

#[global] Instance result_ret : MRet result := fun A a => Ok a.
#[global] Instance result_bind : MBind result := fun A B f m =>
  match m with Ok a => f a | Throw => Throw end.
#[global] Instance result_fmap : FMap result := fun A B f m =>
  match m with Ok a => Ok (f a) | Throw => Throw end.

(** [try { m } catch (_) { h }] *)
Definition try_catch {A} (m : result A) (h : result A) : result A :=
  match m with Ok a => Ok a | Throw => h end.

(** ** Numbers *)

Module Num.

Definition num : Type := spec_float.

Definition prec : Z := 53.
Definition emax : Z := 1024.

(** The number written as the integer literal [z]. *)
Definition of_Z (z : Z) : num := binary_normalize prec emax z 0 false.

Definition num_add : num -> num -> num := SFadd prec emax.
Definition num_sub : num -> num -> num := SFsub prec emax.
Definition num_mul : num -> num -> num := SFmul prec emax.
Definition num_div : num -> num -> num := SFdiv prec emax.

Definition Infinity : num := S754_infinity false.
Definition NegInfinity : num := S754_infinity true.
Definition NaN : num := S754_nan.

(** [a < b], [a <= b], [a > b], [a >= b], [a === b] *)
Definition num_lt (a b : num) : bool := SFltb a b.
Definition num_le (a b : num) : bool := SFleb a b.
Definition num_gt (a b : num) : bool := SFltb b a.
Definition num_ge (a b : num) : bool := SFleb b a.
Definition num_eq (a b : num) : bool := SFeqb a b.

Definition is_nan (a : num) : bool :=
  match a with S754_nan => true | _ => false end.
Definition is_zero (a : num) : bool :=
  match a with S754_zero _ => true | _ => false end.

Definition Math_abs : num -> num := SFabs.
Definition Math_sqrt : num -> num := SFsqrt prec emax.

(** [Math.min(a, b)]: NaN if either is NaN, and -0 below +0. *)
Definition Math_min (a b : num) : num :=
  if is_nan a || is_nan b then NaN
  else if num_lt a b then a
  else if num_lt b a then b
  else match a with S754_zero true => a | _ => b end.

(** [Math.max(a, b)]: NaN if either is NaN, and +0 above -0. *)
Definition Math_max (a b : num) : num :=
  if is_nan a || is_nan b then NaN
  else if num_lt a b then b
  else if num_lt b a then a
  else match a with S754_zero false => a | _ => b end.

(** [a ** 2], taken to be the product [a * a] (as the engines compute a
    square). *)
Definition pow2 (a : num) : num := num_mul a a.

End Num.
Export Num.

(** ** The order of the numbers

    Every number but NaN has a key, a triple of integers, and the numbers
    compare as their keys do in the lexicographic order: first the class
    (-∞, negative, zero, positive, +∞), then the exponent, then the
    mantissa, the last two negated below zero. *)

Definition key (a : num) : option (Z * Z * Z) :=
  match a with
  | S754_nan => None
  | S754_zero _ => Some (0, 0, 0)
  | S754_infinity false => Some (2, 0, 0)
  | S754_infinity true => Some (-2, 0, 0)
  | S754_finite false m e => Some (1, e, Z.pos m)
  | S754_finite true m e => Some (-1, - e, Z.neg m)
  end.

Definition key_lt (k k' : Z * Z * Z) : Prop :=
  k.1.1 < k'.1.1
  \/ (k.1.1 = k'.1.1 /\ (k.1.2 < k'.1.2 \/ (k.1.2 = k'.1.2 /\ k.2 < k'.2))).

(** ** Values *)

(** A position [[lng, lat]], or [undefined] (what reading an array out of
    range gives). *)
Inductive JsCoord : Type :=
| undefined
| position (lng lat : num).

(** [c[0]] and [c[1]]: a TypeError on [undefined]. *)
Definition at0 (c : JsCoord) : result num :=
  match c with position lng _ => Ok lng | undefined => Throw end.
Definition at1 (c : JsCoord) : result num :=
  match c with position _ lat => Ok lat | undefined => Throw end.

(** [arr[i]] for an integer [i] *)
Definition get (arr : list JsCoord) (i : Z) : JsCoord :=
  if i <? 0 then undefined else default undefined (arr !! Z.to_nat i).

(** [arr.length] *)
Definition len {A} (arr : list A) : Z := Z.of_nat (length arr).

(** ** Loops *)

(** [for (let i = from; i <= to; i++) s = body(i, s)]: the body runs
    [to + 1 - from] times (no time when that is negative). *)
Fixpoint iter_up {S} (n : nat) (i : Z) (body : Z -> S -> S) (s : S) : S :=
  match n with
  | O => s
  | S k => iter_up k (i + 1) body (body i s)
  end.
Definition for_up {S} (from to : Z) (body : Z -> S -> S) (s : S) : S :=
  iter_up (Z.to_nat (to + 1 - from)) from body s.

(** [for (let i = from; i > downTo; i--) s = body(i, s)]: the body runs
    [from - downTo] times. *)
Fixpoint iter_down {S} (n : nat) (i : Z) (body : Z -> S -> S) (s : S) : S :=
  match n with
  | O => s
  | S k => iter_down k (i - 1) body (body i s)
  end.
Definition for_down {S} (from downTo : Z) (body : Z -> S -> S) (s : S) : S :=
  iter_down (Z.to_nat (from - downTo)) from body s.

(** ** Trail segment extraction *)

(** [coords.push(c)] *)
Definition push {A} (coords : list A) (c : A) : list A := coords ++ [c].

Definition extractTrailSlice (trailCoords : list JsCoord)
    (startCoord : JsCoord) (startIdx : Z)
    (endCoord : JsCoord) (endIdx : Z) : list JsCoord :=
  let forward := startIdx <=? endIdx in
  let coords := [] in
  if forward then
    let coords := push coords startCoord in
    let coords :=
      for_up (startIdx + 1) endIdx
        (fun i coords => push coords (get trailCoords i)) coords in
    push coords endCoord
  else
    let coords := push coords startCoord in
    let coords :=
      for_down startIdx endIdx
        (fun i coords => push coords (get trailCoords i)) coords in
    push coords endCoord.

(** ** Trail features and trail refs *)

(** A feature id or property value: [null] (or an absent property, which
    [?? null] turns into [null]), a number or a string. *)
Inductive JsVal : Type :=
| JNull
| JNum (n : num)
| JStr (s : string).

(** Truthiness of a value, as [&&] and [||] test it. *)
Definition truthy (v : JsVal) : bool :=
  match v with
  | JNull => false
  | JNum n => negb (is_zero n || is_nan n)
  | JStr s => negb (String.eqb s EmptyString)
  end.

(** [v === w] *)
Definition strict_eq (v w : JsVal) : bool :=
  match v, w with
  | JNull, JNull => true
  | JNum a, JNum b => num_eq a b
  | JStr s, JStr t => String.eqb s t
  | _, _ => false
  end.

(** [v ?? w] *)
Definition nullish (v w : JsVal) : JsVal :=
  match v with JNull => w | _ => v end.

(** A rendered map feature, as [map.queryRenderedFeatures] returns it:
    [geometry.type], [geometry.coordinates] (the positions of a LineString;
    other geometry types are skipped before their coordinates are read),
    [id], [properties.osm_id] and [properties.name] ([null] when absent). *)
Record Feature : Type := {
  geometry_type : string;
  geometry_coordinates : list JsCoord;
  feature_id : JsVal;
  feature_osm_id : JsVal;
  feature_name : JsVal;
}.

(** An entry of [routeTrailRefs]:
    [{ trailCoords, trailId, trailName, indexOnLine }]. *)
Record TrailRef : Type := {
  trailCoords : list JsCoord;
  trailId : JsVal;
  trailName : JsVal;
  indexOnLine : Z;
}.

(** An entry of [routeSegments]: [{ coords, isTrailSnapped }]. *)
Record Segment : Type := {
  coords : list JsCoord;
  isTrailSnapped : bool;
}.

(** ** Collaborators *)

(** What [map.project] returns. *)
Record Pixel : Type := { x : num; y : num }.

(** What [turf.point] and [turf.lineString] return. *)
Record PointFeature : Type := { point_coordinates : JsCoord }.
Record LineFeature : Type := { line_coordinates : list JsCoord }.

(** What [turf.nearestPointOnLine] returns: [geometry.coordinates] and
    [properties.index]. *)
Record Nearest : Type := {
  nearest_coordinates : JsCoord;
  nearest_index : Z;
}.

(** The turf library. *)
Record Turf : Type := {
  point : JsCoord -> result PointFeature;
  lineString : list JsCoord -> result LineFeature;
  (** [turf.nearestPointOnLine(line, pt, { units: "meters" })] *)
  nearestPointOnLine : LineFeature -> PointFeature -> result Nearest;
  (** [turf.distance(a, b, { units: "meters" })] *)
  distance : PointFeature -> PointFeature -> result num;
  (** [turf.lineSlice(startPt, stopPt, line)] *)
  lineSlice : PointFeature -> PointFeature -> LineFeature -> result LineFeature;
  (** [turf.length(line, { units: "miles" })] *)
  length_miles : LineFeature -> result num;
}.

(** The globals the script depends on: the map and, when its script was
    loaded, turf. *)
Record World : Type := {
  (** [map.project(coord)] *)
  project : JsCoord -> result Pixel;
  (** [map.queryRenderedFeatures(bbox, { layers: ["trails"] })], with
      [bbox = [[x1, y1], [x2, y2]]] *)
  queryRenderedFeatures : (num * num) * (num * num) -> result (list Feature);
  (** [typeof turf === "undefined"] is [turf = None] *)
  turf : option Turf;
}.

(** [turf.f(...)]: a ReferenceError when turf is not defined. *)
Definition the_turf (W : World) : result Turf :=
  match turf W with Some t => Ok t | None => Throw end.

Definition turf_point (W : World) (c : JsCoord) : result PointFeature :=
  t ← the_turf W; point t c.
Definition turf_lineString (W : World) (cs : list JsCoord) : result LineFeature :=
  t ← the_turf W; lineString t cs.
Definition turf_nearestPointOnLine (W : World)
    (line : LineFeature) (pt : PointFeature) : result Nearest :=
  t ← the_turf W; nearestPointOnLine t line pt.
Definition turf_lineSlice (W : World)
    (a b : PointFeature) (line : LineFeature) : result LineFeature :=
  t ← the_turf W; lineSlice t a b line.
Definition turf_length (W : World) (line : LineFeature) : result num :=
  t ← the_turf W; length_miles t line.

(** [turf.distance(turf.point(a), turf.point(b), { units: "meters" })]:
    the callee is looked up first, then the two points are built. *)
Definition distMeters (W : World) (a b : JsCoord) : result num :=
  t ← the_turf W;
  pa ← point t a;
  pb ← point t b;
  distance t pa pb.

(** ** Constants *)

(** [const SNAP_PIXEL_RADIUS = 30] *)
Definition SNAP_PIXEL_RADIUS : num := of_Z 30.

(** [const MERGE_GAP_TOLERANCE_METERS = 20] *)
Definition MERGE_GAP_TOLERANCE_METERS : num := of_Z 20.

(** The literals [1e-10] and [0.005]: the binary64 values nearest to the
    decimal ones, which the correctly rounded quotients are. *)
Definition lit_1e_10 : num := num_div (of_Z 1) (of_Z 10000000000).
Definition lit_0_005 : num := num_div (of_Z 5) (of_Z 1000).

Arguments SNAP_PIXEL_RADIUS : simpl never.
Arguments MERGE_GAP_TOLERANCE_METERS : simpl never.
Arguments lit_1e_10 : simpl never.
Arguments lit_0_005 : simpl never.

(** ** Trail identity *)

(** What [trailsMatch] returns: ["same"], ["related"] or [false]. *)
Inductive Match : Type := same | related | no_match.

#[global] Instance Match_eq_dec : EqDecision Match.
Proof. solve_decision. Defined.

(** [a[0] === b[0] && a[1] === b[1]] *)
Definition same_position (a b : JsCoord) : result bool :=
  a0 ← at0 a;
  b0 ← at0 b;
  if num_eq a0 b0 then
    a1 ← at1 a;
    b1 ← at1 b;
    Ok (num_eq a1 b1)
  else Ok false.

Definition trailsMatch (refA refB : option TrailRef) : result Match :=
  match refA, refB with
  | Some refA, Some refB =>
      let ac := trailCoords refA in
      let bc := trailCoords refB in
      let lengthMatch := len ac =? len bc in
      firstMatch ←
        (if (0 <? len ac) && (0 <? len bc)
         then same_position (get ac 0) (get bc 0)
         else Ok false);
      lastMatch ←
        (if (0 <? len ac) && (0 <? len bc)
         then same_position (get ac (len ac - 1)) (get bc (len bc - 1))
         else Ok false);
      if lengthMatch && firstMatch && lastMatch then Ok same
      else if truthy (trailId refA) && truthy (trailId refB)
              && strict_eq (trailId refA) (trailId refB) then Ok related
      else if truthy (trailName refA) && truthy (trailName refB)
              && strict_eq (trailName refA) (trailName refB) then Ok related
      else Ok no_match
  | _, _ => Ok no_match
  end.

(** ** Loops over arrays *)

(** [for (const a of arr) s = body(a, s)], where the body may throw. *)
Fixpoint for_of {A S} (arr : list A) (body : A -> S -> result S) (s : S)
    : result S :=
  match arr with
  | [] => Ok s
  | a :: arr' => s' ← body a s; for_of arr' body s'
  end.

(** [for (const a of arr) { ... return r; ... }]: the body either goes on to
    the next element ([None]) or makes the enclosing function return
    ([Some r]); [None] at the end means the loop ran to completion. *)
Fixpoint first_return {A R} (arr : list A) (body : A -> result (option R))
    : result (option R) :=
  match arr with
  | [] => Ok None
  | a :: arr' =>
      r ← body a;
      match r with
      | Some v => Ok (Some v)
      | None => first_return arr' body
      end
  end.

(** The indices [0, 1, ..., arr.length - 1] of
    [for (let i = 0; i < arr.length; i++)]. *)
Definition indices {A} (arr : list A) : list Z := seqZ 0 (len arr).

(** ** Snapping a click to a trail *)

(** What [snapToTrail] returns:
    [{ coordinates, snapped, trailFeature, indexOnLine }]. *)
Record SnapResult : Type := {
  coordinates : JsCoord;
  snapped : bool;
  trailFeature : option Feature;
  snap_indexOnLine : option Z;
}.

Definition unsnapped (coord : JsCoord) : SnapResult :=
  {| coordinates := coord; snapped := false;
     trailFeature := None; snap_indexOnLine := None |}.

(** [Math.sqrt(dx * dx + dy * dy)] with [dx = a.x - b.x], [dy = a.y - b.y] *)
Definition pixelDistance (a b : Pixel) : num :=
  let dx := num_sub (x a) (x b) in
  let dy := num_sub (y a) (y b) in
  Math_sqrt (num_add (num_mul dx dx) (num_mul dy dy)).

(** [Math.sqrt((a.x - b.x) ** 2 + (a.y - b.y) ** 2)], as [tryConnectTrails]
    writes it. *)
Definition corridorPixelDistance (a b : Pixel) : num :=
  Math_sqrt (num_add (pow2 (num_sub (x a) (x b))) (pow2 (num_sub (y a) (y b)))).

(** One turn of the loop of [snapToTrail], up to the comparison with the
    best distance so far: [None] when the trail is skipped ([continue]),
    else the nearest point on the trail and its pixel distance to the
    click. *)
Definition snapCandidate (W : World) (pixel : Pixel)
    (clickPoint : PointFeature) (trail : Feature)
    : result (option (Nearest * num)) :=
  if negb (String.eqb (geometry_type trail) "LineString") then Ok None
  else if len (geometry_coordinates trail) <? 2 then Ok None
  else
    line ← turf_lineString W (geometry_coordinates trail);
    nearest ← turf_nearestPointOnLine W line clickPoint;
    snappedPixel ← project W (nearest_coordinates nearest);
    Ok (Some (nearest, pixelDistance snappedPixel pixel)).

(** The variables [bestPoint], [bestPixelDist], [bestTrail]. *)
Definition Best : Type := option Nearest * num * option Feature.

Definition snapStep (W : World) (pixel : Pixel) (clickPoint : PointFeature)
    (trail : Feature) (best : Best) : result Best :=
  let '(bestPoint, bestPixelDist, bestTrail) := best in
  c ← snapCandidate W pixel clickPoint trail;
  match c with
  | None => Ok best
  | Some (nearest, pixelDist) =>
      if num_lt pixelDist bestPixelDist
      then Ok (Some nearest, pixelDist, Some trail)
      else Ok best
  end.

(** The bounding box queried around the pixel of the click. *)
Definition snapBbox (pixel : Pixel) : (num * num) * (num * num) :=
  ((num_sub (x pixel) SNAP_PIXEL_RADIUS, num_sub (y pixel) SNAP_PIXEL_RADIUS),
   (num_add (x pixel) SNAP_PIXEL_RADIUS, num_add (y pixel) SNAP_PIXEL_RADIUS)).

Definition snapToTrail (W : World) (coord : JsCoord) : result SnapResult :=
  match turf W with
  | None => Ok (unsnapped coord)
  | Some _ =>
      pixel ← project W coord;
      let bbox := snapBbox pixel in
      trails ← queryRenderedFeatures W bbox;
      if len trails =? 0 then Ok (unsnapped coord)
      else
        clickPoint ← turf_point W coord;
        best ← for_of trails (snapStep W pixel clickPoint)
                 (None, Infinity, None);
        let '(bestPoint, bestPixelDist, bestTrail) := best in
        match bestPoint with
        | Some bestPoint =>
            if num_le bestPixelDist SNAP_PIXEL_RADIUS then
              Ok {| coordinates := nearest_coordinates bestPoint;
                    snapped := true;
                    trailFeature := bestTrail;
                    snap_indexOnLine := Some (nearest_index bestPoint) |}
            else Ok (unsnapped coord)
        | None => Ok (unsnapped coord)
        end
  end.

(** ** Merging two fragments of one trail *)

(** [mergeTrailFragments(featA, featB)], given [featA.geometry.coordinates]
    and [featB.geometry.coordinates]; [None] is [null]. *)
Definition mergeTrailFragments (W : World) (coordsA coordsB : list JsCoord)
    : result (option LineFeature) :=
  if (len coordsA =? 0) || (len coordsB =? 0) then Ok None
  else
    let aEnd := get coordsA (len coordsA - 1) in
    let bStart := get coordsB 0 in
    let bEnd := get coordsB (len coordsB - 1) in
    let aStart := get coordsA 0 in
    (* Try A→B *)
    dAEndBStart ← distMeters W aEnd bStart;
    if num_le dAEndBStart MERGE_GAP_TOLERANCE_METERS then
      Some <$> turf_lineString W (coordsA ++ drop 1 coordsB)
    else
    (* Try A→B(reversed) *)
    dAEndBEnd ← distMeters W aEnd bEnd;
    if num_le dAEndBEnd MERGE_GAP_TOLERANCE_METERS then
      Some <$> turf_lineString W (coordsA ++ drop 1 (reverse coordsB))
    else
    (* Try B→A *)
    dBEndAStart ← distMeters W bEnd aStart;
    if num_le dBEndAStart MERGE_GAP_TOLERANCE_METERS then
      Some <$> turf_lineString W (coordsB ++ drop 1 coordsA)
    else
    (* Try B(reversed)→A *)
    dBStartAStart ← distMeters W bStart aStart;
    if num_le dBStartAStart MERGE_GAP_TOLERANCE_METERS then
      Some <$> turf_lineString W (reverse coordsB ++ drop 1 coordsA)
    else Ok None.

(** ** Connecting two points on different trails *)

(** The extent [tMinLng, tMaxLng, tMinLat, tMaxLat] of a trail. *)
Definition trailExtent (tc : list JsCoord) : result (num * num * num * num) :=
  for_of tc
    (fun c '(tMinLng, tMaxLng, tMinLat, tMaxLat) =>
       c0 ← at0 c;
       let tMinLng := if num_lt c0 tMinLng then c0 else tMinLng in
       let tMaxLng := if num_gt c0 tMaxLng then c0 else tMaxLng in
       c1 ← at1 c;
       let tMinLat := if num_lt c1 tMinLat then c1 else tMinLat in
       let tMaxLat := if num_gt c1 tMaxLat then c1 else tMaxLat in
       Ok (tMinLng, tMaxLng, tMinLat, tMaxLat))
    (Infinity, NegInfinity, Infinity, NegInfinity).

(** [c[0] >= tMinLng - pad && c[0] <= tMaxLng + pad &&
     c[1] >= tMinLat - pad && c[1] <= tMaxLat + pad] with [pad = 0.005] *)
Definition nearExtent (c : JsCoord) (extent : num * num * num * num)
    : result bool :=
  let '(tMinLng, tMaxLng, tMinLat, tMaxLat) := extent in
  let pad := lit_0_005 in
  c0 ← at0 c;
  if num_ge c0 (num_sub tMinLng pad) && num_le c0 (num_add tMaxLng pad) then
    c1 ← at1 c;
    Ok (num_ge c1 (num_sub tMinLat pad) && num_le c1 (num_add tMaxLat pad))
  else Ok false.

(** [SNAP_PIXEL_RADIUS * 2] *)
Definition corridorRadius : num := num_mul SNAP_PIXEL_RADIUS (of_Z 2).

(** One turn of the first loop of [tryConnectTrails] (a single trail that
    passes near both points): [Some r] is [return r], [None] is going on to
    the next trail. *)
Definition singleTrailConnect (W : World) (p1 p2 : Pixel)
    (prevPt currPt : PointFeature) (prevCoord currCoord : JsCoord)
    (trail : Feature) : result (option Segment) :=
  if negb (String.eqb (geometry_type trail) "LineString")
     || (len (geometry_coordinates trail) <? 2) then Ok None
  else
    let tc := geometry_coordinates trail in
    extent ← trailExtent tc;
    prevNear ← nearExtent prevCoord extent;
    currNear ← nearExtent currCoord extent;
    if negb prevNear || negb currNear then Ok None
    else
      line ← turf_lineString W (geometry_coordinates trail);
      nearPrev ← turf_nearestPointOnLine W line prevPt;
      nearCurr ← turf_nearestPointOnLine W line currPt;
      prevPixel ← project W (nearest_coordinates nearPrev);
      currPixel ← project W (nearest_coordinates nearCurr);
      let distPrev := corridorPixelDistance prevPixel p1 in
      let distCurr := corridorPixelDistance currPixel p2 in
      if num_le distPrev corridorRadius && num_le distCurr corridorRadius then
        try_catch
          (let slicedCoords :=
             extractTrailSlice (geometry_coordinates trail)
               prevCoord (nearest_index nearPrev)
               currCoord (nearest_index nearCurr) in
           if 2 <=? len slicedCoords
           then Ok (Some {| coords := slicedCoords; isTrailSnapped := true |})
           else Ok None)
          (Ok None)
      else Ok None.

(** An entry of [prevCandidates] or [currCandidates]:
    [{ trail, nearPoint }].  [trail_key] is the place of the trail in
    [corridorTrails]: [pc.trail === cc.trail] compares two objects of that
    one array, which are the same object when they sit at the same place. *)
Record Candidate : Type := {
  trail_key : nat;
  trail : Feature;
  nearPoint : Nearest;
}.

(** One turn of the loop that collects the trails near each endpoint. *)
Definition collectCandidate (W : World) (p1 p2 : Pixel)
    (prevPt currPt : PointFeature) (keyed : nat * Feature)
    (cands : list Candidate * list Candidate)
    : result (list Candidate * list Candidate) :=
  let '(key, trail) := keyed in
  let '(prevCandidates, currCandidates) := cands in
  if negb (String.eqb (geometry_type trail) "LineString")
     || (len (geometry_coordinates trail) <? 2) then Ok cands
  else
    line ← turf_lineString W (geometry_coordinates trail);
    nearPrev ← turf_nearestPointOnLine W line prevPt;
    nearCurr ← turf_nearestPointOnLine W line currPt;
    prevPixel ← project W (nearest_coordinates nearPrev);
    currPixel ← project W (nearest_coordinates nearCurr);
    let dPrev := corridorPixelDistance prevPixel p1 in
    let dCurr := corridorPixelDistance currPixel p2 in
    let prevCandidates :=
      if num_le dPrev corridorRadius
      then push prevCandidates
             {| trail_key := key; trail := trail; nearPoint := nearPrev |}
      else prevCandidates in
    let currCandidates :=
      if num_le dCurr corridorRadius
      then push currCandidates
             {| trail_key := key; trail := trail; nearPoint := nearCurr |}
      else currCandidates in
    Ok (prevCandidates, currCandidates).

(** The body of the innermost loop of the two-hop search, for the vertex
    [ai] of trail A and the vertex [bi] of trail B. *)
Definition junctionConnect (W : World) (prevCoord currCoord : JsCoord)
    (pc cc : Candidate) (ai bi : Z) : result (option Segment) :=
  let coordsA := geometry_coordinates (trail pc) in
  let coordsB := geometry_coordinates (trail cc) in
  gapM ← distMeters W (get coordsA ai) (get coordsB bi);
  if num_gt gapM MERGE_GAP_TOLERANCE_METERS then Ok None
  else
    try_catch
      (let junctionCoord := get coordsA ai in
       let legA :=
         extractTrailSlice coordsA
           prevCoord (nearest_index (nearPoint pc)) junctionCoord ai in
       let legB :=
         extractTrailSlice coordsB
           junctionCoord bi currCoord (nearest_index (nearPoint cc)) in
       if (2 <=? len legA) && (2 <=? len legB) then
         let stitched := legA ++ drop 1 legB in
         Ok (Some {| coords := stitched; isTrailSnapped := true |})
       else Ok None)
      (Ok None).

(** The two-hop junction search over the collected candidates. *)
Definition twoHopConnect (W : World) (prevCoord currCoord : JsCoord)
    (prevCandidates currCandidates : list Candidate)
    : result (option Segment) :=
  first_return prevCandidates (fun pc =>
    first_return currCandidates (fun cc =>
      if Nat.eqb (trail_key pc) (trail_key cc) then Ok None
      else
        let coordsA := geometry_coordinates (trail pc) in
        let coordsB := geometry_coordinates (trail cc) in
        first_return (indices coordsA) (fun ai =>
          first_return (indices coordsB) (fun bi =>
            junctionConnect W prevCoord currCoord pc cc ai bi)))).

(** The bounding box between the pixels of the two points, padded by the
    snap radius. *)
Definition corridorBbox (p1 p2 : Pixel) : (num * num) * (num * num) :=
  let minX := num_sub (Math_min (x p1) (x p2)) SNAP_PIXEL_RADIUS in
  let minY := num_sub (Math_min (y p1) (y p2)) SNAP_PIXEL_RADIUS in
  let maxX := num_add (Math_max (x p1) (x p2)) SNAP_PIXEL_RADIUS in
  let maxY := num_add (Math_max (y p1) (y p2)) SNAP_PIXEL_RADIUS in
  ((minX, minY), (maxX, maxY)).

(** [tryConnectTrails(prevRef, currRef, prevCoord, currCoord)]; the two refs
    are not read.  [None] is [null]. *)
Definition tryConnectTrails (W : World) (prevRef currRef : TrailRef)
    (prevCoord currCoord : JsCoord) : result (option Segment) :=
  p1 ← project W prevCoord;
  p2 ← project W currCoord;
  corridorTrails ← queryRenderedFeatures W (corridorBbox p1 p2);
  prevPt ← turf_point W prevCoord;
  currPt ← turf_point W currCoord;
  single ←
    first_return corridorTrails
      (singleTrailConnect W p1 p2 prevPt currPt prevCoord currCoord);
  match single with
  | Some r => Ok (Some r)
  | None =>
      cands ←
        for_of (imap (fun key trail => (key, trail)) corridorTrails)
          (collectCandidate W p1 p2 prevPt currPt) ([], []);
      let '(prevCandidates, currCandidates) := cands in
      twoHopConnect W prevCoord currCoord prevCandidates currCandidates
  end.

(** ** The segment between two vertices *)

Definition straightLine (prevCoord currCoord : JsCoord) : Segment :=
  {| coords := [prevCoord; currCoord]; isTrailSnapped := false |}.

(** The body of the [try] block of the "related" case: merge the two
    fragments, slice the merged line between the two points and pin the two
    ends of the slice to the vertex coordinates.  [None] leaves [result] at
    [null]. *)
Definition relatedConnect (W : World) (prevRef currRef : TrailRef)
    (prevCoord currCoord : JsCoord) : result (option Segment) :=
  merged ← mergeTrailFragments W (trailCoords prevRef) (trailCoords currRef);
  match merged with
  | Some merged =>
      t ← the_turf W;
      prevPt ← point t prevCoord;
      currPt ← point t currCoord;
      sliced ← lineSlice t prevPt currPt merged;
      let sc := line_coordinates sliced in
      if 2 <=? len sc then
        let sc := <[0%nat := prevCoord]> sc in
        let sc := <[Z.to_nat (len sc - 1) := currCoord]> sc in
        Ok (Some {| coords := sc; isTrailSnapped := true |})
      else Ok None
  | None => Ok None
  end.

(** [let result = null; if (match === "related") { try { ... } catch { } }]:
    what is thrown inside the block is caught and leaves [result] at
    [null]. *)
Definition relatedAttempt (W : World) (match_ : Match)
    (prevRef currRef : TrailRef) (prevCoord currCoord : JsCoord)
    : result (option Segment) :=
  match match_ with
  | related =>
      try_catch (relatedConnect W prevRef currRef prevCoord currCoord)
        (Ok None)
  | _ => Ok None
  end.

Definition getTrailSegmentBetween (W : World)
    (prevRef currRef : option TrailRef) (prevCoord currCoord : JsCoord)
    : result Segment :=
  match prevRef, currRef with
  | Some prevRef, Some currRef =>
      match_ ← trailsMatch (Some prevRef) (Some currRef);
      match match_ with
      | same =>
          sliced ←
            try_catch
              (let slicedCoords :=
                 extractTrailSlice (trailCoords prevRef)
                   prevCoord (indexOnLine prevRef)
                   currCoord (indexOnLine currRef) in
               if 2 <=? len slicedCoords
               then Ok (Some {| coords := slicedCoords;
                                isTrailSnapped := true |})
               else Ok None)
              (Ok None);
          match sliced with
          | Some r => Ok r
          | None => Ok (straightLine prevCoord currCoord)
          end
      | _ =>
          result ← relatedAttempt W match_ prevRef currRef prevCoord currCoord;
          result ←
            match result with
            | Some r => Ok (Some r)
            | None => tryConnectTrails W prevRef currRef prevCoord currCoord
            end;
          match result with
          | None => Ok (straightLine prevCoord currCoord)
          | Some r =>
              Ok {| coords := coords r; isTrailSnapped := isTrailSnapped r |}
          end
      end
  | _, _ => Ok (straightLine prevCoord currCoord)
  end.

(** ** The drawing session *)

(** The point types ["route"], ["camp"], ["dayhike"], ["rest"]. *)
Inductive PointType : Type := route | camp | dayhike | rest.

Definition is_dayhike (t : PointType) : bool :=
  match t with dayhike => true | _ => false end.

(** An entry of [routeDayhikeSegments]:
    [{ fromVertexIndex, coords, distance }]. *)
Record DayhikeSpur : Type := {
  fromVertexIndex : Z;
  spur_coords : list JsCoord;
  spur_distance : num;
}.

(** The route drawing state: the global variables of the script. *)
Record Session : Type := {
  isDrawingRoute : bool;
  routeCoords : list JsCoord;
  routeSnapped : list bool;
  routeVertexTypes : list PointType;
  routeTrailRefs : list (option TrailRef);
  routeSegments : list Segment;
  routeDayhikeSegments : list DayhikeSpur;
  currentPointType : PointType;
}.

(** [arr[i]] for the other arrays of the session; [None] is [undefined]
    (for [routeTrailRefs], [null] or [undefined]: both are falsy). *)
Definition lookupZ {A} (arr : list A) (i : Z) : option A :=
  if i <? 0 then None else arr !! Z.to_nat i.

(** [routeVertexTypes[i] !== "dayhike"] *)
Definition notDayhikeAt (routeVertexTypes : list PointType) (i : Z) : bool :=
  match lookupZ routeVertexTypes i with
  | Some t => negb (is_dayhike t)
  | None => true
  end.

(** The loop of [findLastMainRouteVertexIndex], with [n] turns left; after
    it, [return 0]. *)
Fixpoint findLastMainRouteVertexIndex_loop (routeVertexTypes : list PointType)
    (n : nat) (i : Z) : Z :=
  match n with
  | O => 0
  | S k =>
      if notDayhikeAt routeVertexTypes i then i
      else findLastMainRouteVertexIndex_loop routeVertexTypes k (i - 1)
  end.

(** [for (let i = upToIndex; i >= 0; i--)] runs at most [upToIndex + 1]
    turns. *)
Definition findLastMainRouteVertexIndex (routeVertexTypes : list PointType)
    (upToIndex : Z) : Z :=
  findLastMainRouteVertexIndex_loop routeVertexTypes
    (Z.to_nat (upToIndex + 1)) upToIndex.

(** [routeCoords.filter((_, i) => routeVertexTypes[i] !== "dayhike")],
    from index [i] on. *)
Fixpoint mainVerticesFrom (routeVertexTypes : list PointType) (i : Z)
    (routeCoords : list JsCoord) : list JsCoord :=
  match routeCoords with
  | [] => []
  | c :: cs =>
      if notDayhikeAt routeVertexTypes i
      then c :: mainVerticesFrom routeVertexTypes (i + 1) cs
      else mainVerticesFrom routeVertexTypes (i + 1) cs
  end.

(** Whether the first coordinate of the next segment is a duplicate of the
    last coordinate so far: neither [dLng > 1e-10] nor [dLat > 1e-10]. *)
Definition isDuplicate (last first : JsCoord) : result bool :=
  l0 ← at0 last;
  f0 ← at0 first;
  let dLng := Math_abs (num_sub l0 f0) in
  l1 ← at1 last;
  f1 ← at1 first;
  let dLat := Math_abs (num_sub l1 f1) in
  Ok (negb (num_gt dLng lit_1e_10 || num_gt dLat lit_1e_10)).

(** One turn of the loop of [buildMainRouteDisplayCoords]: append the
    coordinates [segCoords] of the next segment to [coords]. *)
Definition appendSegment (segCoords : list JsCoord) (coords : list JsCoord)
    : result (list JsCoord) :=
  startJ ←
    (if (0 <? len segCoords) && (0 <? len coords) then
       let last := get coords (len coords - 1) in
       let first := get segCoords 0 in
       dup ← isDuplicate last first;
       Ok (if (dup : bool) then 1 else 0)
     else Ok 1);
  Ok (for_up startJ (len segCoords - 1)
        (fun j coords => push coords (get segCoords j)) coords).

Definition buildMainRouteDisplayCoords (s : Session) : result (list JsCoord) :=
  match routeSegments s with
  | [] =>
      let mainVertices :=
        mainVerticesFrom (routeVertexTypes s) 0 (routeCoords s) in
      Ok (if 0 <? len mainVertices then [get mainVertices 0] else [])
  | seg0 :: segs => for_of (coords <$> segs) appendSegment (coords seg0)
  end.

(** [startRouteDrawing()] *)
Definition startRouteDrawing : Session :=
  {| isDrawingRoute := true;
     routeCoords := [];
     routeSnapped := [];
     routeVertexTypes := [];
     routeTrailRefs := [];
     routeSegments := [];
     routeDayhikeSegments := [];
     currentPointType := route |}.

(** [setActivePointType(pointType)] *)
Definition setActivePointType (pointType : PointType) (s : Session) : Session :=
  {| isDrawingRoute := isDrawingRoute s;
     routeCoords := routeCoords s;
     routeSnapped := routeSnapped s;
     routeVertexTypes := routeVertexTypes s;
     routeTrailRefs := routeTrailRefs s;
     routeSegments := routeSegments s;
     routeDayhikeSegments := routeDayhikeSegments s;
     currentPointType := pointType |}.

(** A click on the map: [e.lngLat.lng], [e.lngLat.lat] and
    [e.originalEvent.shiftKey]. *)
Record ClickEvent : Type := {
  lng : num;
  lat : num;
  shiftKey : bool;
}.

(** The trail ref pushed for a vertex: [null] unless the vertex was
    snapped. *)
Definition trailRefOf (r : SnapResult) : result (option TrailRef) :=
  if snapped r then
    match trailFeature r, snap_indexOnLine r with
    | Some f, Some i =>
        Ok (Some {| trailCoords := geometry_coordinates f;
                    trailId := nullish (feature_id f)
                                 (nullish (feature_osm_id f) JNull);
                    trailName := nullish (feature_name f) JNull;
                    indexOnLine := i |})
    | _, _ => Throw
    end
  else Ok None.

(** The pushes onto [routeCoords], [routeSnapped] and
    [routeVertexTypes]. *)
Definition pushVertex (s : Session) (r : SnapResult) : Session :=
  {| isDrawingRoute := isDrawingRoute s;
     routeCoords := push (routeCoords s) (coordinates r);
     routeSnapped := push (routeSnapped s) (snapped r);
     routeVertexTypes := push (routeVertexTypes s) (currentPointType s);
     routeTrailRefs := routeTrailRefs s;
     routeSegments := routeSegments s;
     routeDayhikeSegments := routeDayhikeSegments s;
     currentPointType := currentPointType s |}.

(** [routeTrailRefs.push(ref)] *)
Definition pushTrailRef (s : Session) (ref : option TrailRef) : Session :=
  {| isDrawingRoute := isDrawingRoute s;
     routeCoords := routeCoords s;
     routeSnapped := routeSnapped s;
     routeVertexTypes := routeVertexTypes s;
     routeTrailRefs := push (routeTrailRefs s) ref;
     routeSegments := routeSegments s;
     routeDayhikeSegments := routeDayhikeSegments s;
     currentPointType := currentPointType s |}.

(** [routeSegments.push(segment)] *)
Definition pushSegment (s : Session) (segment : Segment) : Session :=
  {| isDrawingRoute := isDrawingRoute s;
     routeCoords := routeCoords s;
     routeSnapped := routeSnapped s;
     routeVertexTypes := routeVertexTypes s;
     routeTrailRefs := routeTrailRefs s;
     routeSegments := push (routeSegments s) segment;
     routeDayhikeSegments := routeDayhikeSegments s;
     currentPointType := currentPointType s |}.

(** [routeDayhikeSegments.push(spur)] *)
Definition pushSpur (s : Session) (spur : DayhikeSpur) : Session :=
  {| isDrawingRoute := isDrawingRoute s;
     routeCoords := routeCoords s;
     routeSnapped := routeSnapped s;
     routeVertexTypes := routeVertexTypes s;
     routeTrailRefs := routeTrailRefs s;
     routeSegments := routeSegments s;
     routeDayhikeSegments := push (routeDayhikeSegments s) spur;
     currentPointType := currentPointType s |}.

(** [routeTrailRefs[i]]: [null] and [undefined] are both [None]. *)
Definition refAt (s : Session) (i : Z) : option TrailRef :=
  match lookupZ (routeTrailRefs s) i with
  | Some ref => ref
  | None => None
  end.

(** [handleMapClickForRoute(e)], up to the last write to the session (what
    follows redraws the map and notifies the sidebar).  The session returned
    is the one the handler leaves behind, also when it throws half way. *)
Definition handleMapClickForRoute (W : World) (e : ClickEvent) (s : Session)
    : Session * result unit :=
  if negb (isDrawingRoute s) then (s, Ok ())
  else
    let coord := position (lng e) (lat e) in
    match (if shiftKey e then Ok (unsnapped coord) else snapToTrail W coord) with
    | Throw => (s, Throw)
    | Ok result =>
        let s := pushVertex s result in
        match trailRefOf result with
        | Throw => (s, Throw)
        | Ok ref =>
            let s := pushTrailRef s ref in
            if 2 <=? len (routeCoords s) then
              let currIdx := len (routeCoords s) - 1 in
              let prevIdx := currIdx - 1 in
              if is_dayhike (currentPointType s) then
                let lastMainIdx :=
                  findLastMainRouteVertexIndex (routeVertexTypes s) prevIdx in
                match getTrailSegmentBetween W
                        (refAt s lastMainIdx) (refAt s currIdx)
                        (get (routeCoords s) lastMainIdx)
                        (get (routeCoords s) currIdx) with
                | Throw => (s, Throw)
                | Ok segment =>
                    match (if 2 <=? len (coords segment)
                           then line ← turf_lineString W (coords segment);
                                turf_length W line
                           else Ok (of_Z 0)) with
                    | Throw => (s, Throw)
                    | Ok dist =>
                        (pushSpur s {| fromVertexIndex := lastMainIdx;
                                       spur_coords := coords segment;
                                       spur_distance := dist |}, Ok ())
                    end
                end
              else
                let lastMainIdx :=
                  findLastMainRouteVertexIndex (routeVertexTypes s) prevIdx in
                let fromIdx :=
                  if negb (notDayhikeAt (routeVertexTypes s) prevIdx)
                  then lastMainIdx else prevIdx in
                match getTrailSegmentBetween W
                        (refAt s fromIdx) (refAt s currIdx)
                        (get (routeCoords s) fromIdx)
                        (get (routeCoords s) currIdx) with
                | Throw => (s, Throw)
                | Ok segment => (pushSegment s segment, Ok ())
                end
            else (s, Ok ())
        end
    end.

(** What the user does while drawing: press a hotkey (or a button of the
    point type selector), or click on the map. *)
Inductive Event : Type :=
| SelectPointType (pointType : PointType)
| Click (e : ClickEvent).

Definition handleEvent (W : World) (s : Session) (ev : Event) : Session :=
  match ev with
  | SelectPointType pointType => setActivePointType pointType s
  | Click e => fst (handleMapClickForRoute W e s)
  end.

(** The session after the events [evs], from [startRouteDrawing()] on. *)
Definition runSession (W : World) (evs : list Event) : Session :=
  foldl (handleEvent W) startRouteDrawing evs.

(** ** Redrawing the route in progress *)

(** A GeoJSON geometry: a LineString or a Point. *)
Inductive Geometry : Type :=
| LineString (line : list JsCoord)
| Point (coord : JsCoord).

(** [segment_type]: ["main"] or ["dayhike"]. *)
Inductive SegmentType : Type := segment_main | segment_dayhike.

(** The properties of a feature of the [route-drawing] source: of a line,
    [{ segment_type }]; of a vertex marker,
    [{ snapped, vertex: true, point_type }]. *)
Inductive DrawProperties : Type :=
| LineProperties (segment_type : SegmentType)
| VertexProperties (marker_snapped : bool) (marker_point_type : PointType).

Record DrawFeature : Type := {
  draw_geometry : Geometry;
  draw_properties : DrawProperties;
}.

(** Truthiness of a coordinate handed over as [previewCoord]: a position is
    an array, which is truthy; [undefined] and [null] are not. *)
Definition given (c : JsCoord) : bool :=
  match c with undefined => false | position _ _ => true end.

(** [updateRouteDrawing(previewCoord)]: the features handed to the
    [route-drawing] source of the map (when the map has that source;
    else the function returns before it does anything). *)
Definition updateRouteDrawing (s : Session) (previewCoord : JsCoord)
    : result (list DrawFeature) :=
  let features := [] in
  (* 1. Main route line from trail-snapped segments *)
  mainCoords ← buildMainRouteDisplayCoords s;
  let mainCoords :=
    if given previewCoord && negb (is_dayhike (currentPointType s)) then
      if 1 <=? len mainCoords then push mainCoords previewCoord
      else mainCoords
    else mainCoords in
  let features :=
    if 2 <=? len mainCoords
    then push features {| draw_geometry := LineString mainCoords;
                          draw_properties := LineProperties segment_main |}
    else features in
  (* 2. Dayhike spur lines *)
  let features :=
    foldl (fun features spur =>
             if 2 <=? len (spur_coords spur)
             then push features
                    {| draw_geometry := LineString (spur_coords spur);
                       draw_properties := LineProperties segment_dayhike |}
             else features)
      features (routeDayhikeSegments s) in
  (* 3. Preview spur when in dayhike mode *)
  let features :=
    if given previewCoord && is_dayhike (currentPointType s)
       && (1 <=? len (routeCoords s)) then
      let lastMainIdx :=
        findLastMainRouteVertexIndex (routeVertexTypes s)
          (len (routeCoords s) - 1) in
      push features
        {| draw_geometry :=
             LineString [get (routeCoords s) lastMainIdx; previewCoord];
           draw_properties := LineProperties segment_dayhike |}
    else features in
  (* 4. Vertex markers (placed points only, not preview) *)
  let features :=
    foldl (fun features '(i, coord) =>
             push features
               {| draw_geometry := Point coord;
                  draw_properties :=
                    VertexProperties
                      (default false (routeSnapped s !! i))
                      (default route (routeVertexTypes s !! i)) |})
      features (imap (fun i coord => (i, coord)) (routeCoords s)) in
  Ok features.

(** ** Finishing the route *)

(** The properties of a feature of the trip.  Of the route:
    [{ type: "route", name: "", planned: true, notes: "", vertex_types,
       vertex_snapped, vertex_coords, main_route_distance_mi,
       dayhike_distance_mi }].  Of a dayhike spur:
    [{ type: "dayhike_spur", route_index, name: "" }].  Of a special point:
    [{ type: vtype, point_type: vtype, route_index, route_vertex_index,
       date, name: "", notes: "" }], with [water_nearby: false] and
    [water_notes: ""] besides when [vtype] is ["camp"]; [vtype] is [None]
    when [routeVertexTypes] has no entry for the vertex. *)
Inductive TripProperties : Type :=
| RouteProperties (vertex_types : list PointType) (vertex_snapped : list bool)
    (vertex_coords : list JsCoord)
    (main_route_distance_mi dayhike_distance_mi : num)
| SpurProperties (route_index : Z)
| PointProperties (point_type : option PointType) (route_index : Z)
    (route_vertex_index : Z) (date : string).

(** [{ type: "Feature", geometry, properties }] *)
Record TripFeature : Type := {
  geometry : Geometry;
  properties : TripProperties;
}.

(** [TripManager.currentTrip], when it is not [null]: its features, and
    the dates from [properties.dates.start] to [properties.dates.end] that
    [getTripDateRange] lists (none when either is missing). *)
Record Trip : Type := {
  features : list TripFeature;
  dates : list string;
}.

(** A computation that reads and writes [TripManager.currentTrip] and may
    throw. *)
Definition Mgr (A : Type) : Type := option Trip -> option Trip * result A.

Definition mgr_ret {A} (a : A) : Mgr A := fun trip => (trip, Ok a).
Definition mgr_bind {A B} (m : Mgr A) (f : A -> Mgr B) : Mgr B := fun trip =>
  match m trip with
  | (trip, Ok a) => f a trip
  | (trip, Throw) => (trip, Throw)
  end.
Definition mgr_lift {A} (r : result A) : Mgr A := fun trip => (trip, r).

Declare Scope mgr_scope.
Delimit Scope mgr_scope with mgr.
Notation "x <- m ;; k" := (mgr_bind m (fun x => k))
  (at level 100, m at next level, right associativity) : mgr_scope.
Notation "m ;; k" := (mgr_bind m (fun _ => k))
  (at level 100, right associativity) : mgr_scope.

(** [for (const a of arr) s = body(a, s)] over the trip manager. *)
Fixpoint for_of_mgr {A S} (arr : list A) (body : A -> S -> Mgr S) (s : S)
    : Mgr S :=
  match arr with
  | [] => mgr_ret s
  | a :: arr' => mgr_bind (body a s) (for_of_mgr arr' body)
  end.

(** [TripManager.addFeature(geometry, properties)]: a TypeError when there
    is no current trip; rendering and saving are not modelled. *)
Definition addFeature (geometry : Geometry) (properties : TripProperties)
    : Mgr Z := fun trip =>
  match trip with
  | None => (None, Throw)
  | Some t =>
      let features :=
        push (features t)
          {| geometry := geometry; properties := properties |} in
      let idx := len features - 1 in
      (Some {| features := features; dates := dates t |}, Ok idx)
  end.

(** [getTripDateRange()] *)
Definition getTripDateRange : Mgr (list string) := fun trip =>
  match trip with
  | None => (trip, Ok [])
  | Some t => (trip, Ok (dates t))
  end.

(** [computeMainRouteDistance()] *)
Definition computeMainRouteDistance (W : World) (s : Session) : result num :=
  for_of (routeSegments s)
    (fun seg total =>
       if 2 <=? len (coords seg) then
         line ← turf_lineString W (coords seg);
         d ← turf_length W line;
         Ok (num_add total d)
       else Ok total)
    (of_Z 0).

(** [computeDayhikeDistance()] *)
Definition computeDayhikeDistance (s : Session) : num :=
  foldl (fun total spur => num_add total (num_mul (spur_distance spur) (of_Z 2)))
    (of_Z 0) (routeDayhikeSegments s).

(** [resetRouteDrawing()] *)
Definition resetRouteDrawing : Session :=
  {| isDrawingRoute := false;
     routeCoords := [];
     routeSnapped := [];
     routeVertexTypes := [];
     routeTrailRefs := [];
     routeSegments := [];
     routeDayhikeSegments := [];
     currentPointType := route |}.

(** [tripDates[dateIndex] || ""] *)
Definition dateAt (tripDates : list string) (dateIndex : Z) : string :=
  default EmptyString (lookupZ tripDates dateIndex).

(** One turn of the loop over the vertices: the point feature of a special
    vertex. *)
Definition addPoint (s : Session) (routeIdx : Z) (tripDates : list string)
    (i : Z) (dateIndex : Z) : Mgr Z :=
  let vtype := lookupZ (routeVertexTypes s) i in
  match vtype with
  | Some route => mgr_ret dateIndex
  | _ =>
      let pointGeom := Point (get (routeCoords s) i) in
      let pointDate := dateAt tripDates dateIndex in
      let pointProps := PointProperties vtype routeIdx i pointDate in
      let dateIndex' :=
        match vtype with
        | Some camp => dateIndex + 1
        | Some rest => dateIndex + 1
        | _ => dateIndex
        end in
      (addFeature pointGeom pointProps ;; mgr_ret dateIndex')%mgr
  end.

(** [finishRouteDrawing()] from the route feature to the last point
    feature; it returns [routeIdx]. *)
Definition addRouteFeatures (W : World) (s : Session) : Mgr Z :=
  (mainDisplayCoords <- mgr_lift (buildMainRouteDisplayCoords s) ;;
   let geometry :=
     LineString (if 2 <=? len mainDisplayCoords
                 then mainDisplayCoords else routeCoords s) in
   main <- mgr_lift (computeMainRouteDistance W s) ;;
   let properties :=
     RouteProperties (routeVertexTypes s) (routeSnapped s) (routeCoords s)
       main (computeDayhikeDistance s) in
   routeIdx <- addFeature geometry properties ;;
   for_of_mgr (routeDayhikeSegments s)
     (fun spur _ =>
        if 2 <=? len (spur_coords spur) then
          addFeature (LineString (spur_coords spur)) (SpurProperties routeIdx) ;;
          mgr_ret ()
        else mgr_ret ()) () ;;
   tripDates <- getTripDateRange ;;
   for_of_mgr (indices (routeCoords s)) (addPoint s routeIdx tripDates) 0 ;;
   mgr_ret routeIdx)%mgr.

(** [finishRouteDrawing()]: the session and the trip it leaves behind, and
    whether it threw. *)
Definition finishRouteDrawing (W : World) (s : Session) (trip : option Trip)
    : Session * option Trip * result unit :=
  if len (routeCoords s) <? 2 then (resetRouteDrawing, trip, Ok ())
  else
    match addRouteFeatures W s trip with
    | (trip, Ok routeIdx) => (resetRouteDrawing, trip, Ok ())
    | (trip, Throw) => (s, trip, Throw)
    end.

(** ** Predicates of the statements *)

(** The coordinate sequence [cs] runs from [prevCoord] to [currCoord]: these
    two are its first and its last element. *)
Definition runsBetween (prevCoord currCoord : JsCoord) (cs : list JsCoord)
    : Prop :=
  head cs = Some prevCoord /\ last cs = Some currCoord.

(** What a segment found by a trail-following strategy looks like. *)
Definition trailSegment (prevCoord currCoord : JsCoord) (seg : Segment)
    : Prop :=
  runsBetween prevCoord currCoord (coords seg)
  /\ 2 <= len (coords seg)
  /\ isTrailSnapped seg = true.

(** Neither search of [tryConnectTrails] finds a connection between
    [prevCoord] and [currCoord]: the map and turf answer, the single-trail
    search passes over every trail of the corridor, and no vertex of a trail
    near [prevCoord] makes a junction with a vertex of another trail near
    [currCoord]. *)
Definition noConnection (W : World) (prevCoord currCoord : JsCoord) : Prop :=
  exists p1 p2 corridorTrails prevPt currPt prevCandidates currCandidates,
    project W prevCoord = Ok p1
    /\ project W currCoord = Ok p2
    /\ queryRenderedFeatures W (corridorBbox p1 p2) = Ok corridorTrails
    /\ turf_point W prevCoord = Ok prevPt
    /\ turf_point W currCoord = Ok currPt
    /\ (forall trail, trail ∈ corridorTrails ->
          singleTrailConnect W p1 p2 prevPt currPt prevCoord currCoord trail
          = Ok None)
    /\ for_of (imap (fun key trail => (key, trail)) corridorTrails)
         (collectCandidate W p1 p2 prevPt currPt) ([], [])
       = Ok (prevCandidates, currCandidates)
    /\ (forall pc cc ai bi,
          pc ∈ prevCandidates -> cc ∈ currCandidates ->
          trail_key pc <> trail_key cc ->
          ai ∈ indices (geometry_coordinates (trail pc)) ->
          bi ∈ indices (geometry_coordinates (trail cc)) ->
          junctionConnect W prevCoord currCoord pc cc ai bi = Ok None).

(** No two adjacent coordinates of [cs] are duplicates, as
    [buildMainRouteDisplayCoords] tests it: within [1e-10] on both axes. *)
Definition noAdjacentDuplicates (cs : list JsCoord) : Prop :=
  forall (i : nat) a b,
    cs !! i = Some a -> cs !! S i = Some b -> isDuplicate a b <> Ok true.

(** Each coordinate sequence of [segs] starts with the very coordinate the
    one before it ends with, the first of them with [e]. *)
Fixpoint chainedFrom (e : option JsCoord) (segs : list (list JsCoord)) : Prop :=
  match segs with
  | [] => True
  | sc :: segs' => head sc = e /\ chainedFrom (last sc) segs'
  end.

Definition chained (segs : list (list JsCoord)) : Prop :=
  match segs with
  | [] => True
  | sc :: segs' => chainedFrom (last sc) segs'
  end.

(** The invariant of the loop of [snapToTrail]: the best distance is a
    number; the best point, when there is one, is the nearest point of a
    trail gone through, at that distance; and the best distance is within
    the radius as soon as one candidate gone through is. *)
Definition snapInvariant (W : World) (pixel : Pixel) (clickPoint : PointFeature)
    (seen : list Feature) (best : Best) : Prop :=
  let '(bestPoint, bestPixelDist, bestTrail) := best in
  is_nan bestPixelDist = false
  /\ match bestPoint with
     | None => bestPixelDist = Infinity
     | Some nearest =>
         exists trail, trail ∈ seen /\ bestTrail = Some trail
           /\ snapCandidate W pixel clickPoint trail
              = Ok (Some (nearest, bestPixelDist))
     end
  /\ forall trail nearest pixelDist,
       trail ∈ seen ->
       snapCandidate W pixel clickPoint trail = Ok (Some (nearest, pixelDist)) ->
       num_le pixelDist SNAP_PIXEL_RADIUS = true ->
       num_le bestPixelDist SNAP_PIXEL_RADIUS = true.

(** A coordinate that is there, and a polyline all of whose coordinates
    are. *)
Definition isPosition (c : JsCoord) : Prop := c <> undefined.

Definition wellFormed (cs : list JsCoord) : Prop := Forall isPosition cs.

(** The map and turf answer the calls made on well-formed input: the map
    projects every position and renders LineString trails that are well
    formed; turf makes a point of every position, finds the nearest point of
    a well-formed line of two coordinates or more, and measures the distance
    between two positions. *)
Record answers (W : World) : Prop := {
  answers_project :
    forall c, isPosition c -> project W c <> Throw;
  answers_query :
    forall bbox, exists trails,
      queryRenderedFeatures W bbox = Ok trails
      /\ Forall (fun trail =>
                   geometry_type trail = "LineString"%string ->
                   wellFormed (geometry_coordinates trail)) trails;
  answers_point :
    forall c, isPosition c -> turf_point W c <> Throw;
  answers_nearest :
    forall cs c pt,
      2 <= len cs -> wellFormed cs -> isPosition c ->
      turf_point W c = Ok pt ->
      exists line nearest,
        turf_lineString W cs = Ok line
        /\ turf_nearestPointOnLine W line pt = Ok nearest
        /\ isPosition (nearest_coordinates nearest);
  answers_distance :
    forall a b, isPosition a -> isPosition b -> distMeters W a b <> Throw;
}.

(** The candidates collected come from well-formed trails. *)
Definition candidatesWellFormed (cands : list Candidate * list Candidate)
    : Prop :=
  Forall (fun cand => wellFormed (geometry_coordinates (trail cand))) cands.1
  /\ Forall (fun cand => wellFormed (geometry_coordinates (trail cand))) cands.2.

(** *** Snapping to the nearest trail *)

(** A second invariant of the loop of [snapToTrail]: the best point, when
    there is one, is the nearest point of one of the trails gone through;
    no trail gone through before that one has its nearest point as near
    (less than or equal), and no trail gone through after it has one
    nearer (strictly less).  As long as there is no best point, no
    candidate gone through is nearer than the best distance. *)
Definition nearestSoFar (W : World) (pixel : Pixel) (clickPoint : PointFeature)
    (seen : list Feature) (best : Best) : Prop :=
  let '(bestPoint, bestPixelDist, bestTrail) := best in
  match bestPoint with
  | None =>
      forall trail nearest pixelDist,
        trail ∈ seen ->
        snapCandidate W pixel clickPoint trail = Ok (Some (nearest, pixelDist)) ->
        num_lt pixelDist bestPixelDist = false
  | Some nearest =>
      exists before trail after,
        seen = before ++ trail :: after
        /\ bestTrail = Some trail
        /\ snapCandidate W pixel clickPoint trail
           = Ok (Some (nearest, bestPixelDist))
        /\ (forall trail' nearest' pixelDist',
              trail' ∈ before ->
              snapCandidate W pixel clickPoint trail'
              = Ok (Some (nearest', pixelDist')) ->
              num_le pixelDist' bestPixelDist = false)
        /\ (forall trail' nearest' pixelDist',
              trail' ∈ after ->
              snapCandidate W pixel clickPoint trail'
              = Ok (Some (nearest', pixelDist')) ->
              num_lt pixelDist' bestPixelDist = false)
  end.

(** *** Sessions *)



(** [findLastMainRouteVertexIndex(routeCoords.length - 1)]: the vertex the
    next segment or spur starts from. *)
Definition lastMainVertex (s : Session) : Z :=
  findLastMainRouteVertexIndex (routeVertexTypes s) (len (routeCoords s) - 1).





(** No click of [evs] is snapped: turf is not loaded, or every click has
    the shift key down. *)
Definition freehand (W : World) (evs : list Event) : Prop :=
  turf W = None
  \/ Forall (fun ev => match ev with
                       | Click e => shiftKey e = true
                       | SelectPointType _ => True
                       end) evs.

(** The coordinates clicked, in order. *)
Definition clickCoords (evs : list Event) : list JsCoord :=
  omap (fun ev => match ev with
                  | Click e => Some (position (lng e) (lat e))
                  | SelectPointType _ => None
                  end) evs.

(** The straight segments from each coordinate of [cs] to the next. *)
Fixpoint straightChain (cs : list JsCoord) : list Segment :=
  match cs with
  | a :: (b :: _) as cs' => straightLine a b :: straightChain cs'
  | _ => []
  end.

(** The vertices the main route goes through: the first vertex placed, and
    the vertices after it that are not dayhikes. *)
Definition mainRouteVertices (s : Session) : list JsCoord :=
  take 1 (routeCoords s)
  ++ mainVerticesFrom (routeVertexTypes s) 1 (drop 1 (routeCoords s)).

(** The invariant of a session drawn freehand: no vertex is snapped or has
    a trail ref, and the segments are the straight segments through the
    vertices of the main route. *)
Record shiftDrawn (s : Session) : Prop := {
  shift_drawing : isDrawingRoute s = true;
  shift_types : len (routeVertexTypes s) = len (routeCoords s);
  shift_refs : Forall (fun ref => ref = None) (routeTrailRefs s);
  shift_snapped : Forall (fun b => b = false) (routeSnapped s);
  shift_positions : wellFormed (mainRouteVertices s);
  shift_segments : routeSegments s = straightChain (mainRouteVertices s);
  shift_end :
    routeCoords s <> [] ->
    last (mainRouteVertices s) = Some (get (routeCoords s) (lastMainVertex s));
}.

(** *** The features of a finished route *)

(** Whether a vertex of that type takes a day of the trip: a camp and a
    rest day do. *)
Definition takesDay (t : PointType) : bool :=
  match t with camp | rest => true | _ => false end.

(** The number of camps and rest days among the vertices before the
    vertex [i]. *)
Definition daysBefore (types : list PointType) (i : Z) : Z :=
  len (filter (fun t => takesDay t) (take (Z.to_nat i) types)).

(** The point feature of the vertex [i], when it is not a plain route
    vertex: dated with the day of the trip that the camps and rest days
    before it lead to. *)
Definition pointFeatureAt (s : Session) (routeIdx : Z) (tripDates : list string)
    (i : Z) : option TripFeature :=
  match lookupZ (routeVertexTypes s) i with
  | Some route => None
  | vtype =>
      Some {| geometry := Point (get (routeCoords s) i);
              properties :=
                PointProperties vtype routeIdx i
                  (dateAt tripDates (daysBefore (routeVertexTypes s) i)) |}
  end.

(** The feature of a dayhike spur. *)
Definition spurFeature (routeIdx : Z) (spur : DayhikeSpur) : TripFeature :=
  {| geometry := LineString (spur_coords spur);
     properties := SpurProperties routeIdx |}.

(** Whether the geometry of the feature is a Point. *)
Definition isPoint (f : TripFeature) : bool :=
  match geometry f with Point _ => true | LineString _ => false end.

(** The feature [f] belongs to the route feature at [routeIdx]: it is a
    dayhike spur or a special point whose [route_index] is [routeIdx]. *)
Definition linkedTo (routeIdx : Z) (f : TripFeature) : Prop :=
  match properties f with
  | SpurProperties route_index => route_index = routeIdx
  | PointProperties _ route_index _ _ => route_index = routeIdx
  | RouteProperties _ _ _ _ _ => False
  end.

(** A LineString has two coordinates or more. *)
Definition validLine (g : Geometry) : Prop :=
  match g with
  | LineString line => 2 <= len line
  | Point _ => True
  end.

(** The coordinate of a vertex marker. *)
Definition markerCoord (f : DrawFeature) : option JsCoord :=
  match draw_geometry f with
  | Point coord => Some coord
  | LineString _ => None
  end.

(** *** Corridor connections *)

(** The trail passes near the point [pt], whose pixel is [p]: it is a
    LineString of two coordinates or more, and the nearest point [near]
    that turf finds on it is within the corridor radius of [p] on the
    screen. *)
Definition passesNear (W : World) (p : Pixel) (pt : PointFeature)
    (trail : Feature) (near : Nearest) : Prop :=
  geometry_type trail = "LineString"%string
  /\ 2 <= len (geometry_coordinates trail)
  /\ exists line pixel,
       turf_lineString W (geometry_coordinates trail) = Ok line
       /\ turf_nearestPointOnLine W line pt = Ok near
       /\ project W (nearest_coordinates near) = Ok pixel
       /\ num_le (corridorPixelDistance pixel p) corridorRadius = true.

(** The candidates collected come from the trails gone through, each with
    its place in the corridor and its nearest point. *)
Definition candidatesNear (W : World) (p1 p2 : Pixel)
    (prevPt currPt : PointFeature) (seen : list (nat * Feature))
    (cands : list Candidate * list Candidate) : Prop :=
  Forall (fun cand =>
            (trail_key cand, trail cand) ∈ seen
            /\ passesNear W p1 prevPt (trail cand) (nearPoint cand)) cands.1
  /\ Forall (fun cand =>
               (trail_key cand, trail cand) ∈ seen
               /\ passesNear W p2 currPt (trail cand) (nearPoint cand)) cands.2.

(** *** Spur distances *)


(** ** A flat test world

    A plane on which one unit of longitude or latitude is one pixel and one
    meter: a map and a turf library simple enough to run the engine on
    concrete trails. *)

Module Flat.

(** The position with integer coordinates [(a, b)]. *)
Definition pos (a b : Z) : JsCoord := position (of_Z a) (of_Z b).

Definition project (c : JsCoord) : result Pixel :=
  match c with
  | position lng lat => Ok {| x := lng; y := lat |}
  | undefined => Throw
  end.

(** The straight-line distance between two positions. *)
Definition planarDistance (a b : JsCoord) : result num :=
  pa ← project a;
  pb ← project b;
  Ok (pixelDistance pa pb).

Definition point (c : JsCoord) : result PointFeature :=
  match c with
  | position _ _ => Ok {| point_coordinates := c |}
  | undefined => Throw
  end.

Definition lineString (cs : list JsCoord) : result LineFeature :=
  if len cs <? 2 then Throw else Ok {| line_coordinates := cs |}.

(** The vertex of the line nearest to the point, with the index of the
    segment that starts there (of the last segment, for the last vertex). *)
Definition nearestPointOnLine (line : LineFeature) (pt : PointFeature)
    : result Nearest :=
  best ←
    for_of (imap (fun i c => (Z.min (Z.of_nat i) (len (line_coordinates line) - 2), c))
              (line_coordinates line))
      (fun '(i, c) (best : option (Nearest * num)) =>
         d ← planarDistance c (point_coordinates pt);
         match best with
         | Some (_, dBest) =>
             if num_lt d dBest
             then Ok (Some ({| nearest_coordinates := c;
                               nearest_index := i |}, d))
             else Ok best
         | None =>
             Ok (Some ({| nearest_coordinates := c; nearest_index := i |}, d))
         end)
      None;
  match best with
  | Some (n, _) => Ok n
  | None => Throw
  end.

Definition distance (a b : PointFeature) : result num :=
  planarDistance (point_coordinates a) (point_coordinates b).

(** The whole line. *)
Definition lineSlice (a b : PointFeature) (line : LineFeature)
    : result LineFeature := Ok line.

(** The length of the line, in units of the plane. *)
Fixpoint planarLength (cs : list JsCoord) : result num :=
  match cs with
  | a :: (b :: _) as cs' =>
      d ← planarDistance a b;
      l ← planarLength cs';
      Ok (num_add d l)
  | _ => Ok (of_Z 0)
  end.

Definition turf : Turf :=
  Build_Turf point lineString nearestPointOnLine distance lineSlice
    (fun line => planarLength (line_coordinates line)).

(** The flat world whose map renders the trails [trails]. *)
Definition world (trails : list Feature) : World :=
  Build_World project (fun _ => Ok trails) (Some turf).

(** The same map, before the turf script was loaded. *)
Definition worldWithoutTurf (trails : list Feature) : World :=
  Build_World project (fun _ => Ok trails) None.

(** A LineString trail feature. *)
Definition trailFeatureOf (id : Z) (name : string) (cs : list JsCoord) : Feature :=
  {| geometry_type := "LineString";
     geometry_coordinates := cs;
     feature_id := JNum (of_Z id);
     feature_osm_id := JNull;
     feature_name := JStr name |}.

(** The trail ref of a vertex snapped to that feature at [index]. *)
Definition refOf (f : Feature) (index : Z) : TrailRef :=
  {| trailCoords := geometry_coordinates f;
     trailId := feature_id f;
     trailName := feature_name f;
     indexOnLine := index |}.

(** *** Scenarios *)

(** A trail of twelve vertices, ten units apart, along the axis. *)
Definition ridge : Feature :=
  trailFeatureOf 7 "Ridge" ((fun i => pos (10 * i) 0) <$> seqZ 0 12).

(** Two fragments of one trail (same id, same name) whose nearest ends are
    15 units apart, within the merge tolerance. *)
Definition creekWest : Feature :=
  trailFeatureOf 3 "Creek" [pos 0 0; pos 50 0; pos 100 0].
Definition creekEast : Feature :=
  trailFeatureOf 3 "Creek" [pos 115 0; pos 150 0; pos 200 0].

(** Two fragments of one trail whose ends are 100 units apart or more, and
    a third trail that passes through a point of each. *)
Definition ridgeWest : Feature :=
  trailFeatureOf 7 "Ridge" [pos 0 0; pos 100 0].
Definition ridgeEast : Feature :=
  trailFeatureOf 7 "Ridge" [pos 200 0; pos 300 0].
Definition link : Feature :=
  trailFeatureOf 8 "Link" [pos 90 0; pos 150 5; pos 210 0].

(** Two trails that have nothing in common. *)
Definition northTrail : Feature :=
  trailFeatureOf 11 "North" [pos 0 500; pos 100 500].
Definition southTrail : Feature :=
  trailFeatureOf 12 "South" [pos 0 (-500); pos 100 (-500)].

(** A trail ref whose stored polyline has a hole in the place of its first
    coordinate. *)
Definition brokenRef : TrailRef :=
  {| trailCoords := [undefined; pos 10 0];
     trailId := JNum (of_Z 5);
     trailName := JStr "Broken";
     indexOnLine := 0 |}.

(** A click at [(a, b)] with the shift key down: no snapping. *)
Definition shiftClick (a b : Z) : Event :=
  Click {| lng := of_Z a; lat := of_Z b; shiftKey := true |}.

(** The user presses the hotkey of "dayhike" and clicks twice. *)
Definition dayhikeFirst : list Event :=
  [SelectPointType dayhike; shiftClick 0 0; shiftClick 10 0].

(** Three clicks, the last two in one place (as the two clicks of a
    double click are). *)
Definition doubleClick : list Event :=
  [shiftClick 0 0; shiftClick 10 0; shiftClick 10 0].

(** Three clicks in three places. *)
Definition threeClicks : list Event :=
  [shiftClick 0 0; shiftClick 10 0; shiftClick 20 5].

(** Two fragments of one trail whose nearest ends are exactly 20 units
    apart, and two whose nearest ends are 21 units apart. *)
Definition brookWest : Feature :=
  trailFeatureOf 4 "Brook" [pos 0 0; pos 100 0].
Definition brookEast20 : Feature :=
  trailFeatureOf 4 "Brook" [pos 120 0; pos 200 0].
Definition brookEast21 : Feature :=
  trailFeatureOf 4 "Brook" [pos 121 0; pos 200 0].

(** A session that holds the segments [segs] and nothing else. *)
Definition sessionOf (segs : list Segment) : Session :=
  {| isDrawingRoute := true;
     routeCoords := [];
     routeSnapped := [];
     routeVertexTypes := [];
     routeTrailRefs := [];
     routeSegments := segs;
     routeDayhikeSegments := [];
     currentPointType := route |}.

(** The longitude [n * 1e-11]. *)
Definition drift (n : Z) : JsCoord :=
  position (num_div (of_Z n) (of_Z 100000000000)) (of_Z 0).

(** Two segments, neither with two adjacent coordinates within [1e-10] of
    each other; the second starts [0.9e-10] east of the end of the first and
    goes on to a coordinate [0.9e-10] west of it. *)
Definition driftingSegments : list Segment :=
  [ {| coords := [pos (-1) 0; drift 0]; isTrailSnapped := false |};
    {| coords := [drift 9; drift (-9); pos 1 0]; isTrailSnapped := false |} ].

(** A click at [(a, b)], snapped to the trails the map renders. *)
Definition click (a b : Z) : Event :=
  Click {| lng := of_Z a; lat := of_Z b; shiftKey := false |}.

(** A walk along the ridge trail: a start, a dayhike, a camp, a second
    dayhike off the trail (with the shift key down), a rest day. *)
Definition ridgeWalk : list Event :=
  [click 12 3; SelectPointType dayhike; click 31 (-4);
   SelectPointType camp; click 58 2;
   SelectPointType dayhike; shiftClick 60 40;
   SelectPointType rest; click 101 1].

(** A walk with the shift key down all along; its camp is clicked
    twice. *)
Definition freehandWalk : list Event :=
  [shiftClick 0 0; SelectPointType dayhike; shiftClick 5 5;
   SelectPointType camp; shiftClick 10 0; shiftClick 10 0;
   SelectPointType dayhike; shiftClick 12 7;
   SelectPointType rest; shiftClick 20 0].

(** A trip of three days that holds one feature already. *)
Definition weekend : Trip :=
  {| features :=
       [{| geometry := Point (pos 1 1);
           properties := PointProperties (Some camp) 7 0 "2024-06-30" |}];
     dates := ["2024-07-01"; "2024-07-02"; "2024-07-03"]%string |}.

(** A feature of the trails layer that is not a line, and a line of one
    coordinate. *)
Definition cairn : Feature :=
  {| geometry_type := "Point";
     geometry_coordinates := [];
     feature_id := JNum (of_Z 20);
     feature_osm_id := JNull;
     feature_name := JStr "Cairn" |}.
Definition stub : Feature := trailFeatureOf 21 "Stub" [pos 50 0].

End Flat.

(** * Properties *)

(** ** Comparing numbers *)

Section NumOrder.

Implicit Types (a b d r : num).

Lemma SFcompare_key a b ka kb :
  key a = Some ka -> key b = Some kb ->
  match SFcompare a b with
  | Some Lt => key_lt ka kb
  | Some Eq => ka = kb
  | Some Gt => key_lt kb ka
  | None => False
  end.
Proof.
  unfold key_lt.
  destruct a as [sa|sa| |sa ma ea], b as [sb|sb| |sb mb eb];
    try destruct sa; try destruct sb; cbn; intros Ha Hb;
    simplify_eq; cbn; try lia; try done.
  - destruct (Z.compare_spec ea eb); cbn; try lia.
    change (PosDef.Pos.compare_cont Eq ma mb) with (Pos.compare ma mb).
    destruct (Pos.compare_spec ma mb); cbn; subst; try lia; done.
  - destruct (Z.compare_spec ea eb); cbn; try lia.
    change (PosDef.Pos.compare_cont Eq ma mb) with (Pos.compare ma mb).
    destruct (Pos.compare_spec ma mb); cbn; subst; try lia; done.
Qed.

Lemma num_lt_key a b ka kb :
  key a = Some ka -> key b = Some kb -> num_lt a b = true <-> key_lt ka kb.
Proof.
  intros Ha Hb. pose proof (SFcompare_key a b ka kb Ha Hb) as H.
  unfold num_lt, SFltb, key_lt in *.
  destruct (SFcompare a b) as [[]|]; try done; split; try done; subst; lia.
Qed.

Lemma num_le_key a b ka kb :
  key a = Some ka -> key b = Some kb ->
  num_le a b = true <-> key_lt ka kb \/ ka = kb.
Proof.
  intros Ha Hb. pose proof (SFcompare_key a b ka kb Ha Hb) as H.
  unfold num_le, SFleb, key_lt in *.
  destruct ka as [[??]?], kb as [[??]?]; cbn in *.
  destruct (SFcompare a b) as [[]|]; try done; split; try done;
    intros; try (by left); try (by right); simplify_eq; try lia.
  destruct H0; simplify_eq; lia.
Qed.

Lemma num_eq_key a b ka kb :
  key a = Some ka -> key b = Some kb -> num_eq a b = true <-> ka = kb.
Proof.
  intros Ha Hb. pose proof (SFcompare_key a b ka kb Ha Hb) as H.
  unfold num_eq, SFeqb, key_lt in *.
  destruct ka as [[??]?], kb as [[??]?]; cbn in *.
  destruct (SFcompare a b) as [[]|]; try done; split; try done;
    intros; simplify_eq; lia.
Qed.

Lemma key_None a : key a = None <-> is_nan a = true.
Proof. destruct a as [[]|[]| |[] ? ?]; done. Qed.

Lemma num_lt_nan_l a b : is_nan a = true -> num_lt a b = false.
Proof. by destruct a. Qed.
Lemma num_lt_nan_r a b : is_nan b = true -> num_lt a b = false.
Proof. by destruct a as [[]|[]| |[] ? ?], b. Qed.
Lemma num_le_nan_l a b : is_nan a = true -> num_le a b = false.
Proof. by destruct a. Qed.
Lemma num_le_nan_r a b : is_nan b = true -> num_le a b = false.
Proof. by destruct a as [[]|[]| |[] ? ?], b. Qed.

Lemma num_eq_sym a b : num_eq a b = num_eq b a.
Proof.
  destruct (key a) as [ka|] eqn:Ha; [destruct (key b) as [kb|] eqn:Hb|].
  - apply eq_true_iff_eq. rewrite !(num_eq_key _ _ _ _) by eassumption. naive_solver.
  - apply key_None in Hb. by destruct a as [[]|[]| |[] ? ?], b.
  - apply key_None in Ha. by destruct b as [[]|[]| |[] ? ?], a.
Qed.

(** [d < b] and [b <= r] give [d <= r]. *)
Lemma num_lt_le_trans d b r : num_lt d b = true -> num_le b r = true -> num_le d r = true.
Proof.
  intros H1 H2.
  destruct (key d) as [kd|] eqn:Hd;
    [|by rewrite num_lt_nan_l in H1 by by apply key_None].
  destruct (key b) as [kb|] eqn:Hb;
    [|by rewrite num_lt_nan_r in H1 by by apply key_None].
  destruct (key r) as [kr|] eqn:Hr;
    [|by rewrite num_le_nan_r in H2 by by apply key_None].
  rewrite (num_lt_key _ _ _ _ Hd Hb) in H1. rewrite (num_le_key _ _ _ _ Hb Hr) in H2.
  rewrite (num_le_key _ _ _ _ Hd Hr).
  unfold key_lt in *. destruct kd as [[??]?], kb as [[??]?], kr as [[??]?].
  cbn in *. destruct H2 as [H2|H2]; simplify_eq; lia.
Qed.

(** When [d < b] fails for a number [b], [d <= r] gives [b <= r]. *)
Lemma num_not_lt_le_trans d b r :
  num_lt d b = false -> is_nan b = false -> num_le d r = true -> num_le b r = true.
Proof.
  intros H1 Hn H2.
  destruct (key d) as [kd|] eqn:Hd;
    [|by rewrite num_le_nan_l in H2 by by apply key_None].
  destruct (key b) as [kb|] eqn:Hb;
    [|apply key_None in Hb; congruence].
  destruct (key r) as [kr|] eqn:Hr;
    [|by rewrite num_le_nan_r in H2 by by apply key_None].
  apply not_true_iff_false in H1.
  rewrite (num_lt_key _ _ _ _ Hd Hb) in H1. rewrite (num_le_key _ _ _ _ Hd Hr) in H2.
  rewrite (num_le_key _ _ _ _ Hb Hr).
  unfold key_lt in *. destruct kd as [[d1 d2] d3], kb as [[b1 b2] b3], kr as [[r1 r2] r3].
  cbn in *.
  destruct (Z.lt_total b1 r1) as [?|[?|?]]; [lia| |destruct H2; simplify_eq; lia].
  destruct (Z.lt_total b2 r2) as [?|[?|?]]; [lia| |destruct H2; simplify_eq; lia].
  destruct (Z.lt_total b3 r3) as [?|[?|?]]; [lia| |destruct H2; simplify_eq; lia].
  right. by subst.
Qed.

End NumOrder.

Section Slices.

Implicit Types (trail coords : list JsCoord) (i j : Z).

Lemma iter_up_push trail n i coords :
  iter_up n i (fun i coords => push coords (get trail i)) coords
  = coords ++ (get trail <$> seqZ i (Z.of_nat n)).
Proof.
  revert i coords; induction n as [|n IH]; intros i coords.
  - by rewrite app_nil_r.
  - cbn [iter_up]. rewrite IH. unfold push.
    rewrite Nat2Z.inj_succ, (seqZ_cons i) by lia.
    rewrite <- app_assoc, Z.pred_succ. cbn.
    by replace (Z.succ i) with (i + 1) by lia.
Qed.

Lemma iter_down_push trail n i coords :
  iter_down n i (fun i coords => push coords (get trail i)) coords
  = coords ++ (get trail <$> reverse (seqZ (i + 1 - Z.of_nat n) (Z.of_nat n))).
Proof.
  revert i coords; induction n as [|n IH]; intros i coords.
  - by rewrite app_nil_r.
  - cbn [iter_down]. rewrite IH. unfold push.
    rewrite <- app_assoc. f_equal.
    rewrite (seqZ_S _ n), reverse_app. cbn.
    replace (i + 1 - Z.of_nat (S n) + Z.of_nat n) with i by lia.
    by replace (i - 1 + 1 - Z.of_nat n) with (i + 1 - Z.of_nat (S n)) by lia.
Qed.

(** The slice, written as one list. *)
Lemma extractTrailSlice_forward trail a i b j :
  i <= j ->
  extractTrailSlice trail a i b j
  = a :: (get trail <$> seqZ (i + 1) (j - i)) ++ [b].
Proof.
  intros Hij. unfold extractTrailSlice, for_up.
  rewrite (proj2 (Z.leb_le _ _)) by done.
  rewrite iter_up_push. unfold push. cbn.
  by rewrite Z2Nat.id by lia; replace (j + 1 - (i + 1)) with (j - i) by lia.
Qed.

Lemma extractTrailSlice_backward trail a i b j :
  j < i ->
  extractTrailSlice trail a i b j
  = a :: (get trail <$> reverse (seqZ (j + 1) (i - j))) ++ [b].
Proof.
  intros Hij. unfold extractTrailSlice, for_down.
  rewrite (proj2 (Z.leb_gt _ _)) by done.
  rewrite iter_down_push. unfold push. cbn.
  by rewrite Z2Nat.id by lia; replace (i + 1 - (i - j)) with (j + 1) by lia.
Qed.

(** The number of coordinates of a slice. *)
Lemma extractTrailSlice_len trail a i b j :
  len (extractTrailSlice trail a i b j) = Z.abs (i - j) + 2.
Proof.
  unfold len. destruct (Z.le_gt_cases i j) as [Hle|Hgt].
  - rewrite extractTrailSlice_forward by done. cbn.
    rewrite length_app, length_fmap, length_seqZ. cbn. lia.
  - rewrite extractTrailSlice_backward by done. cbn.
    rewrite length_app, length_fmap, length_reverse, length_seqZ. cbn. lia.
Qed.

End Slices.

(** ** The index-based slice *)

Section SliceClaims.

Implicit Types (line : list JsCoord) (A B : JsCoord) (idxA idxB : Z).

(** C10.  For every polyline and every pair of parametric indices
    (in range or not), [extractTrailSlice] returns exactly
    [|startIdx - endIdx| + 2] coordinates, hence at least 2, also when the
    two indices are equal. *)
Theorem extractTrailSlice_length line A idxA B idxB :
  len (extractTrailSlice line A idxA B idxB) = Z.abs (idxA - idxB) + 2
  /\ 2 <= len (extractTrailSlice line A idxA B idxB).
Proof.
  assert (len (extractTrailSlice line A idxA B idxB)
          = Z.abs (idxA - idxB) + 2) as E.
  { unfold len. destruct (Z.le_gt_cases idxA idxB) as [Hle|Hgt].
    - rewrite extractTrailSlice_forward by done. cbn.
      rewrite length_app, length_fmap, length_seqZ. cbn. lia.
    - rewrite extractTrailSlice_backward by done. cbn.
      rewrite length_app, length_fmap, length_reverse, length_seqZ. cbn. lia. }
  split; [done | lia].
Qed.

(** C3.  Extraction symmetry: the slice from A to B, reversed coordinate
    for coordinate, is the slice from B to A. *)
Theorem extractTrailSlice_reverse line A idxA B idxB :
  reverse (extractTrailSlice line A idxA B idxB)
  = extractTrailSlice line B idxB A idxA.
Proof.
  destruct (Z.lt_total idxA idxB) as [Hlt|[->|Hgt]].
  - rewrite extractTrailSlice_forward, extractTrailSlice_backward by lia.
    rewrite reverse_cons, reverse_app, <- fmap_reverse. done.
  - rewrite !extractTrailSlice_forward by lia.
    by rewrite Z.sub_diag.
  - rewrite extractTrailSlice_backward, extractTrailSlice_forward by lia.
    rewrite reverse_cons, reverse_app, <- fmap_reverse, reverse_involutive.
    done.
Qed.

End SliceClaims.

(** ** Trail identity *)

Section TrailIdentity.

Lemma same_position_sym (a b : JsCoord) : same_position a b = same_position b a.
Proof.
  destruct a as [|a0 a1], b as [|b0 b1]; cbn; try done.
  rewrite (num_eq_sym b0 a0). destruct (num_eq a0 b0); [|done].
  by rewrite (num_eq_sym b1 a1).
Qed.

Lemma strict_eq_sym (v w : JsVal) : strict_eq v w = strict_eq w v.
Proof.
  destruct v, w; cbn; try done.
  - apply num_eq_sym.
  - apply String.eqb_sym.
Qed.

(** C9.  The trail-identity classification is symmetric: for every pair of
    non-null trail refs A and B, [trailsMatch(A, B)] and [trailsMatch(B, A)]
    give the same answer ("same", "related" or false), and one throws
    exactly when the other does. *)
Theorem trailsMatch_sym (refA refB : TrailRef) :
  trailsMatch (Some refA) (Some refB) = trailsMatch (Some refB) (Some refA).
Proof.
  unfold trailsMatch.
  rewrite (Z.eqb_sym (len (trailCoords refB))).
  rewrite (andb_comm (0 <? len (trailCoords refB))).
  rewrite (same_position_sym (get (trailCoords refB) 0)).
  rewrite (same_position_sym (get (trailCoords refB) (len (trailCoords refB) - 1))).
  rewrite (strict_eq_sym (trailId refB)), (strict_eq_sym (trailName refB)).
  rewrite (andb_comm (truthy (trailId refB))).
  rewrite (andb_comm (truthy (trailName refB))).
  done.
Qed.

End TrailIdentity.


(** ** Loops *)

Section LoopFacts.

Context {A S R : Type}.

(** An invariant of the elements gone through so far holds after the
    loop. *)
Lemma for_of_invariant (body : A -> S -> result S) (P : list A -> S -> Prop) :
  (forall seen a s s', P seen s -> body a s = Ok s' -> P (seen ++ [a]) s') ->
  forall arr seen s s',
    P seen s -> for_of arr body s = Ok s' -> P (seen ++ arr) s'.
Proof.
  intros Hstep arr. induction arr as [|a arr IH]; intros seen s s' HP Hrun.
  - cbn in Hrun. rewrite app_nil_r. by simplify_eq.
  - cbn in Hrun. destruct (body a s) as [s1|] eqn:Hbody; [|done].
    cbn in Hrun. rewrite cons_middle, app_assoc.
    eapply IH; [|done]. by eapply Hstep.
Qed.

(** What a loop returns, one of its turns returned. *)
Lemma first_return_Some (body : A -> result (option R)) arr v :
  first_return arr body = Ok (Some v) ->
  exists a, a ∈ arr /\ body a = Ok (Some v).
Proof.
  induction arr as [|a arr IH]; cbn; [done|].
  destruct (body a) as [[w|]|] eqn:Hbody; cbn; [| |done].
  - intros [= ->]. exists a. split; [left|done].
  - intros (a' & Hin & Ha')%IH. exists a'. split; [by right|done].
Qed.

(** A loop none of whose turns returns or throws runs to its end. *)
Lemma first_return_None (body : A -> result (option R)) arr :
  (forall a, a ∈ arr -> body a = Ok None) ->
  first_return arr body = Ok None.
Proof.
  induction arr as [|a arr IH]; cbn; [done|]. intros Hall.
  rewrite (Hall a) by left. cbn. apply IH. intros a' Ha'. apply Hall. by right.
Qed.

End LoopFacts.

(** ** Snapping *)

Section Snapping.

Context (W : World).

Lemma snapStep_invariant pixel clickPoint seen trail best best' :
  snapInvariant W pixel clickPoint seen best ->
  snapStep W pixel clickPoint trail best = Ok best' ->
  snapInvariant W pixel clickPoint (seen ++ [trail]) best'.
Proof.
  destruct best as [[bestPoint bestPixelDist] bestTrail].
  intros (Hnan & Hbest & Hmin). unfold snapStep.
  destruct (snapCandidate W pixel clickPoint trail) as [[[n d]|]|] eqn:Hc;
    cbn; [| |done].
  - destruct (num_lt d bestPixelDist) eqn:Hlt; intros [= <-]; cbn.
    + split; [|split].
      * destruct (is_nan d) eqn:Hd; [|done]. by rewrite num_lt_nan_l in Hlt.
      * exists trail. split; [|done].
        apply elem_of_app. right. by apply list_elem_of_singleton.
      * intros t n' d' [Ht| ->%list_elem_of_singleton]%elem_of_app Hcand Hle.
        -- eapply num_lt_le_trans; [done|]. by eapply Hmin.
        -- rewrite Hc in Hcand. by simplify_eq.
    + split; [done|split].
      * destruct bestPoint as [nearest|]; [|done].
        destruct Hbest as (t & Ht & ? & ?). exists t. split; [|done].
        apply elem_of_app. by left.
      * intros t n' d' [Ht| ->%list_elem_of_singleton]%elem_of_app Hcand Hle.
        -- by eapply Hmin.
        -- rewrite Hc in Hcand. simplify_eq. by eapply num_not_lt_le_trans.
  - intros [= <-]. split; [done|split].
    + destruct bestPoint as [nearest|]; [|done].
      destruct Hbest as (t & Ht & ? & ?). exists t. split; [|done].
        apply elem_of_app. by left.
    + intros t n' d' [Ht| ->%list_elem_of_singleton]%elem_of_app Hcand Hle.
      * by eapply Hmin.
      * rewrite Hc in Hcand. by simplify_eq.
Qed.

Lemma snapCandidate_distance pixel clickPoint trail nearest pixelDist :
  snapCandidate W pixel clickPoint trail = Ok (Some (nearest, pixelDist)) ->
  exists snappedPixel,
    project W (nearest_coordinates nearest) = Ok snappedPixel
    /\ pixelDist = pixelDistance snappedPixel pixel.
Proof.
  unfold snapCandidate.
  destruct (negb _); [done|]. destruct (_ <? 2); [done|].
  destruct (turf_lineString W _) as [line|]; cbn; [|done].
  destruct (turf_nearestPointOnLine W line clickPoint) as [n|]; cbn; [|done].
  destruct (project W (nearest_coordinates n)) as [sp|] eqn:Hsp; cbn; [|done].
  intros [= -> <-]. by exists sp.
Qed.

(** C4.  Radius bound.  Whenever [snapToTrail] returns: if [snapped] is true,
    the pixel distance between the query point and the returned point is at
    most [SNAP_PIXEL_RADIUS]; if [snapped] is false, the returned
    coordinates are the query coordinate unchanged and no candidate of the
    queried set has its nearest point within that pixel radius.  The
    candidates are the queried LineString features of two coordinates or
    more, and the nearest point of a candidate is the one turf computes
    (when turf is not loaded nothing is queried and there is none). *)
Theorem snapToTrail_radius (coord : JsCoord) (r : SnapResult) :
  snapToTrail W coord = Ok r ->
  (snapped r = true ->
     exists pixel snappedPixel,
       project W coord = Ok pixel
       /\ project W (coordinates r) = Ok snappedPixel
       /\ num_le (pixelDistance snappedPixel pixel) SNAP_PIXEL_RADIUS = true)
  /\ (snapped r = false ->
      coordinates r = coord
      /\ forall pixel trails clickPoint trail nearest pixelDist,
           project W coord = Ok pixel ->
           queryRenderedFeatures W (snapBbox pixel) = Ok trails ->
           turf_point W coord = Ok clickPoint ->
           trail ∈ trails ->
           snapCandidate W pixel clickPoint trail
           = Ok (Some (nearest, pixelDist)) ->
           num_le pixelDist SNAP_PIXEL_RADIUS = false).
Proof.
  unfold snapToTrail. destruct (turf W) as [t|] eqn:Hturf.
  2:{ intros [= <-]. split; [done|]. intros _. split; [done|].
      intros pixel trails clickPoint trail nearest pixelDist _ _ Hpt.
      unfold turf_point, the_turf in Hpt. by rewrite Hturf in Hpt. }
  destruct (project W coord) as [pixel|] eqn:Hpixel; cbn; [|done].
  destruct (queryRenderedFeatures W (snapBbox pixel)) as [trails|] eqn:Hq;
    cbn; [|done].
  destruct (len trails =? 0) eqn:Hlen.
  { intros [= <-]. split; [done|]. intros _. split; [done|].
    intros ? trails' ? trail ? ? [= <-] Hq' _ Hin.
    rewrite Hq in Hq'. simplify_eq.
    destruct trails'; [by apply elem_of_nil in Hin|].
    apply Z.eqb_eq in Hlen. unfold len in Hlen. cbn in Hlen. lia. }
  destruct (turf_point W coord) as [clickPoint|] eqn:Hpt; cbn; [|done].
  destruct (for_of trails (snapStep W pixel clickPoint) (None, Infinity, None))
    as [[[bestPoint bestPixelDist] bestTrail]|] eqn:Hloop; cbn; [|done].
  apply (for_of_invariant _ (snapInvariant W pixel clickPoint)
           (snapStep_invariant pixel clickPoint) trails [])
    in Hloop;
    [|repeat split; by intros ? ? ? ?%elem_of_nil].
  destruct Hloop as (Hnan & Hbest & Hmin). rewrite app_nil_l in *.
  assert (forall trail nearest pixelDist,
    num_le bestPixelDist SNAP_PIXEL_RADIUS = false ->
    trail ∈ trails ->
    snapCandidate W pixel clickPoint trail = Ok (Some (nearest, pixelDist)) ->
    num_le pixelDist SNAP_PIXEL_RADIUS = false) as Hfar.
  { intros trail nearest pixelDist Hbd Hin Hcand.
    destruct (num_le pixelDist SNAP_PIXEL_RADIUS) eqn:Hle; [|done].
    rewrite (Hmin _ _ _ Hin Hcand Hle) in Hbd. done. }
  destruct bestPoint as [nearest|].
  - destruct Hbest as (trail & Hin & -> & Hcand).
    destruct (num_le bestPixelDist SNAP_PIXEL_RADIUS) eqn:Hle; intros [= <-]; cbn.
    + split; [|done]. intros _.
      apply snapCandidate_distance in Hcand as (sp & Hsp & ->).
      by exists pixel, sp.
    + split; [done|]. intros _. split; [done|].
      intros ? ? ? trail' ? ? [= <-] Hq' [= <-].
      rewrite Hq in Hq'. simplify_eq. by apply Hfar.
  - subst bestPixelDist. intros [= <-]; cbn. split; [done|].
    intros _. split; [done|].
    intros ? ? ? trail' ? ? [= <-] Hq' [= <-].
    rewrite Hq in Hq'. simplify_eq. by apply Hfar.
Qed.

End Snapping.


(** ** Segments run from vertex to vertex *)

Section Endpoints.

Context (W : World).

Implicit Types (prevCoord currCoord : JsCoord) (seg : Segment).

Lemma extractTrailSlice_shape trail a i b j :
  exists middle, extractTrailSlice trail a i b j = a :: middle ++ [b].
Proof.
  destruct (Z.le_gt_cases i j).
  - eexists. by apply extractTrailSlice_forward.
  - eexists. by apply extractTrailSlice_backward.
Qed.

Lemma runsBetween_cons_snoc a b middle : runsBetween a b (a :: middle ++ [b]).
Proof. split; [done|]. by rewrite app_comm_cons, last_snoc. Qed.

Lemma extractTrailSlice_runsBetween trail a i b j :
  runsBetween a b (extractTrailSlice trail a i b j).
Proof.
  destruct (extractTrailSlice_shape trail a i b j) as [middle ->].
  apply runsBetween_cons_snoc.
Qed.

(** Two legs that meet at a junction, stitched. *)
Lemma stitched_runsBetween trailA trailB a i junction ai bi b j :
  runsBetween a b
    (extractTrailSlice trailA a i junction ai
     ++ drop 1 (extractTrailSlice trailB junction bi b j)).
Proof.
  destruct (extractTrailSlice_shape trailA a i junction ai) as [mA ->].
  destruct (extractTrailSlice_shape trailB junction bi b j) as [mB ->].
  split; [done|].
  rewrite last_app. change (drop 1 (junction :: mB ++ [b])) with (mB ++ [b]).
  by rewrite last_snoc.
Qed.

(** A slice whose two ends were overwritten. *)
Lemma pinned_runsBetween a b (sc : list JsCoord) :
  2 <= len sc ->
  runsBetween a b
    (<[Z.to_nat (len (<[0%nat := a]> sc) - 1) := b]> (<[0%nat := a]> sc)).
Proof.
  unfold len. rewrite length_insert. intros Hlen. split.
  - rewrite head_lookup, list_lookup_insert_ne by lia.
    apply list_lookup_insert_eq. lia.
  - rewrite last_lookup, length_insert, length_insert.
    replace (Z.to_nat (Z.of_nat (length sc) - 1)) with (pred (length sc)) by lia.
    apply list_lookup_insert_eq. rewrite length_insert. lia.
Qed.

Lemma singleTrailConnect_Some p1 p2 prevPt currPt prevCoord currCoord trail seg :
  singleTrailConnect W p1 p2 prevPt currPt prevCoord currCoord trail
  = Ok (Some seg) ->
  trailSegment prevCoord currCoord seg.
Proof.
  unfold singleTrailConnect.
  destruct (_ || _); [done|].
  destruct (trailExtent _) as [extent|]; cbn; [|done].
  destruct (nearExtent prevCoord extent) as [prevNear|]; cbn; [|done].
  destruct (nearExtent currCoord extent) as [currNear|]; cbn; [|done].
  destruct (_ || _); [done|].
  destruct (turf_lineString W _) as [line|]; cbn; [|done].
  destruct (turf_nearestPointOnLine W line prevPt) as [nearPrev|]; cbn; [|done].
  destruct (turf_nearestPointOnLine W line currPt) as [nearCurr|]; cbn; [|done].
  destruct (project W (nearest_coordinates nearPrev)); cbn; [|done].
  destruct (project W (nearest_coordinates nearCurr)); cbn; [|done].
  destruct (_ && _); [|done].
  destruct (2 <=? _) eqn:Hlen; cbn; [|done].
  intros [= <-]. split; [apply extractTrailSlice_runsBetween|].
  split; [|done]. by apply Z.leb_le.
Qed.

Lemma junctionConnect_Some prevCoord currCoord pc cc ai bi seg :
  junctionConnect W prevCoord currCoord pc cc ai bi = Ok (Some seg) ->
  trailSegment prevCoord currCoord seg.
Proof.
  unfold junctionConnect.
  destruct (distMeters W _ _) as [gapM|]; cbn; [|done].
  destruct (num_gt gapM _); [done|].
  destruct (_ && _) eqn:Hlen; cbn; [|done].
  intros [= <-]. split; [apply stitched_runsBetween|].
  split; [|done]. cbn.
  apply andb_true_iff in Hlen as [HA%Z.leb_le _].
  unfold len in *. rewrite length_app. lia.
Qed.

Lemma twoHopConnect_Some prevCoord currCoord prevCandidates currCandidates seg :
  twoHopConnect W prevCoord currCoord prevCandidates currCandidates
  = Ok (Some seg) ->
  trailSegment prevCoord currCoord seg.
Proof.
  unfold twoHopConnect.
  intros (pc & _ & Hpc)%first_return_Some.
  apply first_return_Some in Hpc as (cc & _ & Hcc).
  destruct (Nat.eqb _ _); [done|].
  apply first_return_Some in Hcc as (ai & _ & Hai).
  apply first_return_Some in Hai as (bi & _ & Hbi).
  by eapply junctionConnect_Some.
Qed.

Lemma tryConnectTrails_Some prevRef currRef prevCoord currCoord seg :
  tryConnectTrails W prevRef currRef prevCoord currCoord = Ok (Some seg) ->
  trailSegment prevCoord currCoord seg.
Proof.
  unfold tryConnectTrails.
  destruct (project W prevCoord) as [p1|]; cbn; [|done].
  destruct (project W currCoord) as [p2|]; cbn; [|done].
  destruct (queryRenderedFeatures W _) as [corridorTrails|]; cbn; [|done].
  destruct (turf_point W prevCoord) as [prevPt|]; cbn; [|done].
  destruct (turf_point W currCoord) as [currPt|]; cbn; [|done].
  destruct (first_return corridorTrails _) as [[r|]|] eqn:Hsingle; cbn;
    [| |done].
  - intros [= <-].
    apply first_return_Some in Hsingle as (trail & _ & Htrail).
    by eapply singleTrailConnect_Some.
  - destruct (for_of _ _ _) as [[prevCandidates currCandidates]|]; cbn; [|done].
    apply twoHopConnect_Some.
Qed.

Lemma relatedConnect_Some prevRef currRef prevCoord currCoord seg :
  relatedConnect W prevRef currRef prevCoord currCoord = Ok (Some seg) ->
  trailSegment prevCoord currCoord seg.
Proof.
  unfold relatedConnect.
  destruct (mergeTrailFragments W _ _) as [[merged|]|]; cbn; [| done | done].
  destruct (the_turf W) as [t|]; cbn; [|done].
  destruct (point t prevCoord) as [prevPt|]; cbn; [|done].
  destruct (point t currCoord) as [currPt|]; cbn; [|done].
  destruct (lineSlice t prevPt currPt merged) as [sliced|]; cbn; [|done].
  destruct (2 <=? _) eqn:Hlen; [|done]. apply Z.leb_le in Hlen.
  intros [= <-]. split; [by apply pinned_runsBetween|].
  split; [|done]. cbn. unfold len in *. rewrite !length_insert. lia.
Qed.

Lemma relatedAttempt_Some m prevRef currRef prevCoord currCoord seg :
  relatedAttempt W m prevRef currRef prevCoord currCoord = Ok (Some seg) ->
  trailSegment prevCoord currCoord seg.
Proof.
  unfold relatedAttempt, try_catch. destruct m; try done.
  destruct (relatedConnect W _ _ _ _) as [[r|]|] eqn:Hr; try done.
  intros [= <-]. by eapply relatedConnect_Some.
Qed.

(** What is thrown while merging and slicing two related fragments is
    caught. *)
Lemma relatedAttempt_returns m prevRef currRef prevCoord currCoord :
  relatedAttempt W m prevRef currRef prevCoord currCoord <> Throw.
Proof.
  unfold relatedAttempt, try_catch. destruct m; try done.
  by destruct (relatedConnect W _ _ _ _).
Qed.

Lemma straightLine_runsBetween prevCoord currCoord :
  runsBetween prevCoord currCoord (coords (straightLine prevCoord currCoord)).
Proof. done. Qed.

(** Every segment [getTrailSegmentBetween] returns is either the straight
    line or a trail segment between the two vertices. *)
Lemma getTrailSegmentBetween_cases prevRef currRef prevCoord currCoord seg :
  getTrailSegmentBetween W prevRef currRef prevCoord currCoord = Ok seg ->
  seg = straightLine prevCoord currCoord
  \/ trailSegment prevCoord currCoord seg.
Proof.
  unfold getTrailSegmentBetween.
  destruct prevRef as [prevRef|], currRef as [currRef|];
    try (intros [= <-]; by left).
  destruct (trailsMatch _ _) as [m|]; cbn; [|done].
  assert (forall r : option Segment,
    match r with
    | Some r => trailSegment prevCoord currCoord r
    | None => True
    end ->
    match r with
    | Some r => Ok {| coords := coords r; isTrailSnapped := isTrailSnapped r |}
    | None => Ok (straightLine prevCoord currCoord)
    end = Ok seg ->
    seg = straightLine prevCoord currCoord
    \/ trailSegment prevCoord currCoord seg) as Hfinal.
  { intros [r|] Hr [= <-]; [right|by left]. by destruct r. }
  assert (forall m',
    (r ← relatedAttempt W m' prevRef currRef prevCoord currCoord;
     r' ← match r with
          | Some r => Ok (Some r)
          | None => tryConnectTrails W prevRef currRef prevCoord currCoord
          end;
     match r' with
     | Some r => Ok {| coords := coords r; isTrailSnapped := isTrailSnapped r |}
     | None => Ok (straightLine prevCoord currCoord)
     end) = Ok seg ->
    seg = straightLine prevCoord currCoord
    \/ trailSegment prevCoord currCoord seg) as Hother.
  { intros m'.
    destruct (relatedAttempt W m' _ _ _ _) as [[r|]|] eqn:Hrel; cbn; [| |done].
    - apply (Hfinal (Some r)). by eapply relatedAttempt_Some.
    - destruct (tryConnectTrails W _ _ _ _) as [[r|]|] eqn:Htry; cbn; [| |done].
      + apply (Hfinal (Some r)). by eapply tryConnectTrails_Some.
      + by apply (Hfinal None). }
  destruct m; [|apply Hother..].
  unfold try_catch. destruct (2 <=? _) eqn:Hlen; cbn; intros [= <-].
  - right. split; [apply extractTrailSlice_runsBetween|].
    split; [|done]. by apply Z.leb_le.
  - by left.
Qed.

(** C1.  Whatever strategy produced it (same-trail index slice, fragment
    merge plus slice, corridor connect, two-hop stitch or straight-line
    fallback), the segment [getTrailSegmentBetween] returns has [prevCoord]
    itself as its first coordinate and [currCoord] itself as its last. *)
Theorem getTrailSegmentBetween_endpoints
    prevRef currRef prevCoord currCoord seg :
  getTrailSegmentBetween W prevRef currRef prevCoord currCoord = Ok seg ->
  head (coords seg) = Some prevCoord /\ last (coords seg) = Some currCoord.
Proof.
  intros [->|[Hruns _]]%getTrailSegmentBetween_cases; [|done].
  apply straightLine_runsBetween.
Qed.

End Endpoints.


(** ** Fallbacks *)

Section Fallbacks.

Context (W : World).

Implicit Types (prevRef currRef : TrailRef) (prevCoord currCoord : JsCoord).

(** What [getTrailSegmentBetween] does with two refs that are not the same
    trail. *)
Lemma getTrailSegmentBetween_not_same prevRef currRef prevCoord currCoord m :
  trailsMatch (Some prevRef) (Some currRef) = Ok m ->
  m <> same ->
  getTrailSegmentBetween W (Some prevRef) (Some currRef) prevCoord currCoord
  = (r ← relatedAttempt W m prevRef currRef prevCoord currCoord;
     r ← match r with
         | Some r => Ok (Some r)
         | None => tryConnectTrails W prevRef currRef prevCoord currCoord
         end;
     Ok (default (straightLine prevCoord currCoord) r)).
Proof.
  intros Hm Hsame. unfold getTrailSegmentBetween. rewrite Hm. cbn.
  destruct m; [done| |];
    (destruct (relatedAttempt W _ _ _ _ _) as [[[]|]|]; cbn; [done| |done];
     by destruct (tryConnectTrails W _ _ _ _) as [[[]|]|]).
Qed.

Lemma getTrailSegmentBetween_same prevRef currRef prevCoord currCoord :
  trailsMatch (Some prevRef) (Some currRef) = Ok same ->
  getTrailSegmentBetween W (Some prevRef) (Some currRef) prevCoord currCoord
  = Ok {| coords :=
            extractTrailSlice (trailCoords prevRef)
              prevCoord (indexOnLine prevRef) currCoord (indexOnLine currRef);
          isTrailSnapped := true |}.
Proof.
  intros Hm. unfold getTrailSegmentBetween. rewrite Hm. cbn.
  pose proof (extractTrailSlice_len (trailCoords prevRef)
    prevCoord (indexOnLine prevRef) currCoord (indexOnLine currRef)) as H.
  rewrite (proj2 (Z.leb_le 2 _)); [done|lia].
Qed.

Lemma tryConnectTrails_noConnection prevRef currRef prevCoord currCoord :
  noConnection W prevCoord currCoord ->
  tryConnectTrails W prevRef currRef prevCoord currCoord = Ok None.
Proof.
  intros (p1 & p2 & corridorTrails & prevPt & currPt & prevCandidates
          & currCandidates & Hp1 & Hp2 & Hq & Hprev & Hcurr & Hsingle
          & Hcands & Hjunction).
  unfold tryConnectTrails. rewrite Hp1, Hp2. cbn. rewrite Hq. cbn.
  rewrite Hprev, Hcurr. cbn.
  rewrite (first_return_None _ _ Hsingle). cbn. rewrite Hcands. cbn.
  unfold twoHopConnect.
  apply first_return_None. intros pc Hpc.
  apply first_return_None. intros cc Hcc.
  destruct (Nat.eqb _ _) eqn:Hkey; [done|]. apply Nat.eqb_neq in Hkey.
  apply first_return_None. intros ai Hai.
  apply first_return_None. intros bi Hbi.
  by apply Hjunction.
Qed.

End Fallbacks.

(** ** Merging fragments *)

Section Merging.

Context (W : World).

Lemma num_eq_le (a b : num) : num_eq a b = true -> num_le a b = true.
Proof. unfold num_eq, num_le, SFeqb, SFleb. by destruct (SFcompare a b) as [[]|]. Qed.

(** An empty fragment is not merged. *)
Lemma mergeTrailFragments_empty (coordsA coordsB : list JsCoord) :
  coordsA = [] \/ coordsB = [] ->
  mergeTrailFragments W coordsA coordsB = Ok None.
Proof.
  intros [-> | ->]; unfold mergeTrailFragments; [done|].
  by rewrite orb_true_r.
Qed.

(** C5, as the code has it.  For two fragments that are not empty,
    [mergeTrailFragments] tests the joins A-end→B-start, A-end→B-end
    (reversing B), B-end→A-start and B-start→A-start (reversing B) in that
    order, each gap against [MERGE_GAP_TOLERANCE_METERS]; the first gap
    within the tolerance decides the join, whose coordinates go to
    [turf.lineString]; as soon as one gap is within the tolerance the
    fragments are merged, and a gap equal to the tolerance is within it;
    when every gap exceeds the tolerance the result is null.  After a null
    merge of two related refs the caller goes on to [tryConnectTrails], and
    falls back to the straight segment when that returns null too. *)
Theorem mergeTrailFragments_joins (coordsA coordsB : list JsCoord) :
  coordsA <> [] -> coordsB <> [] ->
  let aEnd := get coordsA (len coordsA - 1) in
  let bStart := get coordsB 0 in
  let bEnd := get coordsB (len coordsB - 1) in
  let aStart := get coordsA 0 in
  let within d := num_le d MERGE_GAP_TOLERANCE_METERS in
  (forall d1,
     distMeters W aEnd bStart = Ok d1 -> within d1 = true ->
     mergeTrailFragments W coordsA coordsB
     = Some <$> turf_lineString W (coordsA ++ drop 1 coordsB))
  /\ (forall d1 d2,
        distMeters W aEnd bStart = Ok d1 -> within d1 = false ->
        distMeters W aEnd bEnd = Ok d2 -> within d2 = true ->
        mergeTrailFragments W coordsA coordsB
        = Some <$> turf_lineString W (coordsA ++ drop 1 (reverse coordsB)))
  /\ (forall d1 d2 d3,
        distMeters W aEnd bStart = Ok d1 -> within d1 = false ->
        distMeters W aEnd bEnd = Ok d2 -> within d2 = false ->
        distMeters W bEnd aStart = Ok d3 -> within d3 = true ->
        mergeTrailFragments W coordsA coordsB
        = Some <$> turf_lineString W (coordsB ++ drop 1 coordsA))
  /\ (forall d1 d2 d3 d4,
        distMeters W aEnd bStart = Ok d1 -> within d1 = false ->
        distMeters W aEnd bEnd = Ok d2 -> within d2 = false ->
        distMeters W bEnd aStart = Ok d3 -> within d3 = false ->
        distMeters W bStart aStart = Ok d4 -> within d4 = true ->
        mergeTrailFragments W coordsA coordsB
        = Some <$> turf_lineString W (reverse coordsB ++ drop 1 coordsA))
  /\ (forall d1 d2 d3 d4,
        distMeters W aEnd bStart = Ok d1 -> within d1 = false ->
        distMeters W aEnd bEnd = Ok d2 -> within d2 = false ->
        distMeters W bEnd aStart = Ok d3 -> within d3 = false ->
        distMeters W bStart aStart = Ok d4 -> within d4 = false ->
        mergeTrailFragments W coordsA coordsB = Ok None)
  /\ (forall d1 d2 d3 d4,
        distMeters W aEnd bStart = Ok d1 -> distMeters W aEnd bEnd = Ok d2 ->
        distMeters W bEnd aStart = Ok d3 -> distMeters W bStart aStart = Ok d4 ->
        within d1 || within d2 || within d3 || within d4 = true ->
        exists joined,
          mergeTrailFragments W coordsA coordsB
          = Some <$> turf_lineString W joined)
  /\ (forall d, num_eq d MERGE_GAP_TOLERANCE_METERS = true -> within d = true)
  /\ (forall prevRef currRef prevCoord currCoord,
        trailCoords prevRef = coordsA -> trailCoords currRef = coordsB ->
        trailsMatch (Some prevRef) (Some currRef) = Ok related ->
        mergeTrailFragments W coordsA coordsB = Ok None ->
        getTrailSegmentBetween W (Some prevRef) (Some currRef)
          prevCoord currCoord
        = (r ← tryConnectTrails W prevRef currRef prevCoord currCoord;
           Ok (default (straightLine prevCoord currCoord) r))).
Proof.
  intros HA HB aEnd bStart bEnd aStart within.
  assert ((len coordsA =? 0) || (len coordsB =? 0) = false) as Hne.
  { apply orb_false_iff. split; apply Z.eqb_neq; unfold len.
    - by destruct coordsA.
    - by destruct coordsB. }
  subst within. cbn beta.
  unfold mergeTrailFragments. rewrite Hne.
  fold aEnd bStart bEnd aStart.
  split; [|split; [|split; [|split; [|split; [|split; [|split]]]]]].
  - intros d1 -> H1. cbn. by rewrite H1.
  - intros d1 d2 -> H1 -> H2. cbn. rewrite H1. cbn. by rewrite H2.
  - intros d1 d2 d3 -> H1 -> H2 -> H3. cbn. rewrite H1. cbn. rewrite H2. cbn.
    by rewrite H3.
  - intros d1 d2 d3 d4 -> H1 -> H2 -> H3 -> H4.
    cbn. rewrite H1. cbn. rewrite H2. cbn. rewrite H3. cbn. by rewrite H4.
  - intros d1 d2 d3 d4 -> H1 -> H2 -> H3 -> H4.
    cbn. rewrite H1. cbn. rewrite H2. cbn. rewrite H3. cbn. by rewrite H4.
  - intros d1 d2 d3 d4 -> -> -> -> Hsome. cbn.
    destruct (num_le d1 _); [by eexists|]. cbn.
    destruct (num_le d2 _); [by eexists|]. cbn.
    destruct (num_le d3 _); [by eexists|]. cbn.
    destruct (num_le d4 _); [by eexists|done].
  - intros d. apply num_eq_le.
  - intros prevRef currRef prevCoord currCoord <- <- Hm Hmerge.
    rewrite (getTrailSegmentBetween_not_same W _ _ _ _ related) by done.
    unfold relatedAttempt, relatedConnect, mergeTrailFragments.
    rewrite Hne. fold aEnd bStart bEnd aStart. by rewrite Hmerge.
Qed.

End Merging.


(** ** The same-trail slice between indices 5 and 9 *)

Section SameTrail.

Context (W : World).

(** C2, as the code has it.  When two vertices snap to the same trail
    polyline at parametric indices 5 and 9, the segment is
    [[startCoord, trail[6], trail[7], trail[8], trail[9], endCoord]] (the
    walk ends on the segment that starts at [trail[9]]) and
    [isTrailSnapped] is true. *)
Theorem same_trail_slice_5_9 (prevRef currRef : TrailRef)
    (startCoord endCoord : JsCoord) :
  trailsMatch (Some prevRef) (Some currRef) = Ok same ->
  indexOnLine prevRef = 5 ->
  indexOnLine currRef = 9 ->
  let trail := trailCoords prevRef in
  getTrailSegmentBetween W (Some prevRef) (Some currRef) startCoord endCoord
  = Ok {| coords := [startCoord; get trail 6; get trail 7; get trail 8;
                     get trail 9; endCoord];
          isTrailSnapped := true |}.
Proof.
  intros Hsame Hprev Hcurr trail.
  rewrite (getTrailSegmentBetween_same W) by done.
  by rewrite Hprev, Hcurr.
Qed.

End SameTrail.

(** ** Assembling the main route *)

Section Assembly.

Implicit Types (cs acc sc : list JsCoord) (segs : list (list JsCoord)).

Lemma num_sub_diag_abs (a : num) : num_gt (Math_abs (num_sub a a)) lit_1e_10 = false.
Proof.
  destruct a as [[]|[]| |s m e]; try reflexivity.
  unfold num_sub, SFsub. by rewrite Z.sub_diag.
Qed.

(** A position is a duplicate of itself. *)
Lemma isDuplicate_refl lng lat :
  isDuplicate (position lng lat) (position lng lat) = Ok true.
Proof. unfold isDuplicate. cbn. by rewrite !num_sub_diag_abs. Qed.

Lemma get_cons a cs i : 0 <= i -> get (a :: cs) (1 + i) = get cs i.
Proof.
  intros Hi. unfold get.
  rewrite (proj2 (Z.ltb_ge _ _)), (proj2 (Z.ltb_ge _ _)) by lia.
  by replace (Z.to_nat (1 + i)) with (S (Z.to_nat i)) by lia.
Qed.

Lemma get_seqZ_drop cs (n : nat) :
  get cs <$> seqZ (Z.of_nat n) (len cs - Z.of_nat n) = drop n cs.
Proof.
  revert n. induction cs as [|a cs IH]; intros n.
  - rewrite drop_nil, seqZ_nil; [done|]. unfold len. cbn. lia.
  - assert (forall m k, 0 <= m ->
      get (a :: cs) <$> seqZ (1 + m) k = get cs <$> seqZ m k) as Hshift.
    { intros m k Hm. rewrite <- fmap_add_seqZ, <- list_fmap_compose.
      apply list_fmap_ext. intros i z [-> _]%lookup_seqZ. cbn.
      apply get_cons. lia. }
    destruct n as [|n].
    + change (drop 0 (a :: cs)) with (a :: drop 0 cs).
      rewrite <- (IH 0%nat).
      rewrite (seqZ_cons (Z.of_nat 0)) by (unfold len; cbn; lia).
      cbn [fmap list_fmap]. f_equal.
      replace (Z.succ (Z.of_nat 0)) with (1 + Z.of_nat 0) by lia.
      rewrite Hshift by lia. f_equal. f_equal. unfold len. cbn [length]. lia.
    + change (drop (S n) (a :: cs)) with (drop n cs). rewrite <- (IH n).
      replace (Z.of_nat (S n)) with (1 + Z.of_nat n) by lia.
      rewrite Hshift by lia. f_equal. f_equal. unfold len. cbn [length]. lia.
Qed.

(** The inner loop of [buildMainRouteDisplayCoords] appends the segment
    from [startJ] on. *)
Lemma append_from_startJ acc sc (startJ : nat) :
  for_up (Z.of_nat startJ) (len sc - 1)
    (fun j coords => push coords (get sc j)) acc
  = acc ++ drop startJ sc.
Proof.
  unfold for_up. rewrite iter_up_push. f_equal.
  rewrite <- get_seqZ_drop.
  destruct (Z.le_gt_cases (Z.of_nat startJ) (len sc)).
  - f_equal. f_equal. lia.
  - by rewrite !seqZ_nil by lia.
Qed.

Lemma get_last cs c : last cs = Some c -> get cs (len cs - 1) = c.
Proof.
  rewrite last_lookup. intros Hc. unfold get, len.
  destruct cs; [done|].
  rewrite (proj2 (Z.ltb_ge _ _)) by (cbn; lia).
  replace (Z.to_nat _) with (pred (length (j :: cs))) by (cbn; lia).
  by rewrite Hc.
Qed.

Lemma get_head cs c : head cs = Some c -> get cs 0 = c.
Proof. by destruct cs; intros [= ->]. Qed.

(** What one turn of the loop does at the junction. *)
Lemma appendSegment_junction sc acc lastCoord first dup :
  last acc = Some lastCoord -> head sc = Some first ->
  isDuplicate lastCoord first = Ok dup ->
  appendSegment sc acc = Ok (acc ++ if dup then drop 1 sc else sc).
Proof.
  intros Hlast Hfirst Hdup. unfold appendSegment.
  assert ((0 <? len sc) && (0 <? len acc) = true) as ->.
  { apply andb_true_iff. split; apply Z.ltb_lt; unfold len.
    - by destruct sc.
    - by destruct acc. }
  rewrite (get_last _ _ Hlast), (get_head _ _ Hfirst), Hdup.
  destruct dup.
  - exact (f_equal Ok (append_from_startJ acc sc 1)).
  - exact (f_equal Ok (append_from_startJ acc sc 0)).
Qed.

Lemma noAdjacentDuplicates_tail a cs :
  noAdjacentDuplicates (a :: cs) -> noAdjacentDuplicates cs.
Proof. intros H i b c Hb Hc. by apply (H (S i)). Qed.

Lemma noAdjacentDuplicates_app l1 l2 :
  noAdjacentDuplicates l1 -> noAdjacentDuplicates l2 ->
  (forall a b, last l1 = Some a -> head l2 = Some b ->
               isDuplicate a b <> Ok true) ->
  noAdjacentDuplicates (l1 ++ l2).
Proof.
  intros H1 H2 Hj i a b Ha Hb.
  destruct (decide (S i < length l1)%nat) as [Hlt|Hge].
  - rewrite lookup_app_l in Ha, Hb by lia. by eapply H1.
  - destruct (decide (i < length l1)%nat) as [Hlt'|Hge'].
    + assert (S i = length l1) as Hi by lia.
      rewrite lookup_app_l in Ha by lia.
      rewrite lookup_app_r in Hb by lia.
      rewrite Hi, Nat.sub_diag in Hb.
      apply Hj; [|by rewrite head_lookup].
      rewrite last_lookup. by replace (pred (length l1)) with i by lia.
    + rewrite lookup_app_r in Ha, Hb by lia.
      replace (S i - length l1)%nat with (S (i - length l1)) in Hb by lia.
      by eapply H2.
Qed.

Lemma noAdjacentDuplicates_short cs :
  (length cs <= 1)%nat -> noAdjacentDuplicates cs.
Proof.
  intros Hlen i a b _ Hb. apply lookup_lt_Some in Hb. lia.
Qed.

Lemma noAdjacentDuplicates_cons a b cs :
  isDuplicate a b <> Ok true -> noAdjacentDuplicates (b :: cs) ->
  noAdjacentDuplicates (a :: b :: cs).
Proof.
  intros Hab Hcs [|i] a' b' Ha' Hb'.
  - by simplify_eq/=.
  - by apply (Hcs i).
Qed.

(** The loop of [buildMainRouteDisplayCoords] over chained segments. *)
Lemma assemble_chained segs acc out :
  acc <> [] ->
  noAdjacentDuplicates acc ->
  Forall (fun sc => sc <> [] /\ noAdjacentDuplicates sc) segs ->
  chainedFrom (last acc) segs ->
  for_of segs appendSegment acc = Ok out ->
  noAdjacentDuplicates out.
Proof.
  revert acc. induction segs as [|sc segs IH]; intros acc Hne Hacc Hsegs Hch.
  - cbn. by intros [= <-].
  - cbn [for_of]. apply Forall_cons in Hsegs as [[Hsc Hnd] Hsegs].
    destruct Hch as [Hhead Hch].
    destruct sc as [|c sc']; [done|]. cbn in Hhead.
    destruct c as [|lng lat].
    { unfold appendSegment.
      assert ((0 <? len (undefined :: sc')) && (0 <? len acc) = true) as ->.
      { apply andb_true_iff. split; apply Z.ltb_lt; unfold len; [cbn; lia|].
        by destruct acc. }
      rewrite (get_last acc undefined) by done. by cbn. }
    rewrite (appendSegment_junction _ _ (position lng lat) (position lng lat) true)
      by (try done; apply isDuplicate_refl).
    cbn. change (drop 0 sc') with sc'.
    apply IH; [by destruct acc| |done|].
    + apply noAdjacentDuplicates_app; [done|by eapply noAdjacentDuplicates_tail|].
      intros a b Ha Hb. rewrite <- Hhead in Ha. simplify_eq.
      apply (Hnd 0%nat); [done|]. rewrite head_lookup in Hb. exact Hb.
    + rewrite last_app. rewrite last_cons in Hch.
      destruct (last sc'); [done|]. by rewrite <- Hhead.
Qed.

(** C6, as the code has it.  [buildMainRouteDisplayCoords] removes
    duplicates at the junctions only: when the first coordinate of an
    appended segment duplicates the last coordinate so far within the dedup
    epsilon it is dropped, else it is kept; adjacent duplicates inside a
    segment stay.  So the assembled sequence has no two adjacent coordinates
    identical within the epsilon provided no segment has such a pair itself
    and each segment starts with the very coordinate the one before it ends
    with. *)
Theorem buildMainRouteDisplayCoords_dedup (s : Session) (out : list JsCoord) :
  buildMainRouteDisplayCoords s = Ok out ->
  (forall sc acc lastCoord first dup,
     last acc = Some lastCoord -> head sc = Some first ->
     isDuplicate lastCoord first = Ok dup ->
     appendSegment sc acc = Ok (acc ++ if dup then drop 1 sc else sc))
  /\ (Forall (fun seg => coords seg <> [] /\ noAdjacentDuplicates (coords seg))
        (routeSegments s) ->
      chained (coords <$> routeSegments s) ->
      noAdjacentDuplicates out).
Proof.
  intros Hout. split; [apply appendSegment_junction|].
  intros Hsegs Hch. unfold buildMainRouteDisplayCoords in Hout.
  destruct (routeSegments s) as [|seg0 segs].
  - destruct (0 <? _); simplify_eq; intros [|[|i]] a b; cbn; done.
  - apply Forall_cons in Hsegs as [[Hne Hnd] Hsegs]. cbn in Hch.
    eapply (assemble_chained (coords <$> segs)); [done|done| |done|done].
    by apply Forall_fmap.
Qed.

End Assembly.


(** ** Dayhike spurs *)

Section Spurs.

Implicit Types (types : list PointType) (i j upToIndex : Z).

Lemma findLastMainRouteVertexIndex_loop_found types (n : nat) i upToIndex :
  upToIndex - i < Z.of_nat n ->
  i <= upToIndex ->
  notDayhikeAt types i = true ->
  (forall j, i < j <= upToIndex -> notDayhikeAt types j = false) ->
  findLastMainRouteVertexIndex_loop types n upToIndex = i.
Proof.
  revert upToIndex. induction n as [|n IH]; intros upToIndex Hn Hi Hmain Hdayhikes;
    [lia|].
  cbn [findLastMainRouteVertexIndex_loop].
  destruct (decide (i = upToIndex)) as [->|Hne]; [by rewrite Hmain|].
  rewrite Hdayhikes by lia. apply IH; [lia..|done|].
  intros j Hj. apply Hdayhikes. lia.
Qed.

(** The index found is the nearest main-route vertex at or before
    [upToIndex], when there is one. *)
Lemma findLastMainRouteVertexIndex_found types i upToIndex :
  0 <= i <= upToIndex ->
  notDayhikeAt types i = true ->
  (forall j, i < j <= upToIndex -> notDayhikeAt types j = false) ->
  findLastMainRouteVertexIndex types upToIndex = i.
Proof.
  intros Hi Hmain Hdayhikes. unfold findLastMainRouteVertexIndex.
  apply findLastMainRouteVertexIndex_loop_found; [lia|lia|done|done].
Qed.

Lemma findLastMainRouteVertexIndex_loop_none types (n : nat) upToIndex :
  Z.of_nat n = upToIndex + 1 ->
  (forall j, 0 <= j <= upToIndex -> notDayhikeAt types j = false) ->
  findLastMainRouteVertexIndex_loop types n upToIndex = 0.
Proof.
  revert upToIndex. induction n as [|n IH]; intros upToIndex Hn Hdayhikes;
    [done|].
  cbn [findLastMainRouteVertexIndex_loop].
  rewrite Hdayhikes by lia. apply IH; [lia|].
  intros j Hj. apply Hdayhikes. lia.
Qed.

(** When every vertex up to [upToIndex] is a dayhike vertex, the index
    found is 0, the index of a dayhike vertex. *)
Lemma findLastMainRouteVertexIndex_none types upToIndex :
  0 <= upToIndex ->
  (forall j, 0 <= j <= upToIndex -> notDayhikeAt types j = false) ->
  findLastMainRouteVertexIndex types upToIndex = 0.
Proof.
  intros Hup Hdayhikes. unfold findLastMainRouteVertexIndex.
  apply findLastMainRouteVertexIndex_loop_none; [lia|done].
Qed.

(** C7, at the input on which the code fails it.  The user selects
    "dayhike" and clicks twice: the spur recorded for the second vertex has
    [fromVertexIndex = 0], and vertex 0 is a dayhike vertex. *)
Theorem dayhike_spur_from_dayhike_vertex :
  let s := runSession (Flat.world []) Flat.dayhikeFirst in
  routeVertexTypes s = [dayhike; dayhike]
  /\ (fromVertexIndex <$> routeDayhikeSegments s) = [0]
  /\ lookupZ (routeVertexTypes s) 0 = Some dayhike.
Proof. vm_compute. done. Qed.

End Spurs.

(** ** Well-formed input *)

Section WellFormed.

Context (W : World) (HW : answers W).

Implicit Types (prevCoord currCoord c : JsCoord) (cs : list JsCoord).

Lemma for_of_returns {A S} (body : A -> S -> result S) (P : S -> Prop) arr s :
  P s ->
  (forall a s, a ∈ arr -> P s -> exists s', body a s = Ok s' /\ P s') ->
  exists s', for_of arr body s = Ok s' /\ P s'.
Proof.
  revert s. induction arr as [|a arr IH]; intros s Hs Hbody; cbn.
  - by exists s.
  - destruct (Hbody a s) as (s1 & -> & Hs1); [left|done|]. cbn.
    apply IH; [done|]. intros a' s' Ha'. apply Hbody. by right.
Qed.

Lemma first_return_returns {A R} (body : A -> result (option R)) arr :
  (forall a, a ∈ arr -> body a <> Throw) -> first_return arr body <> Throw.
Proof.
  induction arr as [|a arr IH]; intros Hbody; cbn; [done|].
  pose proof (Hbody a ltac:(left)) as Ha.
  destruct (body a) as [[v|]|]; cbn; [done| |done].
  apply IH. intros a' Ha'. apply Hbody. by right.
Qed.

Lemma get_isPosition cs i :
  wellFormed cs -> 0 <= i < len cs -> isPosition (get cs i).
Proof.
  intros Hcs Hi. unfold get, len in *.
  rewrite (proj2 (Z.ltb_ge _ _)) by lia.
  destruct (cs !! Z.to_nat i) as [c|] eqn:Hc.
  - cbn. by eapply (proj1 (Forall_lookup _ _) Hcs).
  - apply lookup_ge_None in Hc. lia.
Qed.

Lemma at0_returns c : isPosition c -> exists a, at0 c = Ok a.
Proof. destruct c; [done|]. by eexists. Qed.

Lemma at1_returns c : isPosition c -> exists a, at1 c = Ok a.
Proof. destruct c; [done|]. by eexists. Qed.

Lemma same_position_returns a b :
  isPosition a -> isPosition b -> exists r, same_position a b = Ok r.
Proof.
  destruct a, b; try done. intros _ _. unfold same_position. cbn.
  destruct (num_eq _ _); by eexists.
Qed.

(** [trailsMatch] returns on two refs whose polylines are well formed. *)
Lemma trailsMatch_returns (refA refB : TrailRef) :
  wellFormed (trailCoords refA) -> wellFormed (trailCoords refB) ->
  trailsMatch (Some refA) (Some refB) <> Throw.
Proof.
  intros HA HB. unfold trailsMatch.
  destruct ((0 <? len (trailCoords refA)) && (0 <? len (trailCoords refB)))
    eqn:Hlen.
  - apply andb_true_iff in Hlen as [Ha%Z.ltb_lt Hb%Z.ltb_lt].
    destruct (same_position_returns (get (trailCoords refA) 0)
                (get (trailCoords refB) 0)) as [r1 ->];
      [apply get_isPosition; [done|lia]..|].
    destruct (same_position_returns
                (get (trailCoords refA) (len (trailCoords refA) - 1))
                (get (trailCoords refB) (len (trailCoords refB) - 1)))
      as [r2 ->]; [apply get_isPosition; [done|lia]..|].
    cbn. by repeat destruct (_ && _).
  - cbn. by repeat destruct (_ && _).
Qed.

Lemma trailExtent_returns cs :
  wellFormed cs -> exists extent, trailExtent cs = Ok extent.
Proof.
  intros Hcs. unfold trailExtent.
  destruct (for_of_returns
    (fun c '(tMinLng, tMaxLng, tMinLat, tMaxLat) =>
       c0 ← at0 c;
       let tMinLng := if num_lt c0 tMinLng then c0 else tMinLng in
       let tMaxLng := if num_gt c0 tMaxLng then c0 else tMaxLng in
       c1 ← at1 c;
       let tMinLat := if num_lt c1 tMinLat then c1 else tMinLat in
       let tMaxLat := if num_gt c1 tMaxLat then c1 else tMaxLat in
       Ok (tMinLng, tMaxLng, tMinLat, tMaxLat))
    (fun _ => True) cs (Infinity, NegInfinity, Infinity, NegInfinity))
    as (extent & Hext & _); [done| |by exists extent].
  intros c [[[a b] c'] d] Hc _.
  assert (isPosition c) as Hpos by by eapply (proj1 (Forall_forall _ _) Hcs).
  destruct c; [done|]. cbn. by eexists.
Qed.

Lemma nearExtent_returns c extent :
  isPosition c -> exists r, nearExtent c extent = Ok r.
Proof.
  destruct c; [done|]. intros _. destruct extent as [[[a b] c'] d].
  unfold nearExtent. cbn. destruct (_ && _); by eexists.
Qed.

Lemma project_returns c : isPosition c -> exists p, project W c = Ok p.
Proof.
  intros Hc. pose proof (answers_project W HW c Hc).
  destruct (project W c); [by eexists|done].
Qed.

Lemma turf_point_returns c : isPosition c -> exists pt, turf_point W c = Ok pt.
Proof.
  intros Hc. pose proof (answers_point W HW c Hc).
  destruct (turf_point W c); [by eexists|done].
Qed.

Lemma singleTrailConnect_returns p1 p2 prevPt currPt prevCoord currCoord trail :
  isPosition prevCoord -> isPosition currCoord ->
  turf_point W prevCoord = Ok prevPt -> turf_point W currCoord = Ok currPt ->
  (geometry_type trail = "LineString"%string ->
   wellFormed (geometry_coordinates trail)) ->
  singleTrailConnect W p1 p2 prevPt currPt prevCoord currCoord trail <> Throw.
Proof.
  intros Hprev Hcurr HprevPt HcurrPt Htrail. unfold singleTrailConnect.
  destruct (String.eqb (geometry_type trail) "LineString") eqn:Htype;
    [|done]. apply String.eqb_eq in Htype. specialize (Htrail Htype).
  destruct (len (geometry_coordinates trail) <? 2) eqn:Hlen; [done|].
  apply Z.ltb_ge in Hlen. cbn [negb orb].
  destruct (trailExtent_returns _ Htrail) as [extent ->]. cbn.
  destruct (nearExtent_returns prevCoord extent Hprev) as [prevNear ->]. cbn.
  destruct (nearExtent_returns currCoord extent Hcurr) as [currNear ->]. cbn.
  destruct (_ || _); [done|].
  destruct (answers_nearest W HW _ prevCoord prevPt Hlen Htrail Hprev HprevPt)
    as (line & nearPrev & Hline & HnearPrev' & HnearPrev).
  destruct (answers_nearest W HW _ currCoord currPt Hlen Htrail Hcurr HcurrPt)
    as (line' & nearCurr & Hline' & HnearCurr' & HnearCurr).
  rewrite Hline in Hline'. simplify_eq.
  rewrite Hline. cbn. rewrite HnearPrev'. cbn. rewrite HnearCurr'. cbn.
  destruct (project_returns _ HnearPrev) as [prevPixel ->].
  destruct (project_returns _ HnearCurr) as [currPixel ->]. cbn.
  destruct (_ && _); [|done]. unfold try_catch. by destruct (2 <=? _).
Qed.

Lemma collectCandidate_returns p1 p2 prevPt currPt prevCoord currCoord
    keyed cands :
  isPosition prevCoord -> isPosition currCoord ->
  turf_point W prevCoord = Ok prevPt -> turf_point W currCoord = Ok currPt ->
  (geometry_type keyed.2 = "LineString"%string ->
   wellFormed (geometry_coordinates keyed.2)) ->
  candidatesWellFormed cands ->
  exists cands',
    collectCandidate W p1 p2 prevPt currPt keyed cands = Ok cands'
    /\ candidatesWellFormed cands'.
Proof.
  intros Hprev Hcurr HprevPt HcurrPt Htrail Hcands.
  destruct keyed as [key trail], cands as [prevCandidates currCandidates].
  unfold collectCandidate. cbn in Htrail.
  destruct (String.eqb (geometry_type trail) "LineString") eqn:Htype;
    [|by eexists]. apply String.eqb_eq in Htype. specialize (Htrail Htype).
  destruct (len (geometry_coordinates trail) <? 2) eqn:Hlen; [by eexists|].
  apply Z.ltb_ge in Hlen. cbn [negb orb].
  destruct (answers_nearest W HW _ prevCoord prevPt Hlen Htrail Hprev HprevPt)
    as (line & nearPrev & Hline & HnearPrev' & HnearPrev).
  destruct (answers_nearest W HW _ currCoord currPt Hlen Htrail Hcurr HcurrPt)
    as (line' & nearCurr & Hline' & HnearCurr' & HnearCurr).
  rewrite Hline in Hline'. simplify_eq.
  rewrite Hline. cbn. rewrite HnearPrev'. cbn. rewrite HnearCurr'. cbn.
  destruct (project_returns _ HnearPrev) as [prevPixel ->].
  destruct (project_returns _ HnearCurr) as [currPixel ->]. cbn.
  eexists. split; [done|]. destruct Hcands as [Hp Hc].
  split; cbn; destruct (num_le _ _); try done;
    (apply Forall_app; split; [done|by apply Forall_singleton]).
Qed.

Lemma junctionConnect_returns prevCoord currCoord pc cc ai bi :
  wellFormed (geometry_coordinates (trail pc)) ->
  wellFormed (geometry_coordinates (trail cc)) ->
  ai ∈ indices (geometry_coordinates (trail pc)) ->
  bi ∈ indices (geometry_coordinates (trail cc)) ->
  junctionConnect W prevCoord currCoord pc cc ai bi <> Throw.
Proof.
  intros HA HB Hai%elem_of_seqZ Hbi%elem_of_seqZ. unfold junctionConnect.
  pose proof (answers_distance W HW
    (get (geometry_coordinates (trail pc)) ai)
    (get (geometry_coordinates (trail cc)) bi)
    ltac:(apply get_isPosition; [done|lia])
    ltac:(apply get_isPosition; [done|lia])) as Hd.
  destruct (distMeters W _ _) as [gapM|]; [|done]. cbn.
  destruct (num_gt _ _); [done|]. unfold try_catch. by destruct (_ && _).
Qed.

Lemma twoHopConnect_returns prevCoord currCoord prevCandidates currCandidates :
  candidatesWellFormed (prevCandidates, currCandidates) ->
  twoHopConnect W prevCoord currCoord prevCandidates currCandidates <> Throw.
Proof.
  intros [Hp Hc]. unfold twoHopConnect. cbn in Hp, Hc.
  apply first_return_returns. intros pc Hpc.
  apply first_return_returns. intros cc Hcc.
  destruct (Nat.eqb _ _); [done|].
  apply first_return_returns. intros ai Hai.
  apply first_return_returns. intros bi Hbi.
  apply junctionConnect_returns; try done.
  - by eapply (proj1 (Forall_forall _ _) Hp).
  - by eapply (proj1 (Forall_forall _ _) Hc).
Qed.

(** [tryConnectTrails] returns, a connection or null, between two
    positions. *)
Lemma tryConnectTrails_returns (prevRef currRef : TrailRef) prevCoord currCoord :
  isPosition prevCoord -> isPosition currCoord ->
  tryConnectTrails W prevRef currRef prevCoord currCoord <> Throw.
Proof.
  intros Hprev Hcurr. unfold tryConnectTrails.
  destruct (project_returns _ Hprev) as [p1 ->].
  destruct (project_returns _ Hcurr) as [p2 ->]. cbn.
  destruct (answers_query W HW (corridorBbox p1 p2))
    as (corridorTrails & -> & Htrails). cbn.
  destruct (turf_point_returns _ Hprev) as [prevPt HprevPt].
  destruct (turf_point_returns _ Hcurr) as [currPt HcurrPt].
  rewrite HprevPt, HcurrPt. cbn.
  pose proof (first_return_returns
    (singleTrailConnect W p1 p2 prevPt currPt prevCoord currCoord)
    corridorTrails) as Hsingle.
  destruct (first_return corridorTrails _) as [[r|]|]; cbn; [done| |].
  2:{ apply Hsingle. intros trail Htrail.
      apply singleTrailConnect_returns; try done.
      by eapply (proj1 (Forall_forall _ _) Htrails). }
  destruct (for_of_returns (collectCandidate W p1 p2 prevPt currPt)
              candidatesWellFormed
              (imap (fun key trail => (key, trail)) corridorTrails) ([], []))
    as ([prevCandidates currCandidates] & -> & Hcands).
  - by split.
  - intros [key trail] cands (i & trail' & [= -> ->] & Hi)%elem_of_lookup_imap Hc.
    apply (collectCandidate_returns p1 p2 prevPt currPt prevCoord currCoord);
      try done.
    exact (proj1 (Forall_lookup _ _) Htrails _ _ Hi).
  - cbn. by apply twoHopConnect_returns.
Qed.

(** [getTrailSegmentBetween] returns for two positions and two refs that
    are null or well formed. *)
Lemma getTrailSegmentBetween_returns (prevRef currRef : option TrailRef)
    prevCoord currCoord :
  isPosition prevCoord -> isPosition currCoord ->
  (forall ref, prevRef = Some ref -> wellFormed (trailCoords ref)) ->
  (forall ref, currRef = Some ref -> wellFormed (trailCoords ref)) ->
  exists seg,
    getTrailSegmentBetween W prevRef currRef prevCoord currCoord = Ok seg.
Proof.
  intros Hprev Hcurr HprevRef HcurrRef.
  destruct prevRef as [prevRef|], currRef as [currRef|]; try by eexists.
  pose proof (trailsMatch_returns prevRef currRef
                (HprevRef _ eq_refl) (HcurrRef _ eq_refl)) as Hmatch.
  destruct (trailsMatch (Some prevRef) (Some currRef)) as [m|] eqn:Hm; [|done].
  destruct (decide (m = same)) as [->|Hsame].
  - rewrite getTrailSegmentBetween_same by done. by eexists.
  - rewrite (getTrailSegmentBetween_not_same W _ _ _ _ m) by done.
    pose proof (relatedAttempt_returns W m prevRef currRef prevCoord currCoord).
    destruct (relatedAttempt W m _ _ _ _) as [[r|]|]; cbn; [by eexists| |done].
    pose proof (tryConnectTrails_returns prevRef currRef _ _ Hprev Hcurr).
    destruct (tryConnectTrails W _ _ _ _) as [r|]; [by eexists|done].
Qed.

End WellFormed.

(** ** The flat world answers *)

Section FlatAnswers.

Lemma Flat_project_returns c :
  isPosition c -> exists p, Flat.project c = Ok p.
Proof. destruct c; [done|]. by eexists. Qed.

Lemma Flat_planarDistance_returns a b :
  isPosition a -> isPosition b -> exists d, Flat.planarDistance a b = Ok d.
Proof. destruct a, b; try done. by eexists. Qed.

Lemma Flat_nearestPointOnLine_returns cs c :
  cs <> [] -> wellFormed cs -> isPosition c ->
  exists nearest,
    Flat.nearestPointOnLine {| line_coordinates := cs |}
      {| point_coordinates := c |} = Ok nearest
    /\ isPosition (nearest_coordinates nearest).
Proof.
  intros Hne Hcs Hc. unfold Flat.nearestPointOnLine.
  cbn [line_coordinates point_coordinates].
  set (body := fun '(i, c') (best : option (Nearest * num)) => _).
  remember (imap _ cs) as indexed eqn:Hidx.
  assert (forall ic, ic ∈ indexed -> isPosition ic.2) as Hindexed.
  { rewrite Hidx.
    intros [i c'] (k & c'' & [= -> ->] & Hk)%elem_of_lookup_imap.
    exact (proj1 (Forall_lookup _ _) Hcs _ _ Hk). }
  assert (forall ic (best : option (Nearest * num)),
    isPosition ic.2 ->
    exists n d, body ic best = Ok (Some (n, d))
                /\ (nearest_coordinates n = ic.2
                    \/ exists d', best = Some (n, d'))) as Hbody.
  { intros [i c'] best Hc'. cbn in Hc'. subst body. cbn beta iota.
    destruct (Flat_planarDistance_returns c' c Hc' Hc) as [d ->]. cbn.
    destruct best as [[n dBest]|].
    - destruct (num_lt d dBest); eexists _, _; split; try done; [by left|].
      right. by eexists.
    - eexists _, _. split; [done|]. by left. }
  destruct indexed as [|ic more].
  { destruct cs; done. }
  clear Hidx. cbn [for_of].
  destruct (Hbody ic None) as (n0 & d0 & -> & Hn0); [apply Hindexed; left|].
  cbn.
  destruct (for_of_returns body
    (fun best => exists n d, best = Some (n, d)
                             /\ isPosition (nearest_coordinates n))
    more (Some (n0, d0))) as (best & -> & n & d & -> & Hn).
  - eexists _, _. split; [done|].
    destruct Hn0 as [-> | [d' [=]]]. apply Hindexed. left.
  - intros ic' best1 Hic' (n1 & d1 & -> & Hn1).
    destruct (Hbody ic' (Some (n1, d1))) as (n2 & d2 & -> & Hn2);
      [apply Hindexed; by right|].
    eexists. split; [done|]. eexists _, _. split; [done|].
    destruct Hn2 as [-> | [d' [= <- _]]]; [|done].
    apply Hindexed. by right.
  - cbn. by eexists.
Qed.

(** The flat world answers, when the trails it renders are well formed. *)
Lemma Flat_answers (trails : list Feature) :
  Forall (fun trail => wellFormed (geometry_coordinates trail)) trails ->
  answers (Flat.world trails).
Proof.
  intros Htrails. split.
  - intros c Hc. by destruct c.
  - intros bbox. exists trails. split; [done|].
    eapply Forall_impl; [done|]. by intros trail Htrail _.
  - intros c Hc. by destruct c.
  - intros cs c pt Hlen Hcs Hc Hpt.
    assert (pt = {| point_coordinates := c |}) as ->.
    { destruct c; [done|]. cbn in Hpt. by simplify_eq. }
    destruct (Flat_nearestPointOnLine_returns cs c) as (nearest & Hn & Hpos);
      [by destruct cs|done|done|].
    exists {| line_coordinates := cs |}, nearest. split; [|done].
    unfold turf_lineString. cbn. unfold Flat.lineString.
    by rewrite (proj2 (Z.ltb_ge _ _)) by lia.
  - intros a b Ha Hb. by destruct a, b.
Qed.

End FlatAnswers.

(** ** Fallbacks of [getTrailSegmentBetween] *)

Section FallbackClaim.

Context (W : World).

(** C8, as the code has it.  [getTrailSegmentBetween] has two calls outside
    its [try] blocks, [trailsMatch] and [tryConnectTrails], and what they
    throw it throws.  Apart from that:
    - whenever it returns, the result has at least 2 coordinates, and a
      result that is not trail-snapped is exactly the straight line
      [[prevCoord, currCoord]];
    - with a null ref it returns the straight line;
    - it returns normally whenever [trailsMatch] and [tryConnectTrails] do;
    - what is thrown while merging and slicing related fragments is caught;
    - it returns normally for two positions and two refs that are null or
      well formed, when the map and turf answer on well-formed input;
    - when every trail-following strategy fails (no same trail, no merge,
      [tryConnectTrails] returns null) the result is exactly the straight
      line with [isTrailSnapped = false];
    - [tryConnectTrails] returns null, and does not throw, when neither of
      its searches finds a connection. *)
Theorem getTrailSegmentBetween_fallbacks prevCoord currCoord :
  (forall (prevRef currRef : option TrailRef) seg,
     getTrailSegmentBetween W prevRef currRef prevCoord currCoord = Ok seg ->
     2 <= len (coords seg)
     /\ (isTrailSnapped seg = false -> seg = straightLine prevCoord currCoord))
  /\ (forall prevRef currRef : option TrailRef,
        prevRef = None \/ currRef = None ->
        getTrailSegmentBetween W prevRef currRef prevCoord currCoord
        = Ok (straightLine prevCoord currCoord))
  /\ (forall prevRef currRef,
        trailsMatch (Some prevRef) (Some currRef) <> Throw ->
        tryConnectTrails W prevRef currRef prevCoord currCoord <> Throw ->
        getTrailSegmentBetween W (Some prevRef) (Some currRef)
          prevCoord currCoord <> Throw)
  /\ (forall m prevRef currRef,
        relatedAttempt W m prevRef currRef prevCoord currCoord <> Throw)
  /\ (forall prevRef currRef : option TrailRef,
        answers W -> isPosition prevCoord -> isPosition currCoord ->
        (forall ref, prevRef = Some ref -> wellFormed (trailCoords ref)) ->
        (forall ref, currRef = Some ref -> wellFormed (trailCoords ref)) ->
        exists seg,
          getTrailSegmentBetween W prevRef currRef prevCoord currCoord
          = Ok seg)
  /\ (forall m prevRef currRef,
        trailsMatch (Some prevRef) (Some currRef) = Ok m ->
        m <> same ->
        relatedAttempt W m prevRef currRef prevCoord currCoord = Ok None ->
        tryConnectTrails W prevRef currRef prevCoord currCoord = Ok None ->
        getTrailSegmentBetween W (Some prevRef) (Some currRef)
          prevCoord currCoord
        = Ok (straightLine prevCoord currCoord))
  /\ (forall prevRef currRef,
        noConnection W prevCoord currCoord ->
        tryConnectTrails W prevRef currRef prevCoord currCoord = Ok None).
Proof.
  split; [|split; [|split; [|split; [|split; [|split]]]]].
  - intros prevRef currRef seg
      [->|(_ & Hlen & Hsnapped)]%getTrailSegmentBetween_cases; [done|].
    split; [done|congruence].
  - intros prevRef currRef [-> | ->]; [done|]. by destruct prevRef.
  - intros prevRef currRef Hmatch Htry.
    destruct (trailsMatch (Some prevRef) (Some currRef)) as [m|] eqn:Hm; [|done].
    destruct (decide (m = same)) as [->|Hsame].
    + by rewrite (getTrailSegmentBetween_same W).
    + rewrite (getTrailSegmentBetween_not_same W _ _ _ _ m) by done.
      pose proof (relatedAttempt_returns W m prevRef currRef prevCoord currCoord).
      destruct (relatedAttempt W m _ _ _ _) as [[r|]|]; cbn; [done| |done].
      by destruct (tryConnectTrails W _ _ _ _).
  - intros m prevRef currRef. apply relatedAttempt_returns.
  - intros prevRef currRef HW. by apply getTrailSegmentBetween_returns.
  - intros m prevRef currRef Hm Hsame Hrel Htry.
    rewrite (getTrailSegmentBetween_not_same W _ _ _ _ m) by done.
    by rewrite Hrel; cbn; rewrite Htry.
  - intros prevRef currRef. apply tryConnectTrails_noConnection.
Qed.

End FallbackClaim.

(** ** More on the order of the numbers *)

Section NumOrderMore.
Implicit Types (a b c d r : num).

Lemma num_lt_irrefl a : num_lt a a = false.
Proof.
  destruct (key a) as [ka|] eqn:Ha;
    [|by rewrite num_lt_nan_l by by apply key_None].
  apply not_true_iff_false. rewrite (num_lt_key _ _ _ _ Ha Ha).
  unfold key_lt. lia.
Qed.

Lemma num_le_lt_trans a b c :
  num_le a b = true -> num_lt b c = true -> num_lt a c = true.
Proof.
  intros H1 H2.
  destruct (key a) as [ka|] eqn:Ha;
    [|by rewrite num_le_nan_l in H1 by by apply key_None].
  destruct (key b) as [kb|] eqn:Hb;
    [|by rewrite num_le_nan_r in H1 by by apply key_None].
  destruct (key c) as [kc|] eqn:Hc;
    [|by rewrite num_lt_nan_r in H2 by by apply key_None].
  rewrite (num_le_key _ _ _ _ Ha Hb) in H1. rewrite (num_lt_key _ _ _ _ Hb Hc) in H2.
  rewrite (num_lt_key _ _ _ _ Ha Hc).
  unfold key_lt in *. destruct ka as [[??]?], kb as [[??]?], kc as [[??]?].
  cbn in *. destruct H1 as [H1|H1]; simplify_eq; lia.
Qed.

Lemma num_lt_le a b : num_lt a b = true -> num_le a b = true.
Proof.
  intros H1.
  destruct (key a) as [ka|] eqn:Ha;
    [|by rewrite num_lt_nan_l in H1 by by apply key_None].
  destruct (key b) as [kb|] eqn:Hb;
    [|by rewrite num_lt_nan_r in H1 by by apply key_None].
  rewrite (num_lt_key _ _ _ _ Ha Hb) in H1. rewrite (num_le_key _ _ _ _ Ha Hb).
  by left.
Qed.

Lemma num_lt_trans a b c :
  num_lt a b = true -> num_lt b c = true -> num_lt a c = true.
Proof. intros ?%num_lt_le. by apply num_le_lt_trans. Qed.

Lemma num_eq_refl a : is_nan a = false -> num_eq a a = true.
Proof.
  intros Hn. destruct (key a) as [ka|] eqn:Ha;
    [|apply key_None in Ha; congruence].
  by rewrite (num_eq_key _ _ _ _ Ha Ha).
Qed.

End NumOrderMore.

(** ** The trail a click snaps to *)

Section NearestTrail.
Context (W : World).

Lemma snapCandidate_eligible pixel clickPoint trail c :
  snapCandidate W pixel clickPoint trail = Ok (Some c) ->
  geometry_type trail = "LineString"%string
  /\ 2 <= len (geometry_coordinates trail).
Proof.
  unfold snapCandidate.
  destruct (String.eqb _ _) eqn:Ht; cbn; [|done].
  destruct (_ <? 2) eqn:Hl; [done|]. intros _.
  split; [by apply String.eqb_eq|]. apply Z.ltb_ge in Hl. lia.
Qed.

Lemma snapStep_nearest pixel clickPoint seen trail best best' :
  nearestSoFar W pixel clickPoint seen best ->
  snapStep W pixel clickPoint trail best = Ok best' ->
  nearestSoFar W pixel clickPoint (seen ++ [trail]) best'.
Proof.
  destruct best as [[bestPoint bestPixelDist] bestTrail].
  intros Hbest. unfold snapStep.
  destruct (snapCandidate W pixel clickPoint trail) as [[[n d]|]|] eqn:Hc;
    cbn; [| |done].
  - destruct (num_lt d bestPixelDist) eqn:Hlt; intros [= <-]; cbn.
    + exists seen, trail, []. split; [done|]. split; [done|]. split; [done|].
      split; [|by intros ? ? ? ?%elem_of_nil].
      intros t n' d' Ht Hcand.
      destruct (num_le d' d) eqn:Hle; [|done].
      pose proof (num_le_lt_trans _ _ _ Hle Hlt) as Hlt'.
      destruct bestPoint as [nearest|]; cbn in Hbest.
      * destruct Hbest as (before & t0 & after & -> & _ & Hc0 & Hbefore & Hafter).
        apply elem_of_app in Ht as [Ht|Ht].
        { pose proof (Hbefore _ _ _ Ht Hcand) as Hf.
          by rewrite (num_lt_le _ _ Hlt') in Hf. }
        apply elem_of_cons in Ht as [->|Ht].
        { rewrite Hc0 in Hcand. simplify_eq. by rewrite num_lt_irrefl in Hlt'. }
        by rewrite (Hafter _ _ _ Ht Hcand) in Hlt'.
      * by rewrite (Hbest _ _ _ Ht Hcand) in Hlt'.
    + destruct bestPoint as [nearest|]; cbn in Hbest |- *.
      * destruct Hbest as (before & t0 & after & -> & ? & Hc0 & Hbefore & Hafter).
        exists before, t0, (after ++ [trail]).
        split; [by rewrite <- app_assoc|]. split; [done|]. split; [done|].
        split; [done|].
        intros t n' d' [Ht| ->%list_elem_of_singleton]%elem_of_app Hcand.
        -- by eapply Hafter.
        -- rewrite Hc in Hcand. by simplify_eq.
      * intros t n' d' [Ht| ->%list_elem_of_singleton]%elem_of_app Hcand.
        -- by eapply Hbest.
        -- rewrite Hc in Hcand. by simplify_eq.
  - intros [= <-]. destruct bestPoint as [nearest|]; cbn in Hbest |- *.
    + destruct Hbest as (before & t0 & after & -> & ? & Hc0 & Hbefore & Hafter).
      exists before, t0, (after ++ [trail]).
      split; [by rewrite <- app_assoc|]. split; [done|]. split; [done|].
      split; [done|].
      intros t n' d' [Ht| ->%list_elem_of_singleton]%elem_of_app Hcand.
      * by eapply Hafter.
      * rewrite Hc in Hcand. by simplify_eq.
    + intros t n' d' [Ht| ->%list_elem_of_singleton]%elem_of_app Hcand.
      * by eapply Hbest.
      * rewrite Hc in Hcand. by simplify_eq.
Qed.

(** What a snapped result is made of. *)
Lemma snapToTrail_snapped coord r :
  snapToTrail W coord = Ok r -> snapped r = true ->
  exists pixel trails clickPoint nearest bestPixelDist bestTrail,
    project W coord = Ok pixel
    /\ queryRenderedFeatures W (snapBbox pixel) = Ok trails
    /\ turf_point W coord = Ok clickPoint
    /\ for_of trails (snapStep W pixel clickPoint) (None, Infinity, None)
       = Ok (Some nearest, bestPixelDist, bestTrail)
    /\ r = {| coordinates := nearest_coordinates nearest;
              snapped := true;
              trailFeature := bestTrail;
              snap_indexOnLine := Some (nearest_index nearest) |}.
Proof.
  unfold snapToTrail. destruct (turf W) as [t|] eqn:Hturf;
    [|by intros [= <-]].
  destruct (project W coord) as [pixel|] eqn:Hpixel; cbn; [|done].
  destruct (queryRenderedFeatures W (snapBbox pixel)) as [trails|] eqn:Hq;
    cbn; [|done].
  destruct (len trails =? 0) eqn:Hlen; [by intros [= <-]|].
  destruct (turf_point W coord) as [clickPoint|] eqn:Hpt; cbn; [|done].
  destruct (for_of trails (snapStep W pixel clickPoint) (None, Infinity, None))
    as [[[bestPoint bestPixelDist] bestTrail]|] eqn:Hloop; cbn; [|done].
  destruct bestPoint as [nearest|]; [|by intros [= <-]].
  destruct (num_le bestPixelDist SNAP_PIXEL_RADIUS); intros [= <-]; [|done].
  intros _. by exists pixel, trails, clickPoint, nearest, bestPixelDist, bestTrail.
Qed.

(** X1.  What a snap is made of.  Whenever [snapToTrail] returns a snapped
    result, the result comes from one of the features the map returned
    for the box around the click: a LineString of two coordinates or more,
    on which turf found the nearest point to the click.  [trailFeature] is
    that feature, [coordinates] the nearest point and [indexOnLine] its
    index: a snapped result always carries the feature and the index the
    click handler reads. *)
Theorem snapToTrail_snapped_feature coord r :
  snapToTrail W coord = Ok r -> snapped r = true ->
  exists pixel trails clickPoint trail nearest pixelDist,
    project W coord = Ok pixel
    /\ queryRenderedFeatures W (snapBbox pixel) = Ok trails
    /\ turf_point W coord = Ok clickPoint
    /\ trail ∈ trails
    /\ geometry_type trail = "LineString"%string
    /\ 2 <= len (geometry_coordinates trail)
    /\ snapCandidate W pixel clickPoint trail = Ok (Some (nearest, pixelDist))
    /\ r = {| coordinates := nearest_coordinates nearest;
              snapped := true;
              trailFeature := Some trail;
              snap_indexOnLine := Some (nearest_index nearest) |}.
Proof.
  intros Hr Hs.
  destruct (snapToTrail_snapped coord r Hr Hs)
    as (pixel & trails & clickPoint & nearest & d & bestTrail
        & Hp & Hq & Hpt & Hloop & ->).
  apply (for_of_invariant _ (snapInvariant W pixel clickPoint)
           (snapStep_invariant W pixel clickPoint) trails [])
    in Hloop;
    [|repeat split; by intros ? ? ? ?%elem_of_nil].
  destruct Hloop as (_ & (trail & Hin & -> & Hcand) & _).
  rewrite app_nil_l in Hin.
  destruct (snapCandidate_eligible _ _ _ _ Hcand) as [Hty Hlen].
  by exists pixel, trails, clickPoint, trail, nearest, d.
Qed.

(** X2.  The nearest trail wins, and the first one on a tie.  Whenever
    [snapToTrail] returns a snapped result, no candidate the map lists
    before the chosen feature is as near to the click as the chosen one
    (its pixel distance is not less than or equal to the chosen one's), and
    no candidate the map lists after it is nearer (its pixel distance is
    not less). *)
Theorem snapToTrail_nearest coord r :
  snapToTrail W coord = Ok r -> snapped r = true ->
  exists pixel trails clickPoint before trail after nearest pixelDist,
    project W coord = Ok pixel
    /\ queryRenderedFeatures W (snapBbox pixel) = Ok trails
    /\ turf_point W coord = Ok clickPoint
    /\ trails = before ++ trail :: after
    /\ trailFeature r = Some trail
    /\ snapCandidate W pixel clickPoint trail = Ok (Some (nearest, pixelDist))
    /\ coordinates r = nearest_coordinates nearest
    /\ (forall trail' nearest' pixelDist',
          trail' ∈ before ->
          snapCandidate W pixel clickPoint trail'
          = Ok (Some (nearest', pixelDist')) ->
          num_le pixelDist' pixelDist = false)
    /\ (forall trail' nearest' pixelDist',
          trail' ∈ after ->
          snapCandidate W pixel clickPoint trail'
          = Ok (Some (nearest', pixelDist')) ->
          num_lt pixelDist' pixelDist = false).
Proof.
  intros Hr Hs.
  destruct (snapToTrail_snapped coord r Hr Hs)
    as (pixel & trails & clickPoint & nearest & d & bestTrail
        & Hp & Hq & Hpt & Hloop & ->).
  apply (for_of_invariant _ (nearestSoFar W pixel clickPoint)
           (snapStep_nearest pixel clickPoint) trails [])
    in Hloop; [|by intros ? ? ? ?%elem_of_nil].
  destruct Hloop as (before & trail & after & Heq & -> & Hcand & Hb & Ha).
  rewrite app_nil_l in Heq.
  by exists pixel, trails, clickPoint, before, trail, after, nearest, d.
Qed.

End NearestTrail.

(** ** No trail to snap to *)

Section NoTrail.
Context (W : World).

Lemma snapCandidate_skipped pixel clickPoint trail :
  geometry_type trail <> "LineString"%string
  \/ len (geometry_coordinates trail) < 2 ->
  snapCandidate W pixel clickPoint trail = Ok None.
Proof.
  intros Hskip. unfold snapCandidate.
  destruct (String.eqb_spec (geometry_type trail) "LineString") as [Hty|Hty];
    cbn [negb]; [|done].
  destruct Hskip as [?|Hlen]; [done|].
  by rewrite (proj2 (Z.ltb_lt _ _) Hlen).
Qed.

Lemma snapStep_skipped pixel clickPoint trail best :
  geometry_type trail <> "LineString"%string
  \/ len (geometry_coordinates trail) < 2 ->
  snapStep W pixel clickPoint trail best = Ok best.
Proof.
  intros Hskip. unfold snapStep.
  destruct best as [[bestPoint bestPixelDist] bestTrail].
  by rewrite snapCandidate_skipped.
Qed.

Lemma for_of_snapStep_skipped pixel clickPoint trails best :
  Forall (fun trail =>
            geometry_type trail <> "LineString"%string
            \/ len (geometry_coordinates trail) < 2) trails ->
  for_of trails (snapStep W pixel clickPoint) best = Ok best.
Proof.
  induction 1 as [|trail trails Hskip _ IH]; [done|].
  cbn [for_of]. by rewrite snapStep_skipped.
Qed.

(** X3.  Nothing to snap to.  When the map and turf answer and none of the
    features around the click is a LineString of two coordinates or more,
    [snapToTrail] returns the click unsnapped, at its own coordinate. *)
Theorem snapToTrail_no_eligible_trail coord pixel trails clickPoint :
  project W coord = Ok pixel ->
  queryRenderedFeatures W (snapBbox pixel) = Ok trails ->
  turf_point W coord = Ok clickPoint ->
  Forall (fun trail =>
            geometry_type trail <> "LineString"%string
            \/ len (geometry_coordinates trail) < 2) trails ->
  snapToTrail W coord = Ok (unsnapped coord).
Proof.
  intros Hp Hq Hpt Hskip. unfold snapToTrail.
  destruct (turf W) as [t|] eqn:Hturf.
  2:{ unfold turf_point, the_turf in Hpt. by rewrite Hturf in Hpt. }
  rewrite Hp. cbn. rewrite Hq. cbn. destruct (len trails =? 0); [done|].
  rewrite Hpt. cbn. by rewrite for_of_snapStep_skipped.
Qed.

End NoTrail.

(** ** Two vertices on one feature *)

Section SameFeature.
Context (W : World).

Lemma same_position_refl lng lat :
  is_nan lng = false -> is_nan lat = false ->
  same_position (position lng lat) (position lng lat) = Ok true.
Proof.
  intros Hlng Hlat. cbn. rewrite (num_eq_refl _ Hlng). cbn.
  by rewrite (num_eq_refl _ Hlat).
Qed.

Lemma len_pos_cons {A} (a : A) (cs : list A) : (0 <? len (a :: cs)) = true.
Proof. apply Z.ltb_lt. unfold len. cbn. lia. Qed.

(** X4.  Two vertices snapped to the same feature.  When two trail refs
    hold the same polyline, whose first and last coordinates are positions
    free of NaN, [trailsMatch] answers "same" whatever their ids and names
    are, and [getTrailSegmentBetween] returns the trail-snapped slice of
    that polyline between the two indices. *)
Theorem same_feature_connects (prevRef currRef : TrailRef)
    (prevCoord currCoord : JsCoord) (lng0 lat0 lng1 lat1 : num) :
  trailCoords currRef = trailCoords prevRef ->
  head (trailCoords prevRef) = Some (position lng0 lat0) ->
  last (trailCoords prevRef) = Some (position lng1 lat1) ->
  is_nan lng0 = false -> is_nan lat0 = false ->
  is_nan lng1 = false -> is_nan lat1 = false ->
  trailsMatch (Some prevRef) (Some currRef) = Ok same
  /\ getTrailSegmentBetween W (Some prevRef) (Some currRef) prevCoord currCoord
     = Ok {| coords :=
               extractTrailSlice (trailCoords prevRef)
                 prevCoord (indexOnLine prevRef)
                 currCoord (indexOnLine currRef);
             isTrailSnapped := true |}.
Proof.
  intros Heq Hhead Hlast H1 H2 H3 H4.
  assert (trailsMatch (Some prevRef) (Some currRef) = Ok same) as Hsame.
  { unfold trailsMatch. rewrite Heq.
    destruct (trailCoords prevRef) as [|c cs] eqn:Hcs; [done|].
    rewrite len_pos_cons. cbn [andb].
    rewrite (get_head _ _ Hhead), (get_last _ _ Hlast).
    rewrite !same_position_refl by done. cbn.
    by rewrite Z.eqb_refl. }
  split; [done|]. by apply getTrailSegmentBetween_same.
Qed.

End SameFeature.

(** ** Slices within the trail and past its end *)

Section SliceRange.

Lemma get_seqZ_take cs (n m : nat) :
  (m + n <= length cs)%nat ->
  get cs <$> seqZ (Z.of_nat m) (Z.of_nat n) = take n (drop m cs).
Proof.
  revert m. induction n as [|n IH]; intros m Hle; [done|].
  rewrite (seqZ_cons (Z.of_nat m)) by lia. cbn [fmap list_fmap].
  destruct (lookup_lt_is_Some_2 cs m ltac:(lia)) as [c Hc].
  rewrite (drop_S _ _ _ Hc). cbn [take].
  f_equal.
  - unfold get. destruct (Z.of_nat m <? 0) eqn:Hm; [apply Z.ltb_lt in Hm; lia|].
    by rewrite Nat2Z.id, Hc.
  - replace (Z.succ (Z.of_nat m)) with (Z.of_nat (S m)) by lia.
    replace (Z.pred (Z.of_nat (S n))) with (Z.of_nat n) by lia.
    apply IH. lia.
Qed.

Lemma wellFormed_take_drop cs (n m : nat) :
  wellFormed cs -> wellFormed (take n (drop m cs)).
Proof. intros H. by apply Forall_take, Forall_drop. Qed.

(** X5.  A slice within the trail.  For two indices within the trail, the
    slice is the start coordinate, a run of consecutive trail vertices and
    the end coordinate: forward, the vertices [startIdx + 1] to [endIdx];
    backward, the vertices [endIdx + 1] to [startIdx] in reverse order.
    When the trail is well formed and the two coordinates are positions,
    every coordinate of the slice is a position. *)
Theorem extractTrailSlice_in_range trail a i b j :
  0 <= i < len trail -> 0 <= j < len trail ->
  (i <= j ->
   extractTrailSlice trail a i b j
   = a :: take (Z.to_nat (j - i)) (drop (Z.to_nat (i + 1)) trail) ++ [b])
  /\ (j < i ->
      extractTrailSlice trail a i b j
      = a :: reverse (take (Z.to_nat (i - j)) (drop (Z.to_nat (j + 1)) trail))
          ++ [b])
  /\ (wellFormed trail -> isPosition a -> isPosition b ->
      wellFormed (extractTrailSlice trail a i b j)).
Proof.
  intros Hi Hj. unfold len in Hi, Hj.
  assert (i <= j ->
   extractTrailSlice trail a i b j
   = a :: take (Z.to_nat (j - i)) (drop (Z.to_nat (i + 1)) trail) ++ [b]) as Hf.
  { intros Hij. rewrite extractTrailSlice_forward by done.
    replace (i + 1) with (Z.of_nat (Z.to_nat (i + 1))) at 1 by lia.
    replace (j - i) with (Z.of_nat (Z.to_nat (j - i))) at 1 by lia.
    rewrite get_seqZ_take by lia. done. }
  assert (j < i ->
      extractTrailSlice trail a i b j
      = a :: reverse (take (Z.to_nat (i - j)) (drop (Z.to_nat (j + 1)) trail))
          ++ [b]) as Hb.
  { intros Hij. rewrite extractTrailSlice_backward by done.
    rewrite fmap_reverse.
    replace (j + 1) with (Z.of_nat (Z.to_nat (j + 1))) at 1 by lia.
    replace (i - j) with (Z.of_nat (Z.to_nat (i - j))) at 1 by lia.
    rewrite get_seqZ_take by lia. done. }
  split; [done|]. split; [done|].
  intros Ht Ha Hbp. destruct (Z_le_gt_dec i j) as [Hij|Hij].
  - rewrite Hf by done. apply Forall_cons. split; [done|].
    apply Forall_app. split; [by apply wellFormed_take_drop|].
    by apply Forall_singleton.
  - rewrite Hb by lia. apply Forall_cons. split; [done|].
    apply Forall_app. split; [|by apply Forall_singleton].
    apply Forall_reverse. by apply wellFormed_take_drop.
Qed.

(** X6.  An index past the end of the trail.  With [startIdx < endIdx] and
    [endIdx] at or past the length of the trail, [extractTrailSlice] does
    not fail: the slice it returns holds [undefined] in the place of the
    vertices that are not there. *)
Theorem extractTrailSlice_hole trail a i b j :
  i < j -> len trail <= j ->
  undefined ∈ extractTrailSlice trail a i b j.
Proof.
  intros Hij Hj. rewrite extractTrailSlice_forward by lia.
  apply elem_of_cons. right. apply elem_of_app. left.
  apply list_elem_of_fmap. exists j. split.
  - unfold get. destruct (j <? 0) eqn:H0; [done|].
    rewrite lookup_ge_None_2; [done|]. unfold len in Hj. lia.
  - apply elem_of_seqZ. lia.
Qed.

End SliceRange.

(** ** The last main-route vertex *)

Section LastMain.

Lemma findLastMainRouteVertexIndex_loop_spec types (n : nat) upTo :
  Z.of_nat n = upTo + 1 ->
  let r := findLastMainRouteVertexIndex_loop types n upTo in
  0 <= r /\ r <= Z.max upTo 0
  /\ (forall j, r < j <= upTo -> notDayhikeAt types j = false)
  /\ (notDayhikeAt types r = true
      \/ (r = 0 /\ forall j, 0 <= j <= upTo -> notDayhikeAt types j = false)).
Proof.
  revert upTo. induction n as [|n IH]; intros upTo Hn; cbn.
  - split; [lia|]. split; [lia|]. split; [intros; lia|].
    right. split; [done|]. intros; lia.
  - destruct (notDayhikeAt types upTo) eqn:Hu.
    + split; [lia|]. split; [lia|]. split; [intros; lia|]. by left.
    + destruct (IH (upTo - 1) ltac:(lia)) as (H0 & H1 & H2 & H3).
      split; [done|]. split; [lia|]. split.
      * intros j Hj. destruct (decide (j = upTo)) as [->|]; [done|].
        apply H2. lia.
      * destruct H3 as [H3|[H3 H4]]; [by left|]. right. split; [done|].
        intros j Hj. destruct (decide (j = upTo)) as [->|]; [done|].
        apply H4. lia.
Qed.

(** X7.  The last main-route vertex.  For [upToIndex >= 0],
    [findLastMainRouteVertexIndex] returns an index between 0 and
    [upToIndex]; every vertex after it, up to [upToIndex], is a dayhike;
    and the vertex it names is not a dayhike, unless it is vertex 0 and
    every vertex up to [upToIndex] is a dayhike. *)
Theorem findLastMainRouteVertexIndex_spec types upToIndex :
  0 <= upToIndex ->
  let r := findLastMainRouteVertexIndex types upToIndex in
  0 <= r <= upToIndex
  /\ (forall j, r < j <= upToIndex -> notDayhikeAt types j = false)
  /\ (notDayhikeAt types r = true
      \/ (r = 0
          /\ forall j, 0 <= j <= upToIndex -> notDayhikeAt types j = false)).
Proof.
  intros H0. unfold findLastMainRouteVertexIndex.
  destruct (findLastMainRouteVertexIndex_loop_spec types
              (Z.to_nat (upToIndex + 1)) upToIndex ltac:(lia))
    as (? & ? & ? & ?).
  repeat split; try done; lia.
Qed.

End LastMain.

(** ** Pushing onto the arrays of the session *)

Section Pushes.
Context {A : Type}.
Implicit Types (l : list A).

Lemma len_push l (a : A) : len (push l a) = len l + 1.
Proof. unfold len, push. rewrite length_app. cbn. lia. Qed.

Lemma len_nonneg l : 0 <= len l.
Proof. unfold len. lia. Qed.

Lemma len_nil_inv l : len l = 0 -> l = [].
Proof. destruct l; [done|]. unfold len. cbn. lia. Qed.

Lemma lookupZ_push_lt l (a : A) i :
  i < len l -> lookupZ (push l a) i = lookupZ l i.
Proof.
  intros Hi. unfold lookupZ, push. destruct (i <? 0) eqn:H0; [done|].
  apply Z.ltb_ge in H0. apply lookup_app_l. unfold len in Hi. lia.
Qed.

Lemma lookupZ_push_here l (a : A) : lookupZ (push l a) (len l) = Some a.
Proof.
  unfold lookupZ, push, len.
  destruct (Z.of_nat (length l) <? 0) eqn:H0; [apply Z.ltb_lt in H0; lia|].
  rewrite Nat2Z.id. by rewrite list_lookup_middle.
Qed.

End Pushes.

Section Vertices.

Lemma get_push_lt cs c i : i < len cs -> get (push cs c) i = get cs i.
Proof.
  intros Hi. unfold get, push. destruct (i <? 0) eqn:H0; [done|].
  apply Z.ltb_ge in H0. rewrite lookup_app_l; [done|]. unfold len in Hi. lia.
Qed.

Lemma get_push_here cs c : get (push cs c) (len cs) = c.
Proof.
  unfold get, push, len.
  destruct (Z.of_nat (length cs) <? 0) eqn:H0; [apply Z.ltb_lt in H0; lia|].
  rewrite Nat2Z.id. by rewrite list_lookup_middle.
Qed.

Lemma notDayhikeAt_push_lt types t i :
  i < len types -> notDayhikeAt (push types t) i = notDayhikeAt types i.
Proof. intros Hi. unfold notDayhikeAt. by rewrite lookupZ_push_lt. Qed.

Lemma notDayhikeAt_push_here types t :
  notDayhikeAt (push types t) (len types) = negb (is_dayhike t).
Proof. unfold notDayhikeAt. by rewrite lookupZ_push_here. Qed.

Lemma findLastMainRouteVertexIndex_loop_push types t (n : nat) i :
  i < len types ->
  findLastMainRouteVertexIndex_loop (push types t) n i
  = findLastMainRouteVertexIndex_loop types n i.
Proof.
  revert i. induction n as [|n IH]; intros i Hi; [done|]. cbn.
  rewrite notDayhikeAt_push_lt by done.
  destruct (notDayhikeAt types i); [done|]. apply IH. lia.
Qed.

Lemma findLastMainRouteVertexIndex_push types t i :
  i < len types ->
  findLastMainRouteVertexIndex (push types t) i
  = findLastMainRouteVertexIndex types i.
Proof. apply findLastMainRouteVertexIndex_loop_push. Qed.

Lemma findLastMainRouteVertexIndex_here types i :
  0 <= i -> notDayhikeAt types i = true ->
  findLastMainRouteVertexIndex types i = i.
Proof.
  intros Hi Hn. unfold findLastMainRouteVertexIndex.
  destruct (Z.to_nat (i + 1)) as [|n] eqn:Hk; [lia|]. cbn. by rewrite Hn.
Qed.

Lemma findLastMainRouteVertexIndex_skip types i :
  0 <= i -> notDayhikeAt types i = false ->
  findLastMainRouteVertexIndex types i
  = findLastMainRouteVertexIndex types (i - 1).
Proof.
  intros Hi Hn. unfold findLastMainRouteVertexIndex.
  destruct (Z.to_nat (i + 1)) as [|n] eqn:Hk; [lia|]. cbn. rewrite Hn.
  f_equal. lia.
Qed.

Lemma findLastMainRouteVertexIndex_bounds types i :
  0 <= i ->
  0 <= findLastMainRouteVertexIndex types i <= i.
Proof.
  intros Hi. unfold findLastMainRouteVertexIndex.
  destruct (findLastMainRouteVertexIndex_loop_spec types
              (Z.to_nat (i + 1)) i ltac:(lia)) as (? & ? & _).
  lia.
Qed.

End Vertices.

(** ** What a click does *)

Section Handler.
Context (W : World).

Lemma getTrailSegmentBetween_shape prevRef currRef prevCoord currCoord seg :
  getTrailSegmentBetween W prevRef currRef prevCoord currCoord = Ok seg ->
  runsBetween prevCoord currCoord (coords seg) /\ 2 <= len (coords seg).
Proof.
  intros [->|(? & ? & _)]%getTrailSegmentBetween_cases; [|done].
  split; [apply straightLine_runsBetween|]. unfold len. cbn. lia.
Qed.

Lemma trailRefOf_snapToTrail coord r :
  snapToTrail W coord = Ok r -> exists ref, trailRefOf r = Ok ref.
Proof.
  intros Hr. unfold trailRefOf. destruct (snapped r) eqn:Hs; [|by eexists].
  destruct (snapToTrail_snapped W coord r Hr Hs)
    as (pixel & trails & clickPoint & nearest & d & bestTrail
        & Hp & Hq & Hpt & Hloop & ->).
  apply (for_of_invariant _ (snapInvariant W pixel clickPoint)
           (snapStep_invariant W pixel clickPoint) trails [])
    in Hloop;
    [|repeat split; by intros ? ? ? ?%elem_of_nil].
  destruct Hloop as (_ & (trail & Hin & -> & Hcand) & _). cbn. by eexists.
Qed.

(** What a click does to the session. *)
Lemma handleMapClickForRoute_cases e s :
  isDrawingRoute s = true ->
  let coord := position (lng e) (lat e) in
  let result :=
    if shiftKey e then Ok (unsnapped coord) else snapToTrail W coord in
  (result = Throw /\ handleMapClickForRoute W e s = (s, Throw))
  \/ exists r ref,
       result = Ok r
       /\ trailRefOf r = Ok ref
       /\ let s1 := pushTrailRef (pushVertex s r) ref in
          let currIdx := len (routeCoords s1) - 1 in
          let lastMainIdx :=
            findLastMainRouteVertexIndex (routeVertexTypes s1) (currIdx - 1) in
          let segment :=
            getTrailSegmentBetween W
              (refAt s1 lastMainIdx) (refAt s1 currIdx)
              (get (routeCoords s1) lastMainIdx)
              (get (routeCoords s1) currIdx) in
          (len (routeCoords s1) < 2
           /\ handleMapClickForRoute W e s = (s1, Ok ()))
          \/ (2 <= len (routeCoords s1)
              /\ ((handleMapClickForRoute W e s = (s1, Throw)
                   /\ (segment = Throw
                       \/ is_dayhike (currentPointType s) = true))
                  \/ (is_dayhike (currentPointType s) = true
                      /\ exists seg dist,
                           segment = Ok seg
                           /\ (if 2 <=? len (coords seg)
                               then line ← turf_lineString W (coords seg);
                                    turf_length W line
                               else Ok (of_Z 0)) = Ok dist
                           /\ handleMapClickForRoute W e s
                              = (pushSpur s1
                                   {| fromVertexIndex := lastMainIdx;
                                      spur_coords := coords seg;
                                      spur_distance := dist |}, Ok ()))
                  \/ (is_dayhike (currentPointType s) = false
                      /\ exists seg,
                           segment = Ok seg
                           /\ handleMapClickForRoute W e s
                              = (pushSegment s1 seg, Ok ())))).
Proof.
  intros Hdraw. cbn zeta. unfold handleMapClickForRoute. rewrite Hdraw.
  cbn [negb].
  set (coord := position (lng e) (lat e)).
  destruct (if shiftKey e then Ok (unsnapped coord) else snapToTrail W coord)
    as [r|] eqn:Hr; [|by left].
  right.
  assert (exists ref, trailRefOf r = Ok ref) as [ref Href].
  { destruct (shiftKey e).
    - injection Hr as <-. by eexists.
    - by eapply trailRefOf_snapToTrail. }
  exists r, ref. split; [done|]. split; [done|]. rewrite Href.
  set (s1 := pushTrailRef (pushVertex s r) ref). cbn zeta.
  destruct (2 <=? len (routeCoords s1)) eqn:Hlen.
  2:{ left. apply Z.leb_gt in Hlen. done. }
  apply Z.leb_le in Hlen. right. split; [done|].
  change (currentPointType s1) with (currentPointType s).
  destruct (is_dayhike (currentPointType s)) eqn:Hty.
  - destruct (getTrailSegmentBetween W _ _ _ _) as [segment|] eqn:Hseg;
      [|left; split; [done|by right]].
    destruct (if 2 <=? len (coords segment) then _ else _) as [dist|] eqn:Hd;
      [|left; split; [done|by right]].
    right. left. split; [done|]. by exists segment, dist.
  - set (prevIdx := len (routeCoords s1) - 1 - 1).
    assert ((if negb (notDayhikeAt (routeVertexTypes s1) prevIdx)
             then findLastMainRouteVertexIndex (routeVertexTypes s1) prevIdx
             else prevIdx)
            = findLastMainRouteVertexIndex (routeVertexTypes s1) prevIdx)
      as ->.
    { destruct (notDayhikeAt (routeVertexTypes s1) prevIdx) eqn:Hp; [|done].
      cbn. symmetry. apply findLastMainRouteVertexIndex_here; [|done].
      unfold prevIdx. lia. }
    destruct (getTrailSegmentBetween W _ _ _ _) as [segment|] eqn:Hseg;
      [|left; split; [done|by left]].
    right. right. split; [done|]. by exists segment.
Qed.

End Handler.

(** ** Chains of segments *)

Section Chains.





End Chains.

(** ** Counting vertices *)

Section Counting.




Lemma len_pos_nonempty {A} (l : list A) : 0 < len l -> l <> [].
Proof. by intros H ->. Qed.


End Counting.

(** ** The invariant of a session *)

Section Invariants.
Context (W : World).




Lemma lastMainVertex_pushed r ref s :
  len (routeVertexTypes s) = len (routeCoords s) ->
  lastMainVertex (pushTrailRef (pushVertex s r) ref)
  = if is_dayhike (currentPointType s)
    then findLastMainRouteVertexIndex
           (push (routeVertexTypes s) (currentPointType s))
           (len (routeCoords s) - 1)
    else len (routeCoords s).
Proof.
  intros Hlen. unfold lastMainVertex. cbn. rewrite len_push.
  replace (len (routeCoords s) + 1 - 1) with (len (routeVertexTypes s)) by lia.
  pose proof (notDayhikeAt_push_here (routeVertexTypes s) (currentPointType s))
    as Hhere.
  pose proof (len_nonneg (routeVertexTypes s)).
  destruct (is_dayhike (currentPointType s)); cbn in Hhere.
  - rewrite findLastMainRouteVertexIndex_skip by done. f_equal. lia.
  - rewrite findLastMainRouteVertexIndex_here by done. lia.
Qed.

Lemma anchor_pushed r ref s :
  len (routeVertexTypes s) = len (routeCoords s) ->
  findLastMainRouteVertexIndex
    (routeVertexTypes (pushTrailRef (pushVertex s r) ref))
    (len (routeCoords (pushTrailRef (pushVertex s r) ref)) - 1 - 1)
  = lastMainVertex s.
Proof.
  intros Hlen. cbn. rewrite len_push. unfold lastMainVertex.
  replace (len (routeCoords s) + 1 - 1 - 1) with (len (routeCoords s) - 1)
    by lia.
  apply findLastMainRouteVertexIndex_push. lia.
Qed.

Lemma lastMainVertex_bounds s :
  routeCoords s <> [] ->
  0 <= lastMainVertex s < len (routeCoords s).
Proof.
  intros Hne. unfold lastMainVertex.
  assert (0 < len (routeCoords s)).
  { destruct (routeCoords s); [done|]. unfold len. cbn. lia. }
  pose proof (findLastMainRouteVertexIndex_bounds (routeVertexTypes s)
                (len (routeCoords s) - 1) ltac:(lia)).
  lia.
Qed.




End Invariants.


(** ** Sessions *)

Section Sessions.
Context (W : World).

(** *** The parallel arrays *)




(** *** Counting *)


(** *** The chain of segments *)


End Sessions.

(** *** The display line *)

Section Assembled.

Lemma appendSegment_shape sc acc out :
  appendSegment sc acc = Ok out ->
  exists k : nat, (k <= 1)%nat /\ out = acc ++ drop k sc.
Proof.
  unfold appendSegment.
  destruct ((0 <? len sc) && (0 <? len acc)).
  - destruct (isDuplicate _ _) as [[]|]; cbn; [| |done]; intros [= <-].
    + exists 1%nat. split; [lia|]. exact (append_from_startJ acc sc 1).
    + exists 0%nat. split; [lia|]. exact (append_from_startJ acc sc 0).
  - cbn. intros [= <-].
    exists 1%nat. split; [lia|]. exact (append_from_startJ acc sc 1).
Qed.



End Assembled.

Section DisplayLine.

Context (W : World).

End DisplayLine.

(** ** Where the spurs are anchored *)

Section SpurInvariant.
Context (W : World).






End SpurInvariant.

(** ** Freehand routes *)

Section Freehand.
Context (W : World).

Lemma len_cons {A} (a : A) (l : list A) : len (a :: l) = len l + 1.
Proof. unfold len. cbn. lia. Qed.

Lemma mainVerticesFrom_push_types types t i cs :
  i + len cs <= len types ->
  mainVerticesFrom (push types t) i cs = mainVerticesFrom types i cs.
Proof.
  revert i. induction cs as [|c cs IH]; intros i Hi; [done|]. cbn.
  rewrite len_cons in Hi. pose proof (len_nonneg cs).
  rewrite notDayhikeAt_push_lt by lia.
  rewrite IH by lia. done.
Qed.

Lemma mainVerticesFrom_push types i cs c :
  mainVerticesFrom types i (push cs c)
  = mainVerticesFrom types i cs
    ++ (if notDayhikeAt types (i + len cs) then [c] else []).
Proof.
  revert i. induction cs as [|c' cs IH]; intros i; cbn.
  - change (len []) with 0. rewrite Z.add_0_r.
    by destruct (notDayhikeAt types i).
  - fold (push cs c). rewrite IH, len_cons.
    replace (i + 1 + len cs) with (i + (len cs + 1)) by lia.
    by destruct (notDayhikeAt types i).
Qed.

(** The main route goes through a new vertex unless it is a dayhike placed
    after the first vertex. *)
Lemma mainRouteVertices_pushed s s' c :
  len (routeVertexTypes s) = len (routeCoords s) ->
  routeCoords s' = push (routeCoords s) c ->
  routeVertexTypes s' = push (routeVertexTypes s) (currentPointType s) ->
  mainRouteVertices s'
  = mainRouteVertices s
    ++ (if is_dayhike (currentPointType s) && (1 <=? len (routeCoords s))
        then [] else [c]).
Proof.
  intros Hlen Hc' Ht'. unfold mainRouteVertices. rewrite Hc', Ht'.
  destruct (routeCoords s) as [|c0 cs] eqn:Hc.
  - cbn. by rewrite andb_false_r.
  - assert ((1 <=? len (c0 :: cs)) = true) as ->.
    { apply Z.leb_le. rewrite len_cons. pose proof (len_nonneg cs). lia. }
    rewrite andb_true_r.
    change (take 1 (push (c0 :: cs) c)) with [c0].
    change (drop 1 (push (c0 :: cs) c)) with (push cs c).
    change (take 1 (c0 :: cs)) with [c0]. change (drop 1 (c0 :: cs)) with cs.
    rewrite mainVerticesFrom_push. rewrite len_cons in Hlen.
    replace (1 + len cs) with (len (routeVertexTypes s)) by lia.
    rewrite notDayhikeAt_push_here.
    rewrite mainVerticesFrom_push_types by lia.
    destruct (is_dayhike (currentPointType s)); cbn.
    + by rewrite app_nil_r.
    + done.
Qed.

Lemma lastMainVertex_pushed' s s' c :
  len (routeVertexTypes s) = len (routeCoords s) ->
  routeCoords s' = push (routeCoords s) c ->
  routeVertexTypes s' = push (routeVertexTypes s) (currentPointType s) ->
  lastMainVertex s'
  = if is_dayhike (currentPointType s) && (1 <=? len (routeCoords s))
    then lastMainVertex s else len (routeCoords s).
Proof.
  intros Hlen Hc Ht.
  pose proof (lastMainVertex_pushed (unsnapped c) None s Hlen) as Hl.
  unfold lastMainVertex in *. rewrite Hc, Ht. cbn -[push] in Hl. rewrite Hl.
  pose proof (len_nonneg (routeCoords s)).
  destruct (is_dayhike (currentPointType s)) eqn:Hty; [|done].
  destruct (Z.leb_spec 1 (len (routeCoords s))); cbn.
  - apply findLastMainRouteVertexIndex_push. lia.
  - assert (routeCoords s = []) as Hc0 by (apply len_nil_inv; lia).
    assert (routeVertexTypes s = []) as Ht0
      by (apply len_nil_inv; rewrite Hlen; lia).
    by rewrite Hc0, Ht0.
Qed.

Lemma straightChain_snoc cs a c :
  last cs = Some a ->
  straightChain (cs ++ [c]) = straightChain cs ++ [straightLine a c].
Proof.
  induction cs as [|b cs IH]; [done|]. intros Hlast.
  destruct cs as [|b' cs]; [cbn in Hlast; by simplify_eq|].
  cbn in Hlast |- *. f_equal. by apply IH.
Qed.

Lemma refAt_None s i :
  Forall (fun ref => ref = None) (routeTrailRefs s) -> refAt s i = None.
Proof.
  intros Hall. unfold refAt, lookupZ. destruct (i <? 0); [done|].
  destruct (routeTrailRefs s !! Z.to_nat i) as [ref|] eqn:Hi; [|done].
  rewrite Forall_forall in Hall. apply Hall. by eapply list_elem_of_lookup_2.
Qed.

Lemma startRouteDrawing_shiftDrawn : shiftDrawn startRouteDrawing.
Proof. split; try done; by constructor. Qed.

(** A vertex pushed at [c], with the straight segment that leads to it
    when the main route goes on to it. *)
Lemma shiftDrawn_pushed s s' c :
  shiftDrawn s ->
  isPosition c ->
  isDrawingRoute s' = true ->
  routeCoords s' = push (routeCoords s) c ->
  routeVertexTypes s' = push (routeVertexTypes s) (currentPointType s) ->
  routeTrailRefs s' = push (routeTrailRefs s) None ->
  routeSnapped s' = push (routeSnapped s) false ->
  routeSegments s'
  = routeSegments s
    ++ (if is_dayhike (currentPointType s) || (len (routeCoords s) <? 1)
        then []
        else [straightLine (get (routeCoords s) (lastMainVertex s)) c]) ->
  shiftDrawn s'.
Proof.
  intros [Hdraw Htypes Hrefs Hsnapped Hpos Hsegs Hend] Hc Hd' Hc' Ht' Hr' Hs'
    Hsegs'.
  pose proof (mainRouteVertices_pushed s s' c Htypes Hc' Ht') as Hmv.
  pose proof (lastMainVertex_pushed' s s' c Htypes Hc' Ht') as Hlm.
  pose proof (len_nonneg (routeCoords s)) as Hnonneg.
  split.
  - done.
  - rewrite Hc', Ht'. rewrite !len_push. lia.
  - rewrite Hr'. apply Forall_app. split; [done|]. by apply Forall_singleton.
  - rewrite Hs'. apply Forall_app. split; [done|]. by apply Forall_singleton.
  - rewrite Hmv. apply Forall_app. split; [done|].
    destruct (_ && _); [done|]. by apply Forall_singleton.
  - rewrite Hsegs', Hmv, Hsegs.
    destruct (Z.leb_spec 1 (len (routeCoords s))) as [H1|H1].
    + rewrite (proj2 (Z.ltb_ge _ _)) by lia.
      rewrite andb_true_r, orb_false_r.
      destruct (is_dayhike (currentPointType s)); [by rewrite !app_nil_r|].
      symmetry. apply straightChain_snoc. apply Hend.
      apply len_pos_nonempty. lia.
    + rewrite (proj2 (Z.ltb_lt _ _)) by lia.
      rewrite andb_false_r, orb_true_r.
      assert (routeCoords s = []) as H0 by (apply len_nil_inv; lia).
      unfold mainRouteVertices. rewrite H0. done.
  - intros _. rewrite Hmv, Hlm, Hc'.
    destruct (Z.leb_spec 1 (len (routeCoords s))) as [H1|H1].
    + rewrite andb_true_r.
      assert (routeCoords s <> []) as Hne by (apply len_pos_nonempty; lia).
      destruct (is_dayhike (currentPointType s)).
      * rewrite app_nil_r, (Hend Hne).
        pose proof (lastMainVertex_bounds s Hne).
        by rewrite get_push_lt by lia.
      * rewrite last_snoc. by rewrite get_push_here.
    + rewrite andb_false_r, last_snoc. by rewrite get_push_here.
Qed.

Lemma handleMapClickForRoute_shiftDrawn e s :
  turf W = None \/ shiftKey e = true -> shiftDrawn s ->
  shiftDrawn (fst (handleMapClickForRoute W e s))
  /\ routeCoords (fst (handleMapClickForRoute W e s))
     = push (routeCoords s) (position (lng e) (lat e)).
Proof.
  intros Hshift Hs. pose proof Hs as [Hdraw Htypes Hrefs _ _ _ _].
  assert ((if shiftKey e
           then Ok (unsnapped (position (lng e) (lat e)))
           else snapToTrail W (position (lng e) (lat e)))
          = Ok (unsnapped (position (lng e) (lat e)))) as Hfree.
  { destruct (shiftKey e); [done|]. destruct Hshift as [Hturf|?]; [|done].
    unfold snapToTrail. by rewrite Hturf. }
  destruct (handleMapClickForRoute_cases W e s Hdraw)
    as [[Hthrow _]|(r & ref & Hr & Href & Hcases)];
    cbn zeta in *; rewrite Hfree in *; [done|].
  injection Hr as <-. cbn in Href. injection Href as <-.
  rewrite (anchor_pushed _ None s Htypes) in Hcases.
  set (coord := position (lng e) (lat e)) in *.
  set (s1 := pushTrailRef (pushVertex s (unsnapped coord)) None) in *.
  assert (Forall (fun ref => ref = None) (routeTrailRefs s1)) as Hrefs1.
  { apply Forall_app. split; [done|]. by apply Forall_singleton. }
  rewrite !(refAt_None s1) in Hcases by done.
  cbn [getTrailSegmentBetween] in Hcases.
  assert (len (routeCoords s1) = len (routeCoords s) + 1) as Hlen1
    by apply len_push.
  pose proof (len_nonneg (routeCoords s)) as Hnonneg.
  destruct Hcases as [[Hlt ->]|[Hge [[-> [Hseg|Hty]]
                                    |[(Hty & seg & dist & Hseg & Hdist & ->)
                                     |(Hty & seg & Hseg & ->)]]]];
    cbn [fst]; try done; (split; [|done]);
    apply (shiftDrawn_pushed s _ coord); try done.
  - rewrite (proj2 (Z.ltb_lt _ _)) by lia. rewrite orb_true_r.
    by rewrite app_nil_r.
  - rewrite Hty. by rewrite app_nil_r.
  - rewrite Hty. by rewrite app_nil_r.
  - rewrite Hty, (proj2 (Z.ltb_ge _ _)) by lia. cbn [orb].
    injection Hseg as <-. cbn -[push]. rewrite get_push_lt. 
    + replace (len (push (routeCoords s) coord) - 1) with (len (routeCoords s))
        by (rewrite len_push; lia).
      by rewrite get_push_here.
    + assert (routeCoords s <> []) as Hne by (apply len_pos_nonempty; lia).
      pose proof (lastMainVertex_bounds s Hne). lia.
Qed.

Lemma foldl_shiftDrawn evs s :
  Forall (fun ev => match ev with
                    | Click e => turf W = None \/ shiftKey e = true
                    | SelectPointType _ => True
                    end) evs ->
  shiftDrawn s ->
  shiftDrawn (foldl (handleEvent W) s evs)
  /\ routeCoords (foldl (handleEvent W) s evs)
     = routeCoords s ++ clickCoords evs.
Proof.
  revert s. induction evs as [|ev evs IH]; intros s Hevs Hs.
  - cbn. by rewrite app_nil_r.
  - apply Forall_cons in Hevs as [Hev Hevs]. cbn [foldl].
    destruct ev as [t|e].
    + destruct (IH (handleEvent W s (SelectPointType t)) Hevs) as [H1 H2];
        [by destruct Hs|]. done.
    + destruct (handleMapClickForRoute_shiftDrawn e s Hev Hs) as [Hs' Hc'].
      destruct (IH (handleEvent W s (Click e)) Hevs Hs') as [H1 H2].
      split; [done|]. rewrite H2. cbn [handleEvent]. rewrite Hc'.
      unfold push. by rewrite <- app_assoc.
Qed.

(** The straight segments of a polyline are assembled into the polyline. *)
Lemma assemble_straightChain a cs acc :
  wellFormed (a :: cs) -> last acc = Some a ->
  for_of (coords <$> straightChain (a :: cs)) appendSegment acc
  = Ok (acc ++ cs).
Proof.
  revert a acc. induction cs as [|b cs IH]; intros a acc Hwf Hlast.
  - cbn. by rewrite app_nil_r.
  - change (straightChain (a :: b :: cs))
      with (straightLine a b :: straightChain (b :: cs)).
    rewrite fmap_cons. cbn [for_of].
    apply Forall_cons in Hwf as [Ha Hwf].
    destruct a as [|lng lat]; [done|].
    rewrite (appendSegment_junction _ acc (position lng lat)
               (position lng lat) true Hlast); [|done|apply isDuplicate_refl].
    change (Ok ?x ≫= ?f) with (f x). cbn beta.
    change (drop 1 (coords (straightLine (position lng lat) b))) with [b].
    rewrite IH; [|done|by rewrite last_snoc].
    by rewrite <- app_assoc.
Qed.

Lemma mainRouteVertices_main s :
  notDayhikeAt (routeVertexTypes s) 0 = true ->
  mainRouteVertices s
  = mainVerticesFrom (routeVertexTypes s) 0 (routeCoords s).
Proof.
  intros H0. unfold mainRouteVertices.
  destruct (routeCoords s) as [|c cs]; [done|]. cbn. by rewrite H0.
Qed.

(** X13.  A freehand route.  When no click is snapped (turf is not loaded,
    or the shift key is down at every click), the vertices are the
    coordinates clicked, none is marked as snapped, the segments are the
    straight segments from each vertex of the main route to the next, and,
    once there is a segment, the display line is the polyline of the
    vertices of the main route: the first vertex and the later vertices
    that are not dayhikes (a place clicked twice is there twice).  When the
    first vertex is not a dayhike these are the vertices that are not
    dayhikes. *)
Theorem freehand_route (evs : list Event) :
  freehand W evs ->
  let s := runSession W evs in
  routeCoords s = clickCoords evs
  /\ Forall (fun b => b = false) (routeSnapped s)
  /\ routeSegments s = straightChain (mainRouteVertices s)
  /\ (routeSegments s <> [] ->
      buildMainRouteDisplayCoords s = Ok (mainRouteVertices s))
  /\ (notDayhikeAt (routeVertexTypes s) 0 = true ->
      mainRouteVertices s
      = mainVerticesFrom (routeVertexTypes s) 0 (routeCoords s)).
Proof.
  intros Hfree.
  assert (Forall (fun ev => match ev with
                            | Click e => turf W = None \/ shiftKey e = true
                            | SelectPointType _ => True
                            end) evs) as Hevs.
  { destruct Hfree as [Hturf|Hshift].
    - apply Forall_forall. intros [t|e] _; [done|by left].
    - eapply Forall_impl; [done|]. intros [t|e]; [done|by right]. }
  destruct (foldl_shiftDrawn evs startRouteDrawing Hevs
              startRouteDrawing_shiftDrawn) as [[_ _ _ Hsn Hpos Hsegs _] Hc].
  cbn zeta. split; [done|]. split; [done|]. split; [done|].
  split; [|apply mainRouteVertices_main].
  unfold buildMainRouteDisplayCoords. fold (runSession W evs) in *.
  rewrite Hsegs.
  destruct (mainRouteVertices (runSession W evs)) as [|a [|b cs]]; [done..|].
  intros _.
  change (straightChain (a :: b :: cs))
    with (straightLine a b :: straightChain (b :: cs)).
  cbv beta iota. change (coords (straightLine a b)) with [a; b].
  apply Forall_cons in Hpos as [_ Hpos].
  by rewrite (assemble_straightChain b cs [a; b]).
Qed.

End Freehand.

(** ** Dayhikes without turf *)

Section WithoutTurf.
Context (W : World).

(** X14.  A dayhike click without turf.  When turf is not loaded, a click
    in dayhike mode after the first vertex makes the handler throw after it
    has recorded the vertex: the vertex is left in the four arrays, unsnapped
    and at the coordinate clicked, and no spur is recorded for it. *)
Theorem dayhike_click_without_turf e s :
  turf W = None ->
  isDrawingRoute s = true ->
  1 <= len (routeCoords s) ->
  is_dayhike (currentPointType s) = true ->
  handleMapClickForRoute W e s
  = (pushTrailRef
       (pushVertex s (unsnapped (position (lng e) (lat e)))) None, Throw).
Proof.
  intros Hturf Hdraw Hlen Hty.
  assert ((if shiftKey e
           then Ok (unsnapped (position (lng e) (lat e)))
           else snapToTrail W (position (lng e) (lat e)))
          = Ok (unsnapped (position (lng e) (lat e)))) as Hfree.
  { destruct (shiftKey e); [done|]. unfold snapToTrail. by rewrite Hturf. }
  unfold handleMapClickForRoute. rewrite Hdraw. cbn [negb]. rewrite Hfree.
  cbn [trailRefOf snapped unsnapped].
  set (s1 := pushTrailRef (pushVertex s _) None).
  assert (len (routeCoords s1) = len (routeCoords s) + 1) as Hlen1
    by apply len_push.
  rewrite (proj2 (Z.leb_le 2 (len (routeCoords s1)))) by lia.
  change (currentPointType s1) with (currentPointType s). rewrite Hty.
  destruct (getTrailSegmentBetween W _ _ _ _) as [seg|] eqn:Hseg; [|done].
  apply getTrailSegmentBetween_shape in Hseg as [_ Hlen2].
  rewrite (proj2 (Z.leb_le 2 (len (coords seg)))) by lia.
  unfold turf_lineString, the_turf. by rewrite Hturf.
Qed.

End WithoutTurf.

(** ** Redrawing the route in progress *)

Section Redrawing.

Lemma foldl_push_filter {A B} (c : A -> bool) (g : A -> B) (l : list A) acc :
  foldl (fun acc a => if c a then push acc (g a) else acc) acc l
  = acc ++ (g <$> filter (fun a => c a) l).
Proof.
  revert acc. induction l as [|a l IH]; intros acc; cbn [foldl].
  - by rewrite app_nil_r.
  - rewrite IH, filter_cons. destruct (c a).
    + rewrite decide_True by done. unfold push. by rewrite <- app_assoc.
    + by rewrite decide_False by naive_solver.
Qed.

Lemma foldl_push_all {A B} (g : A -> B) (l : list A) acc :
  foldl (fun acc a => push acc (g a)) acc l = acc ++ (g <$> l).
Proof.
  revert acc. induction l as [|a l IH]; intros acc; cbn.
  - by rewrite app_nil_r.
  - rewrite IH. unfold push. by rewrite <- app_assoc.
Qed.

Lemma foldl_markers (s : Session) (l : list (nat * JsCoord)) acc :
  foldl (fun features '(i, coord) =>
           push features
             {| draw_geometry := Point coord;
                draw_properties :=
                  VertexProperties
                    (default false (routeSnapped s !! i))
                    (default route (routeVertexTypes s !! i)) |}) acc l
  = acc ++ ((fun '(i, coord) =>
               {| draw_geometry := Point coord;
                  draw_properties :=
                    VertexProperties
                      (default false (routeSnapped s !! i))
                      (default route (routeVertexTypes s !! i)) |}) <$> l).
Proof.
  revert acc. induction l as [|[i c] l IH]; intros acc; cbn [foldl].
  - by rewrite app_nil_r.
  - rewrite IH. unfold push. by rewrite <- app_assoc.
Qed.

Lemma omap_markerCoord_markers (s : Session) (l : list (nat * JsCoord)) :
  omap markerCoord
    ((fun '(i, coord) =>
        {| draw_geometry := Point coord;
           draw_properties :=
             VertexProperties
               (default false (routeSnapped s !! i))
               (default route (routeVertexTypes s !! i)) |}) <$> l)
  = l.*2.
Proof. induction l as [|[i c] l IH]; [done|]. cbn. by rewrite IH. Qed.

Lemma imap_pair_snd {A} (l : list A) (g : nat -> nat) :
  (imap (fun i a => (g i, a)) l).*2 = l.
Proof.
  revert g. induction l as [|a l IH]; intros g; [done|]. cbn. f_equal.
  apply (IH (g ∘ S)).
Qed.

(** X15.  What is drawn while the route is in progress.  Whenever
    [updateRouteDrawing] builds its features, with or without a preview
    coordinate: every line among them (the main line, the spurs, the
    preview spur) has two coordinates or more, and the vertex markers are
    the vertices placed, one for each and in their order. *)
Theorem updateRouteDrawing_features (s : Session) (previewCoord : JsCoord)
    (features : list DrawFeature) :
  updateRouteDrawing s previewCoord = Ok features ->
  (forall f line,
     f ∈ features -> draw_geometry f = LineString line -> 2 <= len line)
  /\ omap markerCoord features = routeCoords s.
Proof.
  unfold updateRouteDrawing.
  destruct (buildMainRouteDisplayCoords s) as [mainCoords|]; cbn -[push]; [|done].
  set (mainCoords' := if given previewCoord && _ then _ else _).
  rewrite (foldl_push_filter (fun spur => 2 <=? len (spur_coords spur))
             (fun spur => {| draw_geometry := LineString (spur_coords spur);
                             draw_properties := LineProperties segment_dayhike |})).
  rewrite foldl_markers.
  intros [= <-].
  set (lines := if given previewCoord && is_dayhike _ && _ then _ else _).
  assert (Forall (fun f => validLine (draw_geometry f)) lines
          /\ omap markerCoord lines = []) as [Hlines Hnone].
  { assert (Forall (fun f => validLine (draw_geometry f))
              (if 2 <=? len mainCoords'
               then [{| draw_geometry := LineString mainCoords';
                        draw_properties := LineProperties segment_main |}]
               else [])
            /\ omap markerCoord
                 (if 2 <=? len mainCoords'
                  then [{| draw_geometry := LineString mainCoords';
                           draw_properties := LineProperties segment_main |}]
                  else []) = []) as [Hm1 Hm2].
    { destruct (Z.leb_spec 2 (len mainCoords')); [|done].
      split; [|done]. by apply Forall_singleton. }
    assert (forall spurs : list DayhikeSpur,
      Forall (fun f => validLine (draw_geometry f))
        ((fun spur => {| draw_geometry := LineString (spur_coords spur);
                         draw_properties := LineProperties segment_dayhike |})
         <$> filter (fun spur => 2 <=? len (spur_coords spur)) spurs)
      /\ omap markerCoord
           ((fun spur => {| draw_geometry := LineString (spur_coords spur);
                         draw_properties := LineProperties segment_dayhike |})
         <$> filter (fun spur => 2 <=? len (spur_coords spur)) spurs) = [])
      as Hspurs.
    { intros spurs. split.
      - apply Forall_fmap, Forall_forall.
        intros spur [Hspur _]%list_elem_of_filter. cbn.
        by apply Z.leb_le, Is_true_true.
      - induction (filter _ spurs) as [|spur l IH]; [done|]. done. }
    destruct (Hspurs (routeDayhikeSegments s)) as [Hs1 Hs2].
    subst lines. unfold push. cbn [app].
    destruct (given previewCoord && is_dayhike (currentPointType s)
              && (1 <=? len (routeCoords s))).
    - rewrite !omap_app, Hm2, Hs2. split; [|done].
      repeat (apply Forall_app; split); try done.
      apply Forall_singleton. cbn. unfold len. cbn. lia.
    - rewrite !omap_app, Hm2, Hs2. split; [|done].
      by apply Forall_app. }
  split.
  - intros f line Hf Hline.
    apply elem_of_app in Hf as [Hf|Hf].
    + rewrite Forall_forall in Hlines. specialize (Hlines f Hf).
      by rewrite Hline in Hlines.
    + apply list_elem_of_fmap in Hf as ([i c] & -> & _). done.
  - rewrite omap_app, Hnone, omap_markerCoord_markers.
    apply (imap_pair_snd _ id).
Qed.

End Redrawing.

(** ** Finishing the route *)

Section Finishing.
Context (W : World).

Lemma addFeature_Some g p t :
  addFeature g p (Some t)
  = (Some {| features := push (features t) {| geometry := g; properties := p |};
             dates := dates t |},
     Ok (len (features t))).
Proof. unfold addFeature. rewrite len_push. do 2 f_equal. lia. Qed.

(** The loop over the spurs adds the features of the spurs of two
    coordinates or more. *)
Lemma addSpurs_Some routeIdx spurs t :
  for_of_mgr spurs
    (fun spur _ =>
       if 2 <=? len (spur_coords spur) then
         mgr_bind
           (addFeature (LineString (spur_coords spur)) (SpurProperties routeIdx))
           (fun _ => mgr_ret ())
       else mgr_ret ()) () (Some t)
  = (Some {| features :=
               features t
               ++ (spurFeature routeIdx
                     <$> filter (fun spur => 2 <= len (spur_coords spur)) spurs);
             dates := dates t |}, Ok ()).
Proof.
  revert t. induction spurs as [|spur spurs IH]; intros t.
  - cbn. rewrite app_nil_r. by destruct t.
  - cbn [for_of_mgr]. unfold mgr_bind at 1. rewrite filter_cons.
    destruct (Z.leb_spec 2 (len (spur_coords spur))) as [Hle|Hlt].
    + rewrite decide_True by done. unfold mgr_bind at 1.
      rewrite addFeature_Some. cbn [mgr_ret]. rewrite IH.
      cbn [features dates fmap list_fmap].
      unfold push. by rewrite <- app_assoc.
    + rewrite decide_False by lia. cbn [mgr_ret]. apply IH.
Qed.

Lemma daysBefore_succ types i :
  0 <= i ->
  daysBefore types (i + 1)
  = daysBefore types i
    + match lookupZ types i with
      | Some t => if takesDay t then 1 else 0
      | None => 0
      end.
Proof.
  intros Hi. unfold daysBefore, lookupZ.
  rewrite (proj2 (Z.ltb_ge i 0)) by lia.
  replace (Z.to_nat (i + 1)) with (S (Z.to_nat i)) by lia.
  destruct (types !! Z.to_nat i) as [t|] eqn:Ht.
  - rewrite (take_S_r _ _ _ Ht), filter_app. unfold len. rewrite length_app.
    rewrite filter_cons, filter_nil. destruct (takesDay t).
    + rewrite decide_True by done. cbn. lia.
    + rewrite decide_False by naive_solver. cbn. lia.
  - apply lookup_ge_None in Ht. rewrite !take_ge by lia. lia.
Qed.

(** The loop over the vertices adds the point features of the special
    vertices, and counts the days. *)
Lemma addPoints_Some s routeIdx tripDates (n : nat) i t :
  0 <= i ->
  for_of_mgr (seqZ i (Z.of_nat n)) (addPoint s routeIdx tripDates)
    (daysBefore (routeVertexTypes s) i) (Some t)
  = (Some {| features :=
               features t
               ++ omap (pointFeatureAt s routeIdx tripDates)
                    (seqZ i (Z.of_nat n));
             dates := dates t |},
     Ok (daysBefore (routeVertexTypes s) (i + Z.of_nat n))).
Proof.
  revert i t. induction n as [|n IH]; intros i t Hi.
  - cbn. rewrite app_nil_r, Z.add_0_r. by destruct t.
  - rewrite (seqZ_cons i) by lia. cbn [for_of_mgr omap list_omap].
    replace (Z.pred (Z.of_nat (S n))) with (Z.of_nat n) by lia.
    replace (i + Z.of_nat (S n)) with (Z.succ i + Z.of_nat n) by lia.
    unfold mgr_bind at 1. unfold addPoint, pointFeatureAt.
    pose proof (daysBefore_succ (routeVertexTypes s) i Hi) as Hsucc.
    replace (i + 1) with (Z.succ i) in Hsucc by lia.
    destruct (lookupZ (routeVertexTypes s) i) as [[]|] eqn:Hty;
      cbn in Hsucc; unfold mgr_bind at 1; cbn -[seqZ];
      rewrite ?Z.add_0_r in Hsucc; rewrite <- Hsucc, IH by lia; cbn -[seqZ];
      unfold push; by rewrite <- ?app_assoc.
Qed.

(** What [addRouteFeatures] does to a trip. *)
Lemma addRouteFeatures_Some s t :
  addRouteFeatures W s (Some t)
  = match buildMainRouteDisplayCoords s with
    | Throw => (Some t, Throw)
    | Ok mainDisplayCoords =>
        match computeMainRouteDistance W s with
        | Throw => (Some t, Throw)
        | Ok main =>
            let routeIdx := len (features t) in
            (Some {| features :=
                       features t
                       ++ [{| geometry :=
                                LineString
                                  (if 2 <=? len mainDisplayCoords
                                   then mainDisplayCoords else routeCoords s);
                              properties :=
                                RouteProperties (routeVertexTypes s)
                                  (routeSnapped s) (routeCoords s) main
                                  (computeDayhikeDistance s) |}]
                       ++ (spurFeature routeIdx
                             <$> filter (fun spur => 2 <= len (spur_coords spur))
                                   (routeDayhikeSegments s))
                       ++ omap (pointFeatureAt s routeIdx (dates t))
                            (indices (routeCoords s));
                     dates := dates t |},
             Ok routeIdx)
        end
    end.
Proof.
  unfold addRouteFeatures. unfold mgr_bind at 1. unfold mgr_lift at 1.
  destruct (buildMainRouteDisplayCoords s) as [mainDisplayCoords|]; [|done].
  unfold mgr_bind at 1. unfold mgr_lift at 1.
  destruct (computeMainRouteDistance W s) as [main|]; [|done].
  unfold mgr_bind at 1. rewrite addFeature_Some.
  unfold mgr_bind at 1. rewrite addSpurs_Some.
  unfold mgr_bind at 1. cbn [getTripDateRange dates].
  unfold mgr_bind at 1. unfold indices.
  pose proof (addPoints_Some s (len (features t)) (dates t)
                (length (routeCoords s)) 0) as Hpoints.
  unfold len at 3 4. 
  change (daysBefore (routeVertexTypes s) 0) with 0 in Hpoints.
  rewrite Hpoints by lia. cbn -[seqZ]. unfold push. 
  by rewrite <- !app_assoc.
Qed.


End Finishing.

Section Finished.
Context (W : World).


(** X17.  The features of a finished route.  When [finishRouteDrawing]
    returns for a session of two vertices or more, the trip holds, after
    the features it had, the route feature and then the features that
    belong to it.  The route feature is a LineString of two coordinates or
    more that carries copies of the vertex types, snapped flags and
    coordinates of the session; it sits at the index the trip had features
    before; every feature after it is a spur or a special point whose
    [route_index] is that index; and every spur among them is a LineString
    of two coordinates or more. *)
Theorem finishRouteDrawing_features s t s' trip' :
  2 <= len (routeCoords s) ->
  finishRouteDrawing W s (Some t) = (s', trip', Ok ()) ->
  exists line main routeFeature added,
    trip' = Some {| features := features t ++ routeFeature :: added;
                    dates := dates t |}
    /\ routeFeature
       = {| geometry := LineString line;
            properties :=
              RouteProperties (routeVertexTypes s) (routeSnapped s)
                (routeCoords s) main (computeDayhikeDistance s) |}
    /\ 2 <= len line
    /\ computeMainRouteDistance W s = Ok main
    /\ lookupZ (features t ++ routeFeature :: added) (len (features t))
       = Some routeFeature
    /\ Forall (linkedTo (len (features t))) added
    /\ Forall (fun f => validLine (geometry f)) added.
Proof.
  intros Hge. unfold finishRouteDrawing.
  rewrite (proj2 (Z.ltb_ge _ _)) by lia. rewrite addRouteFeatures_Some.
  destruct (buildMainRouteDisplayCoords s) as [mainDisplayCoords|]; [|done].
  destruct (computeMainRouteDistance W s) as [main|]; [|done].
  cbn zeta. intros [= <- <-].
  eexists _, main, _, _. split; [done|]. split; [done|]. split.
  { destruct (Z.leb_spec 2 (len mainDisplayCoords)); lia. }
  split; [done|]. split.
  { unfold lookupZ, len. rewrite (proj2 (Z.ltb_ge _ _)) by lia.
    rewrite Nat2Z.id. by rewrite list_lookup_middle. }
  split.
  - apply Forall_app. split.
    + apply Forall_fmap. by apply Forall_true.
    + apply Forall_forall. intros f (i & _ & Hf)%list_elem_of_omap.
      unfold pointFeatureAt in Hf.
      destruct (lookupZ (routeVertexTypes s) i) as [[]|]; by simplify_eq.
  - apply Forall_app. split.
    + apply Forall_fmap. apply Forall_forall.
      intros spur [Hspur _]%list_elem_of_filter. done.
    + apply Forall_forall. intros f (i & _ & Hf)%list_elem_of_omap.
      unfold pointFeatureAt in Hf.
      destruct (lookupZ (routeVertexTypes s) i) as [[]|]; by simplify_eq.
Qed.

Lemma filter_isPoint_spurs routeIdx (spurs : list DayhikeSpur) :
  filter (fun f => isPoint f) (spurFeature routeIdx <$> spurs) = [].
Proof.
  induction spurs as [|spur spurs IH]; [done|].
  rewrite fmap_cons, filter_cons. by rewrite decide_False by (cbn; naive_solver).
Qed.

Lemma filter_isPoint_points s routeIdx tripDates (is_ : list Z) :
  filter (fun f => isPoint f) (omap (pointFeatureAt s routeIdx tripDates) is_)
  = omap (pointFeatureAt s routeIdx tripDates) is_.
Proof.
  induction is_ as [|i is_ IH]; [done|]. cbn [omap list_omap].
  destruct (pointFeatureAt s routeIdx tripDates i) as [f|] eqn:Hf; [|done].
  rewrite filter_cons, IH. rewrite decide_True; [done|].
  unfold pointFeatureAt in Hf.
  destruct (lookupZ (routeVertexTypes s) i) as [[]|]; by simplify_eq.
Qed.

(** X18.  The special points and their dates.  When [finishRouteDrawing]
    returns for a session of two vertices or more, the Point features it
    adds are, in the order of the vertices, one for each vertex whose type
    is not "route", at the coordinate of the vertex, with its type and
    its index; the date of the point is the day of the trip (or the empty
    string past the last day) that is as many days after the first as
    there are camps and rest days among the vertices before it: a dayhike
    takes the date of the day it is walked on and does not use it up. *)
Theorem finishRouteDrawing_points s t s' t' :
  2 <= len (routeCoords s) ->
  finishRouteDrawing W s (Some t) = (s', Some t', Ok ()) ->
  filter (fun f => isPoint f) (drop (length (features t)) (features t'))
  = omap (pointFeatureAt s (len (features t)) (dates t))
      (indices (routeCoords s)).
Proof.
  intros Hge. unfold finishRouteDrawing.
  rewrite (proj2 (Z.ltb_ge _ _)) by lia. rewrite addRouteFeatures_Some.
  destruct (buildMainRouteDisplayCoords s) as [mainDisplayCoords|]; [|done].
  destruct (computeMainRouteDistance W s) as [main|]; [|done].
  cbn zeta. intros [= <- <-]. cbn [features].
  rewrite drop_app_length. cbn [app].
  rewrite filter_cons, decide_False by (cbn; naive_solver).
  by rewrite filter_app, filter_isPoint_spurs, filter_isPoint_points.
Qed.

End Finished.


(** ** Corridor connections *)

Section Corridor.
Context (W : World).

Lemma singleTrailConnect_inv p1 p2 prevPt currPt prevCoord currCoord trail seg :
  singleTrailConnect W p1 p2 prevPt currPt prevCoord currCoord trail
  = Ok (Some seg) ->
  exists nearPrev nearCurr,
    passesNear W p1 prevPt trail nearPrev
    /\ passesNear W p2 currPt trail nearCurr
    /\ seg = {| coords :=
                  extractTrailSlice (geometry_coordinates trail)
                    prevCoord (nearest_index nearPrev)
                    currCoord (nearest_index nearCurr);
                isTrailSnapped := true |}.
Proof.
  unfold singleTrailConnect.
  destruct (negb _ || _) eqn:Heligible; [done|].
  apply orb_false_iff in Heligible as [Hty%negb_false_iff Hlen%Z.ltb_ge].
  apply String.eqb_eq in Hty.
  destruct (trailExtent _) as [extent|]; cbn; [|done].
  destruct (nearExtent prevCoord extent) as [prevNear|]; cbn; [|done].
  destruct (nearExtent currCoord extent) as [currNear|]; cbn; [|done].
  destruct (_ || _); [done|].
  destruct (turf_lineString W _) as [line|] eqn:Hline; cbn; [|done].
  destruct (turf_nearestPointOnLine W line prevPt) as [nearPrev|] eqn:Hn1;
    cbn; [|done].
  destruct (turf_nearestPointOnLine W line currPt) as [nearCurr|] eqn:Hn2;
    cbn; [|done].
  destruct (project W (nearest_coordinates nearPrev)) as [px1|] eqn:Hp1;
    cbn; [|done].
  destruct (project W (nearest_coordinates nearCurr)) as [px2|] eqn:Hp2;
    cbn; [|done].
  destruct (_ && _) eqn:Hnear; [|done].
  apply andb_true_iff in Hnear as [Hd1 Hd2].
  destruct (2 <=? _); cbn; [|done].
  intros [= <-]. exists nearPrev, nearCurr.
  split; [|split; [|done]]; (split; [done|]; split; [done|]).
  - by exists line, px1.
  - by exists line, px2.
Qed.

Lemma collectCandidate_near p1 p2 prevPt currPt seen keyed cands cands' :
  candidatesNear W p1 p2 prevPt currPt seen cands ->
  collectCandidate W p1 p2 prevPt currPt keyed cands = Ok cands' ->
  candidatesNear W p1 p2 prevPt currPt (seen ++ [keyed]) cands'.
Proof.
  destruct keyed as [key trail], cands as [prevCandidates currCandidates].
  intros [Hprev Hcurr].
  assert (candidatesNear W p1 p2 prevPt currPt (seen ++ [(key, trail)])
            (prevCandidates, currCandidates)) as Hold.
  { split; (eapply Forall_impl; [done|]); intros cand [Hin ?];
      (split; [|done]); apply elem_of_app; by left. }
  unfold collectCandidate.
  destruct (negb _ || _) eqn:Heligible; [by intros [= <-]|].
  apply orb_false_iff in Heligible as [Hty%negb_false_iff Hlen%Z.ltb_ge].
  apply String.eqb_eq in Hty.
  destruct (turf_lineString W _) as [line|] eqn:Hline; cbn; [|done].
  destruct (turf_nearestPointOnLine W line prevPt) as [nearPrev|] eqn:Hn1;
    cbn; [|done].
  destruct (turf_nearestPointOnLine W line currPt) as [nearCurr|] eqn:Hn2;
    cbn; [|done].
  destruct (project W (nearest_coordinates nearPrev)) as [px1|] eqn:Hp1;
    cbn; [|done].
  destruct (project W (nearest_coordinates nearCurr)) as [px2|] eqn:Hp2;
    cbn; [|done].
  intros [= <-]. destruct Hold as [Hprev' Hcurr']. cbn in Hprev', Hcurr'.
  assert ((key, trail) ∈ seen ++ [(key, trail)]) as Hin.
  { apply elem_of_app. right. by apply list_elem_of_singleton. }
  split; cbn.
  - destruct (num_le (corridorPixelDistance px1 p1) corridorRadius) eqn:Hd;
      [|done].
    apply Forall_app. split; [done|]. apply Forall_singleton. cbn.
    split; [done|]. split; [done|]. split; [done|]. by exists line, px1.
  - destruct (num_le (corridorPixelDistance px2 p2) corridorRadius) eqn:Hd;
      [|done].
    apply Forall_app. split; [done|]. apply Forall_singleton. cbn.
    split; [done|]. split; [done|]. split; [done|]. by exists line, px2.
Qed.

Lemma junctionConnect_inv prevCoord currCoord pc cc ai bi seg :
  junctionConnect W prevCoord currCoord pc cc ai bi = Ok (Some seg) ->
  exists gapM,
    distMeters W (get (geometry_coordinates (trail pc)) ai)
      (get (geometry_coordinates (trail cc)) bi) = Ok gapM
    /\ num_gt gapM MERGE_GAP_TOLERANCE_METERS = false
    /\ seg = {| coords :=
                  extractTrailSlice (geometry_coordinates (trail pc))
                    prevCoord (nearest_index (nearPoint pc))
                    (get (geometry_coordinates (trail pc)) ai) ai
                  ++ drop 1
                       (extractTrailSlice (geometry_coordinates (trail cc))
                          (get (geometry_coordinates (trail pc)) ai) bi
                          currCoord (nearest_index (nearPoint cc)));
                isTrailSnapped := true |}.
Proof.
  unfold junctionConnect.
  destruct (distMeters W _ _) as [gapM|]; cbn; [|done].
  destruct (num_gt gapM _) eqn:Hgap; [done|].
  destruct (_ && _); cbn; [|done].
  intros [= <-]. by exists gapM.
Qed.

Lemma elem_of_indices {A} (l : list A) i : i ∈ indices l <-> 0 <= i < len l.
Proof. unfold indices. rewrite elem_of_seqZ. lia. Qed.

(** X20.  What a corridor connection is.  Whenever [tryConnectTrails]
    returns a segment, the segment is trail-snapped and is one of two
    things.  Either the slice of one trail of the corridor, a LineString of
    two coordinates or more whose nearest points to the two vertices are
    both within twice the snap radius of them on the screen, between the
    indices of these nearest points.  Or the stitch of two trails that sit
    at two different places of the corridor, the first passing as near to
    the previous vertex and the second to the current one, at a vertex of
    each whose distance is not more than the merge tolerance: the slice of
    the first trail up to its junction vertex, followed by the slice of the
    second from its junction vertex on without its first coordinate. *)
Theorem tryConnectTrails_connection prevRef currRef prevCoord currCoord seg :
  tryConnectTrails W prevRef currRef prevCoord currCoord = Ok (Some seg) ->
  exists p1 p2 corridorTrails prevPt currPt,
    project W prevCoord = Ok p1
    /\ project W currCoord = Ok p2
    /\ queryRenderedFeatures W (corridorBbox p1 p2) = Ok corridorTrails
    /\ turf_point W prevCoord = Ok prevPt
    /\ turf_point W currCoord = Ok currPt
    /\ isTrailSnapped seg = true
    /\ ((exists trail nearPrev nearCurr,
           trail ∈ corridorTrails
           /\ passesNear W p1 prevPt trail nearPrev
           /\ passesNear W p2 currPt trail nearCurr
           /\ coords seg
              = extractTrailSlice (geometry_coordinates trail)
                  prevCoord (nearest_index nearPrev)
                  currCoord (nearest_index nearCurr))
        \/ (exists (i j : nat) trailA trailB nearPrev nearCurr ai bi gapM,
              i <> j
              /\ corridorTrails !! i = Some trailA
              /\ corridorTrails !! j = Some trailB
              /\ passesNear W p1 prevPt trailA nearPrev
              /\ passesNear W p2 currPt trailB nearCurr
              /\ 0 <= ai < len (geometry_coordinates trailA)
              /\ 0 <= bi < len (geometry_coordinates trailB)
              /\ distMeters W (get (geometry_coordinates trailA) ai)
                   (get (geometry_coordinates trailB) bi) = Ok gapM
              /\ num_gt gapM MERGE_GAP_TOLERANCE_METERS = false
              /\ coords seg
                 = extractTrailSlice (geometry_coordinates trailA)
                     prevCoord (nearest_index nearPrev)
                     (get (geometry_coordinates trailA) ai) ai
                   ++ drop 1
                        (extractTrailSlice (geometry_coordinates trailB)
                           (get (geometry_coordinates trailA) ai) bi
                           currCoord (nearest_index nearCurr)))).
Proof.
  unfold tryConnectTrails.
  destruct (project W prevCoord) as [p1|] eqn:Hp1; cbn; [|done].
  destruct (project W currCoord) as [p2|] eqn:Hp2; cbn; [|done].
  destruct (queryRenderedFeatures W _) as [corridorTrails|] eqn:Hq; cbn;
    [|done].
  destruct (turf_point W prevCoord) as [prevPt|] eqn:Hpt1; cbn; [|done].
  destruct (turf_point W currCoord) as [currPt|] eqn:Hpt2; cbn; [|done].
  destruct (first_return corridorTrails _) as [[r|]|] eqn:Hsingle; cbn;
    [| |done].
  - intros [= <-].
    apply first_return_Some in Hsingle as (trail & Hin & Htrail).
    apply singleTrailConnect_inv in Htrail as (nearPrev & nearCurr & ? & ? & ->).
    exists p1, p2, corridorTrails, prevPt, currPt.
    do 5 (split; [done|]). split; [done|]. left.
    by exists trail, nearPrev, nearCurr.
  - destruct (for_of _ _ _) as [[prevCandidates currCandidates]|] eqn:Hcands;
      cbn; [|done].
    apply (for_of_invariant _ (candidatesNear W p1 p2 prevPt currPt)
             (fun seen keyed cands cands' =>
                collectCandidate_near p1 p2 prevPt currPt seen keyed cands cands')
             _ []) in Hcands; [|by split].
    rewrite app_nil_l in Hcands. destruct Hcands as [Hprev Hcurr].
    cbn in Hprev, Hcurr. rewrite Forall_forall in Hprev, Hcurr.
    unfold twoHopConnect.
    intros (pc & Hpc_in & Hpc)%first_return_Some.
    apply first_return_Some in Hpc as (cc & Hcc_in & Hcc).
    destruct (Nat.eqb_spec (trail_key pc) (trail_key cc)) as [|Hkeys]; [done|].
    apply first_return_Some in Hcc as (ai & Hai_in & Hai).
    apply first_return_Some in Hai as (bi & Hbi_in & Hbi).
    apply junctionConnect_inv in Hbi as (gapM & Hgap & Htol & ->).
    destruct (Hprev pc Hpc_in) as [HinA HnearA].
    destruct (Hcurr cc Hcc_in) as [HinB HnearB].
    apply elem_of_lookup_imap in HinA as (i & trailA & [= Hi HA] & HlookA).
    apply elem_of_lookup_imap in HinB as (j & trailB & [= Hj HB] & HlookB).
    exists p1, p2, corridorTrails, prevPt, currPt.
    do 5 (split; [done|]). split; [done|]. right.
    exists i, j, (trail pc), (trail cc), (nearPoint pc), (nearPoint cc),
      ai, bi, gapM.
    split; [congruence|]. split; [by rewrite HA|]. split; [by rewrite HB|].
    split; [done|]. split; [done|].
    split; [by apply elem_of_indices|]. split; [by apply elem_of_indices|].
    done.
Qed.

End Corridor.

(** ** Spur distances *)

Section SpurDistances.
Context (W : World).



End SpurDistances.

(** ** Finishing a drawn session *)

Section FinishedSession.
Context (W : World).






End FinishedSession.

(** ** The shape of the display line *)

Section DisplayShape.

Lemma for_of_appendSegment_shape scs acc out :
  for_of scs appendSegment acc = Ok out ->
  exists ks : list nat,
    length ks = length scs
    /\ Forall (fun k => (k <= 1)%nat) ks
    /\ out = acc ++ concat (zip_with drop ks scs).
Proof.
  revert acc. induction scs as [|sc scs IH]; intros acc; cbn.
  - intros [= <-]. exists []. by rewrite app_nil_r.
  - destruct (appendSegment sc acc) as [acc'|] eqn:Happ; cbn; [|done].
    apply appendSegment_shape in Happ as (k & Hk & ->).
    intros (ks & Hlen & Hks & ->)%IH. exists (k :: ks). cbn.
    split; [by rewrite Hlen|]. split; [by constructor|].
    by rewrite <- app_assoc.
Qed.

(** X22.  The shape of the display line.  Whenever
    [buildMainRouteDisplayCoords] returns for a session that has segments,
    the line is the coordinates of the first segment followed by those of
    each later segment in turn, whole or without its first coordinate:
    nothing else is left out, added or moved. *)
Theorem buildMainRouteDisplayCoords_shape (s : Session) seg0 segs out :
  routeSegments s = seg0 :: segs ->
  buildMainRouteDisplayCoords s = Ok out ->
  exists ks : list nat,
    length ks = length segs
    /\ Forall (fun k => (k <= 1)%nat) ks
    /\ out = coords seg0 ++ concat (zip_with drop ks (coords <$> segs)).
Proof.
  intros Hsegs. unfold buildMainRouteDisplayCoords. rewrite Hsegs.
  intros (ks & Hlen & Hks & ->)%for_of_appendSegment_shape.
  exists ks. by rewrite length_fmap in Hlen.
Qed.

End DisplayShape.

(** ** Pinning the ends of a merged slice *)

Section Pinned.
Context (W : World).

Lemma ends_of {A} (l : list A) :
  (2 <= length l)%nat -> exists a middle b, l = a :: middle ++ [b].
Proof.
  intros Hlen. destruct l as [|a l]; [cbn in Hlen; lia|].
  destruct (last l) as [b|] eqn:Hlast.
  - apply last_Some in Hlast as (middle & ->). by exists a, middle, b.
  - apply last_None in Hlast as ->. cbn in Hlen. lia.
Qed.

Lemma pinned_ends {A} (a b p c : A) (middle : list A) :
  <[Z.to_nat (len (<[0%nat := p]> (a :: middle ++ [b])) - 1) := c]>
    (<[0%nat := p]> (a :: middle ++ [b]))
  = p :: middle ++ [c].
Proof.
  change (<[0%nat := p]> (a :: middle ++ [b])) with (p :: middle ++ [b]).
  replace (Z.to_nat (len (p :: middle ++ [b]) - 1))
    with (S (length middle + 0)).
  2:{ unfold len. cbn [length]. rewrite length_app. cbn. lia. }
  change (<[S (length middle + 0) := c]> (p :: middle ++ [b]))
    with (p :: <[(length middle + 0)%nat := c]> (middle ++ [b])).
  by rewrite insert_app_r.
Qed.

(** X23.  Connecting two fragments of one trail.  Whenever the connection
    through the merged fragments gives a segment: the two fragments were
    merged, turf sliced the merged line between the two vertices, and the
    segment is that slice with its first coordinate replaced by the
    previous vertex and its last one by the current vertex; every
    coordinate between is kept as it is, and the segment is
    trail-snapped. *)
Theorem relatedConnect_pinned prevRef currRef prevCoord currCoord seg :
  relatedConnect W prevRef currRef prevCoord currCoord = Ok (Some seg) ->
  exists merged prevPt currPt sliced a middle b,
    mergeTrailFragments W (trailCoords prevRef) (trailCoords currRef)
    = Ok (Some merged)
    /\ turf_point W prevCoord = Ok prevPt
    /\ turf_point W currCoord = Ok currPt
    /\ turf_lineSlice W prevPt currPt merged = Ok sliced
    /\ line_coordinates sliced = a :: middle ++ [b]
    /\ seg = {| coords := prevCoord :: middle ++ [currCoord];
                isTrailSnapped := true |}.
Proof.
  unfold relatedConnect, turf_point, turf_lineSlice.
  destruct (mergeTrailFragments W _ _) as [[merged|]|]; cbn; [| done | done].
  destruct (the_turf W) as [t|]; cbn; [|done].
  destruct (point t prevCoord) as [prevPt|]; cbn; [|done].
  destruct (point t currCoord) as [currPt|]; cbn; [|done].
  destruct (lineSlice t prevPt currPt merged) as [sliced|] eqn:Hsliced; cbn;
    [|done].
  destruct (2 <=? _) eqn:Hlen; [|done]. apply Z.leb_le in Hlen.
  destruct (ends_of (line_coordinates sliced)) as (a & middle & b & Heq).
  { unfold len in Hlen. lia. }
  intros [= <-]. exists merged, prevPt, currPt, sliced, a, middle, b.
  do 5 (split; [done|]). f_equal. rewrite Heq. apply pinned_ends.
Qed.

End Pinned.

(** * The theorems at concrete inputs *)

Section Instances.

(** ** Snapping: a click 3 pixels off the ridge trail *)

Lemma snapToTrail_radius_witness :
  exists r,
    snapToTrail (Flat.world [Flat.ridge]) (Flat.pos 52 3) = Ok r
    /\ snapped r = true
    /\ exists pixel snappedPixel,
         project (Flat.world [Flat.ridge]) (Flat.pos 52 3) = Ok pixel
         /\ project (Flat.world [Flat.ridge]) (coordinates r) = Ok snappedPixel
         /\ num_le (pixelDistance snappedPixel pixel) SNAP_PIXEL_RADIUS = true.
Proof.
  eexists. split; [vm_compute; reflexivity|]. split; [reflexivity|].
  apply (snapToTrail_radius (Flat.world [Flat.ridge]) (Flat.pos 52 3));
    reflexivity.
Defined.

(** A click 31 pixels off the trail is left where it is. *)
Lemma snapToTrail_out_of_radius :
  snapToTrail (Flat.world [Flat.ridge]) (Flat.pos 50 31)
  = Ok (unsnapped (Flat.pos 50 31)).
Proof. vm_compute. reflexivity. Qed.

(** A click exactly 30 pixels off the trail snaps to it. *)
Lemma snapToTrail_at_radius :
  snapped <$> snapToTrail (Flat.world [Flat.ridge]) (Flat.pos 50 30) = Ok true
  /\ coordinates <$> snapToTrail (Flat.world [Flat.ridge]) (Flat.pos 50 30)
     = Ok (Flat.pos 50 0).
Proof. split; vm_compute; reflexivity. Qed.

(** ** Trail identity: the three answers *)

Lemma trailsMatch_answers :
  trailsMatch (Some (Flat.refOf Flat.ridge 5)) (Some (Flat.refOf Flat.ridge 9))
  = Ok same
  /\ trailsMatch (Some (Flat.refOf Flat.ridgeWest 0))
       (Some (Flat.refOf Flat.ridgeEast 0)) = Ok related
  /\ trailsMatch (Some (Flat.refOf Flat.northTrail 0))
       (Some (Flat.refOf Flat.southTrail 0)) = Ok no_match
  /\ trailsMatch None (Some (Flat.refOf Flat.ridge 5)) = Ok no_match.
Proof. repeat split; vm_compute; reflexivity. Qed.

(** ** The same trail, indices 5 and 9 *)

Lemma same_trail_slice_5_9_witness :
  getTrailSegmentBetween (Flat.world [Flat.ridge])
    (Some (Flat.refOf Flat.ridge 5)) (Some (Flat.refOf Flat.ridge 9))
    (Flat.pos 52 0) (Flat.pos 93 0)
  = Ok {| coords := [Flat.pos 52 0; Flat.pos 60 0; Flat.pos 70 0;
                     Flat.pos 80 0; Flat.pos 90 0; Flat.pos 93 0];
          isTrailSnapped := true |}.
Proof.
  apply (same_trail_slice_5_9 (Flat.world [Flat.ridge])
           (Flat.refOf Flat.ridge 5) (Flat.refOf Flat.ridge 9));
    reflexivity.
Defined.

(** The segment is not the five coordinates
    [[startCoord, trail[6], trail[7], trail[8], endCoord]]: [trail[9]] is
    part of it. *)
Lemma same_trail_slice_5_9_has_six_coordinates :
  let trail := geometry_coordinates Flat.ridge in
  getTrailSegmentBetween (Flat.world [Flat.ridge])
    (Some (Flat.refOf Flat.ridge 5)) (Some (Flat.refOf Flat.ridge 9))
    (Flat.pos 52 0) (Flat.pos 93 0)
  <> Ok {| coords := [Flat.pos 52 0; get trail 6; get trail 7; get trail 8;
                      Flat.pos 93 0];
           isTrailSnapped := true |}.
Proof. vm_compute. intros [=]. Qed.

(** ** Endpoints: a corridor connection *)

Lemma getTrailSegmentBetween_endpoints_witness :
  exists seg,
    getTrailSegmentBetween
      (Flat.world [Flat.ridgeWest; Flat.ridgeEast; Flat.link])
      (Some (Flat.refOf Flat.ridgeWest 0)) (Some (Flat.refOf Flat.ridgeEast 0))
      (Flat.pos 90 0) (Flat.pos 210 0) = Ok seg
    /\ isTrailSnapped seg = true
    /\ head (coords seg) = Some (Flat.pos 90 0)
    /\ last (coords seg) = Some (Flat.pos 210 0).
Proof.
  eexists. split; [vm_compute; reflexivity|]. split; [reflexivity|].
  apply (getTrailSegmentBetween_endpoints
           (Flat.world [Flat.ridgeWest; Flat.ridgeEast; Flat.link])
           (Some (Flat.refOf Flat.ridgeWest 0))
           (Some (Flat.refOf Flat.ridgeEast 0))).
  reflexivity.
Defined.

(** ** Merging: a gap of 15 with a tolerance of 20 *)

Lemma mergeTrailFragments_joins_witness :
  mergeTrailFragments (Flat.world [])
    (geometry_coordinates Flat.creekWest) (geometry_coordinates Flat.creekEast)
  = Some <$> turf_lineString (Flat.world [])
               (geometry_coordinates Flat.creekWest
                ++ drop 1 (geometry_coordinates Flat.creekEast)).
Proof.
  apply (proj1 (mergeTrailFragments_joins (Flat.world [])
                  (geometry_coordinates Flat.creekWest)
                  (geometry_coordinates Flat.creekEast)
                  ltac:(discriminate) ltac:(discriminate)) (of_Z 15));
    reflexivity.
Defined.

(** After a merge that fails the caller does not fall back to the straight
    segment when the corridor holds a connecting trail: the two ridge
    fragments are related, their ends are too far apart to merge, and the
    segment follows the link trail. *)
Lemma merge_failure_then_corridor :
  let W := Flat.world [Flat.ridgeWest; Flat.ridgeEast; Flat.link] in
  let prevRef := Flat.refOf Flat.ridgeWest 0 in
  let currRef := Flat.refOf Flat.ridgeEast 0 in
  trailsMatch (Some prevRef) (Some currRef) = Ok related
  /\ mergeTrailFragments W (trailCoords prevRef) (trailCoords currRef) = Ok None
  /\ getTrailSegmentBetween W (Some prevRef) (Some currRef)
       (Flat.pos 90 0) (Flat.pos 210 0)
     = Ok {| coords := [Flat.pos 90 0; Flat.pos 150 5; Flat.pos 210 0];
             isTrailSnapped := true |}
  /\ getTrailSegmentBetween W (Some prevRef) (Some currRef)
       (Flat.pos 90 0) (Flat.pos 210 0)
     <> Ok (straightLine (Flat.pos 90 0) (Flat.pos 210 0)).
Proof. vm_compute. repeat split. intros [=]. Qed.

(** ** Assembly *)

Lemma threeClicks_segments :
  coords <$> routeSegments (runSession (Flat.world []) Flat.threeClicks)
  = [[Flat.pos 0 0; Flat.pos 10 0]; [Flat.pos 10 0; Flat.pos 20 5]].
Proof. vm_compute. reflexivity. Qed.

Lemma buildMainRouteDisplayCoords_dedup_witness :
  noAdjacentDuplicates [Flat.pos 0 0; Flat.pos 10 0; Flat.pos 20 5].
Proof.
  apply (proj2 (buildMainRouteDisplayCoords_dedup
                  (runSession (Flat.world []) Flat.threeClicks)
                  [Flat.pos 0 0; Flat.pos 10 0; Flat.pos 20 5]
                  ltac:(vm_compute; reflexivity))).
  - apply (proj1 (Forall_fmap coords
             (fun sc => sc <> [] /\ noAdjacentDuplicates sc) _)).
    rewrite threeClicks_segments.
    repeat (apply Forall_cons; split; [split; [discriminate|]|]);
      [| |apply Forall_nil; done].
    all: apply noAdjacentDuplicates_cons;
      [vm_compute; discriminate|by apply noAdjacentDuplicates_short].
  - rewrite threeClicks_segments. vm_compute. done.
Defined.

(** The two clicks of a double click make a segment from a vertex to
    itself, whose two coordinates stay side by side in the assembled
    route. *)
Lemma double_click_duplicate :
  buildMainRouteDisplayCoords (runSession (Flat.world []) Flat.doubleClick)
  = Ok [Flat.pos 0 0; Flat.pos 10 0; Flat.pos 10 0]
  /\ isDuplicate (Flat.pos 10 0) (Flat.pos 10 0) = Ok true
  /\ ~ noAdjacentDuplicates [Flat.pos 0 0; Flat.pos 10 0; Flat.pos 10 0].
Proof.
  split; [vm_compute; reflexivity|]. split; [vm_compute; reflexivity|].
  intros H. apply (H 1%nat (Flat.pos 10 0) (Flat.pos 10 0)); reflexivity.
Qed.

(** A first coordinate that is dropped for being within the epsilon of the
    last coordinate so far, but is not that very coordinate, can leave a
    duplicate pair behind: the coordinate after it may be within the epsilon
    of the last coordinate too. *)
Lemma epsilon_drift_duplicate :
  Forall (fun seg => noAdjacentDuplicates (coords seg)) Flat.driftingSegments
  /\ buildMainRouteDisplayCoords (Flat.sessionOf Flat.driftingSegments)
     = Ok [Flat.pos (-1) 0; Flat.drift 0; Flat.drift (-9); Flat.pos 1 0]
  /\ isDuplicate (Flat.drift 0) (Flat.drift (-9)) = Ok true.
Proof.
  split; [|split; vm_compute; reflexivity].
  repeat (apply Forall_cons; split); [| |by apply Forall_nil].
  - apply noAdjacentDuplicates_cons;
      [vm_compute; discriminate|by apply noAdjacentDuplicates_short].
  - repeat (apply noAdjacentDuplicates_cons; [vm_compute; discriminate|]).
    by apply noAdjacentDuplicates_short.
Qed.

(** ** The merge tolerance *)

(** A gap of exactly the tolerance merges; a gap one unit beyond it does
    not. *)
Lemma merge_tolerance_boundary :
  mergeTrailFragments (Flat.world [])
    (geometry_coordinates Flat.brookWest)
    (geometry_coordinates Flat.brookEast20)
  = Ok (Some {| line_coordinates :=
                  [Flat.pos 0 0; Flat.pos 100 0; Flat.pos 200 0] |})
  /\ mergeTrailFragments (Flat.world [])
       (geometry_coordinates Flat.brookWest)
       (geometry_coordinates Flat.brookEast21)
     = Ok None.
Proof. split; vm_compute; reflexivity. Qed.

(** ** Fallbacks *)

(** Two unrelated trails and an empty corridor: every strategy fails and the
    segment is the straight line.  And between the two ridge fragments, in
    the world that renders them, the function returns. *)
Lemma getTrailSegmentBetween_fallbacks_witness :
  getTrailSegmentBetween (Flat.world [])
    (Some (Flat.refOf Flat.northTrail 0)) (Some (Flat.refOf Flat.southTrail 0))
    (Flat.pos 50 500) (Flat.pos 50 (-500))
  = Ok (straightLine (Flat.pos 50 500) (Flat.pos 50 (-500)))
  /\ exists seg,
       getTrailSegmentBetween
         (Flat.world [Flat.ridgeWest; Flat.ridgeEast; Flat.link])
         (Some (Flat.refOf Flat.ridgeWest 0))
         (Some (Flat.refOf Flat.ridgeEast 0))
         (Flat.pos 90 0) (Flat.pos 210 0) = Ok seg.
Proof.
  split.
  - apply (proj1 (proj2 (proj2 (proj2 (proj2 (proj2
             (getTrailSegmentBetween_fallbacks (Flat.world [])
                (Flat.pos 50 500) (Flat.pos 50 (-500))))))))
             no_match);
      [reflexivity|discriminate|reflexivity|reflexivity].
  - apply (proj1 (proj2 (proj2 (proj2 (proj2
             (getTrailSegmentBetween_fallbacks
                (Flat.world [Flat.ridgeWest; Flat.ridgeEast; Flat.link])
                (Flat.pos 90 0) (Flat.pos 210 0))))))).
    + apply Flat_answers. repeat constructor; discriminate.
    + discriminate.
    + discriminate.
    + intros ref [= <-]. repeat constructor; discriminate.
    + intros ref [= <-]. repeat constructor; discriminate.
Defined.

(** [getTrailSegmentBetween] throws on a trail ref whose polyline has no
    first coordinate ([trailsMatch] reads it outside any [try] block), and,
    for two well-formed refs of different trails, when turf is not loaded
    ([tryConnectTrails] is called outside any [try] block). *)
Lemma getTrailSegmentBetween_throws :
  getTrailSegmentBetween (Flat.world [])
    (Some Flat.brokenRef) (Some Flat.brokenRef)
    (Flat.pos 0 0) (Flat.pos 10 0) = Throw
  /\ getTrailSegmentBetween (Flat.worldWithoutTurf [])
       (Some (Flat.refOf Flat.northTrail 0))
       (Some (Flat.refOf Flat.southTrail 0))
       (Flat.pos 50 500) (Flat.pos 50 (-500)) = Throw.
Proof. split; vm_compute; reflexivity. Qed.

(** ** Snapping among several features *)

Lemma snapToTrail_snapped_feature_witness :
  let W := Flat.world [Flat.southTrail; Flat.cairn; Flat.ridge; Flat.stub] in
  exists r,
    snapToTrail W (Flat.pos 52 3) = Ok r
    /\ snapped r = true
    /\ exists pixel trails clickPoint trail nearest pixelDist,
         project W (Flat.pos 52 3) = Ok pixel
         /\ queryRenderedFeatures W (snapBbox pixel) = Ok trails
         /\ turf_point W (Flat.pos 52 3) = Ok clickPoint
         /\ trail ∈ trails
         /\ geometry_type trail = "LineString"%string
         /\ 2 <= len (geometry_coordinates trail)
         /\ snapCandidate W pixel clickPoint trail
            = Ok (Some (nearest, pixelDist))
         /\ r = {| coordinates := nearest_coordinates nearest;
                   snapped := true;
                   trailFeature := Some trail;
                   snap_indexOnLine := Some (nearest_index nearest) |}.
Proof.
  cbn zeta. eexists. split; [vm_compute; reflexivity|]. split; [reflexivity|].
  apply (snapToTrail_snapped_feature
           (Flat.world [Flat.southTrail; Flat.cairn; Flat.ridge; Flat.stub])
           (Flat.pos 52 3)); reflexivity.
Defined.

Lemma snapToTrail_nearest_witness :
  let W := Flat.world [Flat.southTrail; Flat.ridge; Flat.ridge] in
  exists r,
    snapToTrail W (Flat.pos 52 3) = Ok r
    /\ snapped r = true
    /\ exists pixel trails clickPoint before trail after nearest pixelDist,
         project W (Flat.pos 52 3) = Ok pixel
         /\ queryRenderedFeatures W (snapBbox pixel) = Ok trails
         /\ turf_point W (Flat.pos 52 3) = Ok clickPoint
         /\ trails = before ++ trail :: after
         /\ trailFeature r = Some trail
         /\ snapCandidate W pixel clickPoint trail
            = Ok (Some (nearest, pixelDist))
         /\ coordinates r = nearest_coordinates nearest
         /\ (forall trail' nearest' pixelDist',
               trail' ∈ before ->
               snapCandidate W pixel clickPoint trail'
               = Ok (Some (nearest', pixelDist')) ->
               num_le pixelDist' pixelDist = false)
         /\ (forall trail' nearest' pixelDist',
               trail' ∈ after ->
               snapCandidate W pixel clickPoint trail'
               = Ok (Some (nearest', pixelDist')) ->
               num_lt pixelDist' pixelDist = false).
Proof.
  cbn zeta. eexists. split; [vm_compute; reflexivity|]. split; [reflexivity|].
  apply (snapToTrail_nearest
           (Flat.world [Flat.southTrail; Flat.ridge; Flat.ridge])
           (Flat.pos 52 3)); reflexivity.
Defined.

Lemma snapToTrail_no_eligible_trail_witness :
  snapToTrail (Flat.world [Flat.cairn; Flat.stub]) (Flat.pos 52 3)
  = Ok (unsnapped (Flat.pos 52 3)).
Proof.
  apply (snapToTrail_no_eligible_trail (Flat.world [Flat.cairn; Flat.stub])
           (Flat.pos 52 3)
           {| x := of_Z 52; y := of_Z 3 |} [Flat.cairn; Flat.stub]
           {| point_coordinates := Flat.pos 52 3 |});
    [reflexivity..|].
  apply Forall_cons. split; [left; vm_compute; intros [=]|].
  apply Forall_cons. split; [right; vm_compute; reflexivity|]. constructor.
Defined.

(** ** Two vertices on one feature *)

Lemma same_feature_connects_witness :
  let prevRef := Flat.refOf Flat.ridge 2 in
  let currRef :=
    {| trailCoords := geometry_coordinates Flat.ridge;
       trailId := JNull; trailName := JNull; indexOnLine := 4 |} in
  trailsMatch (Some prevRef) (Some currRef) = Ok same
  /\ getTrailSegmentBetween (Flat.world []) (Some prevRef) (Some currRef)
       (Flat.pos 22 0) (Flat.pos 47 0)
     = Ok {| coords :=
               extractTrailSlice (geometry_coordinates Flat.ridge)
                 (Flat.pos 22 0) 2 (Flat.pos 47 0) 4;
             isTrailSnapped := true |}.
Proof.
  cbn zeta.
  apply (same_feature_connects (Flat.world []) (Flat.refOf Flat.ridge 2)
           {| trailCoords := geometry_coordinates Flat.ridge;
              trailId := JNull; trailName := JNull; indexOnLine := 4 |}
           (Flat.pos 22 0) (Flat.pos 47 0)
           (of_Z 0) (of_Z 0) (of_Z 110) (of_Z 0)); reflexivity.
Defined.

Lemma extractTrailSlice_in_range_witness :
  let trail := geometry_coordinates Flat.ridge in
  (2 <= 4 ->
   extractTrailSlice trail (Flat.pos 22 0) 2 (Flat.pos 47 0) 4
   = Flat.pos 22 0 :: take (Z.to_nat (4 - 2)) (drop (Z.to_nat (2 + 1)) trail)
       ++ [Flat.pos 47 0])
  /\ wellFormed (extractTrailSlice trail (Flat.pos 22 0) 2 (Flat.pos 47 0) 4).
Proof.
  cbn zeta.
  destruct (extractTrailSlice_in_range (geometry_coordinates Flat.ridge)
              (Flat.pos 22 0) 2 (Flat.pos 47 0) 4) as (Hf & _ & Hwf);
    [vm_compute; split; [intros [=]|reflexivity]..|].
  split; [exact Hf|]. apply Hwf; [|done..].
  repeat constructor; done.
Defined.

Lemma extractTrailSlice_hole_witness :
  undefined ∈ extractTrailSlice (geometry_coordinates Flat.ridge)
                (Flat.pos 102 0) 10 (Flat.pos 130 0) 12.
Proof.
  apply (extractTrailSlice_hole (geometry_coordinates Flat.ridge)
           (Flat.pos 102 0) 10 (Flat.pos 130 0) 12);
    vm_compute; [reflexivity|intros [=]].
Defined.

Lemma findLastMainRouteVertexIndex_spec_witness :
  let types := [route; camp; dayhike; dayhike] in
  findLastMainRouteVertexIndex types 3 = 1
  /\ 0 <= findLastMainRouteVertexIndex types 3 <= 3
  /\ (forall j, findLastMainRouteVertexIndex types 3 < j <= 3 ->
        notDayhikeAt types j = false)
  /\ (notDayhikeAt types (findLastMainRouteVertexIndex types 3) = true
      \/ (findLastMainRouteVertexIndex types 3 = 0
          /\ forall j, 0 <= j <= 3 -> notDayhikeAt types j = false)).
Proof.
  cbn zeta. split; [reflexivity|].
  apply (findLastMainRouteVertexIndex_spec [route; camp; dayhike; dayhike] 3).
  lia.
Defined.

(** ** A walk along the ridge *)





(** ** A freehand walk *)

Lemma freehand_route_witness :
  let s := runSession (Flat.worldWithoutTurf [Flat.ridge]) Flat.freehandWalk in
  freehand (Flat.worldWithoutTurf [Flat.ridge]) Flat.freehandWalk
  /\ routeCoords s = clickCoords Flat.freehandWalk
  /\ Forall (fun b => b = false) (routeSnapped s)
  /\ routeSegments s = straightChain (mainRouteVertices s)
  /\ (routeSegments s <> [] ->
      buildMainRouteDisplayCoords s = Ok (mainRouteVertices s))
  /\ (notDayhikeAt (routeVertexTypes s) 0 = true ->
      mainRouteVertices s
      = mainVerticesFrom (routeVertexTypes s) 0 (routeCoords s)).
Proof.
  cbn zeta. split; [by left|].
  apply (freehand_route (Flat.worldWithoutTurf [Flat.ridge]) Flat.freehandWalk).
  by left.
Defined.

Lemma freehand_display :
  buildMainRouteDisplayCoords (runSession (Flat.world []) Flat.freehandWalk)
  = Ok [Flat.pos 0 0; Flat.pos 10 0; Flat.pos 10 0; Flat.pos 20 0].
Proof. vm_compute. reflexivity. Qed.

Lemma dayhike_click_without_turf_witness :
  let W := Flat.worldWithoutTurf [Flat.ridge] in
  let s := runSession W [Flat.click 12 3; SelectPointType dayhike] in
  handleMapClickForRoute W
    {| lng := of_Z 31; lat := of_Z (-4); shiftKey := false |} s
  = (pushTrailRef (pushVertex s (unsnapped (Flat.pos 31 (-4)))) None, Throw).
Proof.
  cbn zeta.
  apply (dayhike_click_without_turf (Flat.worldWithoutTurf [Flat.ridge])
           {| lng := of_Z 31; lat := of_Z (-4); shiftKey := false |}
           (runSession (Flat.worldWithoutTurf [Flat.ridge])
              [Flat.click 12 3; SelectPointType dayhike]));
    [reflexivity..| |reflexivity].
  vm_compute. intros [=].
Defined.

(** ** Redrawing and finishing the walk *)

Lemma updateRouteDrawing_features_witness :
  let s := runSession (Flat.world [Flat.ridge]) Flat.ridgeWalk in
  exists features,
    updateRouteDrawing s (Flat.pos 3 3) = Ok features
    /\ (forall f line,
          f ∈ features -> draw_geometry f = LineString line -> 2 <= len line)
    /\ omap markerCoord features = routeCoords s.
Proof.
  cbn zeta. eexists. split; [vm_compute; reflexivity|].
  apply (updateRouteDrawing_features
           (runSession (Flat.world [Flat.ridge]) Flat.ridgeWalk) (Flat.pos 3 3)).
  reflexivity.
Defined.


Lemma finishRouteDrawing_features_witness :
  let W := Flat.world [Flat.ridge] in
  let s := runSession W Flat.ridgeWalk in
  exists s' trip',
    finishRouteDrawing W s (Some Flat.weekend) = (s', trip', Ok ())
    /\ exists line main routeFeature added,
         trip' = Some {| features := features Flat.weekend ++ routeFeature :: added;
                         dates := dates Flat.weekend |}
         /\ routeFeature
            = {| geometry := LineString line;
                 properties :=
                   RouteProperties (routeVertexTypes s) (routeSnapped s)
                     (routeCoords s) main (computeDayhikeDistance s) |}
         /\ 2 <= len line
         /\ computeMainRouteDistance W s = Ok main
         /\ lookupZ (features Flat.weekend ++ routeFeature :: added)
              (len (features Flat.weekend)) = Some routeFeature
         /\ Forall (linkedTo (len (features Flat.weekend))) added
         /\ Forall (fun f => validLine (geometry f)) added.
Proof.
  cbn zeta. eexists _, _. split; [vm_compute; reflexivity|].
  apply (finishRouteDrawing_features (Flat.world [Flat.ridge])
           (runSession (Flat.world [Flat.ridge]) Flat.ridgeWalk) Flat.weekend
           resetRouteDrawing);
    [vm_compute; intros [=]|vm_compute; reflexivity].
Defined.

Lemma finishRouteDrawing_points_witness :
  let W := Flat.world [Flat.ridge] in
  let s := runSession W Flat.ridgeWalk in
  exists s' t',
    finishRouteDrawing W s (Some Flat.weekend) = (s', Some t', Ok ())
    /\ (properties <$> filter (fun f => isPoint f)
                         (drop (length (features Flat.weekend)) (features t')))
       = [PointProperties (Some dayhike) 1 1 "2024-07-01";
          PointProperties (Some camp) 1 2 "2024-07-01";
          PointProperties (Some dayhike) 1 3 "2024-07-02";
          PointProperties (Some rest) 1 4 "2024-07-02"]
    /\ filter (fun f => isPoint f)
         (drop (length (features Flat.weekend)) (features t'))
       = omap (pointFeatureAt s (len (features Flat.weekend)) (dates Flat.weekend))
           (indices (routeCoords s)).
Proof.
  cbn zeta. eexists _, _. split; [vm_compute; reflexivity|].
  split; [vm_compute; reflexivity|].
  apply (finishRouteDrawing_points (Flat.world [Flat.ridge])
           (runSession (Flat.world [Flat.ridge]) Flat.ridgeWalk) Flat.weekend
           resetRouteDrawing);
    [vm_compute; intros [=]|vm_compute; reflexivity].
Defined.

(** ** A corridor connection *)

Lemma tryConnectTrails_connection_witness :
  let W := Flat.world [Flat.ridgeWest; Flat.ridgeEast; Flat.link] in
  let prevRef := Flat.refOf Flat.ridgeWest 0 in
  let currRef := Flat.refOf Flat.ridgeEast 0 in
  exists seg,
    tryConnectTrails W prevRef currRef (Flat.pos 90 0) (Flat.pos 210 0)
    = Ok (Some seg)
    /\ coords seg = [Flat.pos 90 0; Flat.pos 150 5; Flat.pos 210 0]
    /\ exists p1 p2 corridorTrails prevPt currPt,
         project W (Flat.pos 90 0) = Ok p1
         /\ project W (Flat.pos 210 0) = Ok p2
         /\ queryRenderedFeatures W (corridorBbox p1 p2) = Ok corridorTrails
         /\ turf_point W (Flat.pos 90 0) = Ok prevPt
         /\ turf_point W (Flat.pos 210 0) = Ok currPt
         /\ isTrailSnapped seg = true
         /\ ((exists trail nearPrev nearCurr,
                trail ∈ corridorTrails
                /\ passesNear W p1 prevPt trail nearPrev
                /\ passesNear W p2 currPt trail nearCurr
                /\ coords seg
                   = extractTrailSlice (geometry_coordinates trail)
                       (Flat.pos 90 0) (nearest_index nearPrev)
                       (Flat.pos 210 0) (nearest_index nearCurr))
             \/ (exists (i j : nat) trailA trailB nearPrev nearCurr ai bi gapM,
                   i <> j
                   /\ corridorTrails !! i = Some trailA
                   /\ corridorTrails !! j = Some trailB
                   /\ passesNear W p1 prevPt trailA nearPrev
                   /\ passesNear W p2 currPt trailB nearCurr
                   /\ 0 <= ai < len (geometry_coordinates trailA)
                   /\ 0 <= bi < len (geometry_coordinates trailB)
                   /\ distMeters W (get (geometry_coordinates trailA) ai)
                        (get (geometry_coordinates trailB) bi) = Ok gapM
                   /\ num_gt gapM MERGE_GAP_TOLERANCE_METERS = false
                   /\ coords seg
                      = extractTrailSlice (geometry_coordinates trailA)
                          (Flat.pos 90 0) (nearest_index nearPrev)
                          (get (geometry_coordinates trailA) ai) ai
                        ++ drop 1
                             (extractTrailSlice (geometry_coordinates trailB)
                                (get (geometry_coordinates trailA) ai) bi
                                (Flat.pos 210 0) (nearest_index nearCurr)))).
Proof.
  cbn zeta. eexists. split; [vm_compute; reflexivity|].
  split; [vm_compute; reflexivity|].
  apply (tryConnectTrails_connection
           (Flat.world [Flat.ridgeWest; Flat.ridgeEast; Flat.link])
           (Flat.refOf Flat.ridgeWest 0) (Flat.refOf Flat.ridgeEast 0)).
  vm_compute. reflexivity.
Defined.

(** ** Finishing the walk along the ridge *)


(** ** The shape of a display line *)

Lemma buildMainRouteDisplayCoords_shape_witness :
  let s := runSession (Flat.world [Flat.ridge]) Flat.ridgeWalk in
  exists seg0 segs out,
    routeSegments s = seg0 :: segs
    /\ buildMainRouteDisplayCoords s = Ok out
    /\ exists ks : list nat,
         length ks = length segs
         /\ Forall (fun k => (k <= 1)%nat) ks
         /\ out = coords seg0 ++ concat (zip_with drop ks (coords <$> segs)).
Proof.
  cbn zeta. eexists _, _, _. split; [vm_compute; reflexivity|].
  split; [vm_compute; reflexivity|].
  apply (buildMainRouteDisplayCoords_shape
           (runSession (Flat.world [Flat.ridge]) Flat.ridgeWalk));
    vm_compute; reflexivity.
Defined.

(** ** Two fragments of the creek trail *)

Lemma relatedConnect_pinned_witness :
  let W := Flat.world [] in
  let prevRef := Flat.refOf Flat.creekWest 0 in
  let currRef := Flat.refOf Flat.creekEast 1 in
  relatedConnect W prevRef currRef (Flat.pos 10 1) (Flat.pos 190 (-1))
  = Ok (Some {| coords := [Flat.pos 10 1; Flat.pos 50 0; Flat.pos 100 0;
                           Flat.pos 150 0; Flat.pos 190 (-1)];
                isTrailSnapped := true |})
  /\ exists merged prevPt currPt sliced a middle b,
       mergeTrailFragments W (trailCoords prevRef) (trailCoords currRef)
       = Ok (Some merged)
       /\ turf_point W (Flat.pos 10 1) = Ok prevPt
       /\ turf_point W (Flat.pos 190 (-1)) = Ok currPt
       /\ turf_lineSlice W prevPt currPt merged = Ok sliced
       /\ line_coordinates sliced = a :: middle ++ [b]
       /\ {| coords := [Flat.pos 10 1; Flat.pos 50 0; Flat.pos 100 0;
                        Flat.pos 150 0; Flat.pos 190 (-1)];
             isTrailSnapped := true |}
          = {| coords := Flat.pos 10 1 :: middle ++ [Flat.pos 190 (-1)];
               isTrailSnapped := true |}.
Proof.
  cbn zeta. split; [vm_compute; reflexivity|].
  apply (relatedConnect_pinned (Flat.world [])
           (Flat.refOf Flat.creekWest 0) (Flat.refOf Flat.creekEast 1)
           (Flat.pos 10 1) (Flat.pos 190 (-1))).
  vm_compute. reflexivity.
Defined.

End Instances.
